(** * Retrieval and prompt assembly: embedding generator, similarity search, prompt builder

    A shallow embedding of
    - [src/services/ohmnic/embeddingService.js]  (class EmbeddingService),
    - the vector search service                   (class VectorSearch),
    - the prompt builder at the end of [src/services/vonage-service.js]
      (class LLMPromptBuilder),
    followed by the properties of the written specification, each settled against
    the embedded code.

    Conventions of the model.
    - A JavaScript string is a [string]; one character stands for one UTF-16 code
      unit, so [String.length] is [.length].  [toLowerCase] is modelled on the
      ASCII letters.
    - A JavaScript number is a rational ([Q]) or, where the code only counts, an
      integer ([Z], [nat]).  NaN and infinities are outside the model; decimal
      rounding ([toFixed]) is inside it, and so is the binary rounding of the sum
      and the quotient behind [avgSimilarity] (module [Double]).
    - [async] code is sequential here: every [await] is a bind of the monad [M],
      which threads the state of the outside world and lets a [throw] escape with
      the effects performed so far kept.
    - [console.log] lines are not modelled; [console.error] diagnostics are events. *)

From Stdlib Require Import List String Ascii Bool Arith ZArith QArith Qabs Qround Qpower Lia.
From Stdlib Require Import Sorted Permutation DecimalString Lqa.
Import ListNotations.

Local Open Scope list_scope.
Local Open Scope string_scope.

(* ===================================================================== *)
(** * JavaScript values, strings and errors                               *)
(* ===================================================================== *)

Module Js.

(** The values a caller can pass where the code expects a text. *)
Inductive Value : Type :=
| Undefined
| Null
| Boolean (b : bool)
| Number (q : Q)
| Str (s : string)
| Object.

(** [!v] is [negb (truthy v)]. *)
Definition truthy (v : Value) : bool :=
  match v with
  | Undefined | Null => false
  | Boolean b => b
  | Number q => negb (Qeq_bool q 0)
  | Str s => negb (String.eqb s "")
  | Object => true
  end.

(** [typeof v === 'string'] *)
Definition is_string (v : Value) : bool :=
  match v with Str _ => true | _ => false end.

(** A thrown value: an [Error] with its message, and the [status] an HTTP
    client error carries. *)
Record Error : Type := mkError { status : option Z; message : string }.

(** [new Error(msg)] *)
Definition new_Error (msg : string) : Error := mkError None msg.

(** The double quote and the line feed, which a literal cannot hold. *)
Definition dq : string := String (ascii_of_nat 34) EmptyString.
Definition nl : string := String (ascii_of_nat 10) EmptyString.

(** [`${n}`] for a non-negative integer. *)
Definition show_nat (n : nat) : string := NilZero.string_of_uint (Nat.to_uint n).

Definition lower_char (c : ascii) : ascii :=
  let n := nat_of_ascii c in
  if (65 <=? n)%nat && (n <=? 90)%nat then ascii_of_nat (n + 32) else c.

(** [s.toLowerCase()] *)
Fixpoint toLowerCase (s : string) : string :=
  match s with
  | EmptyString => EmptyString
  | String c s' => String (lower_char c) (toLowerCase s')
  end.

(** [s.includes(sub)] *)
Fixpoint includes (s sub : string) : bool :=
  if String.prefix sub s then true
  else match s with
       | EmptyString => false
       | String _ s' => includes s' sub
       end.

(** [x.toFixed(d)] works on the absolute value and puts the sign in front: the
    integer [n] for which [n / 10^d] is nearest to [|x|], the larger of two. *)
Definition toFixed_units (x : Q) (d : nat) : Z :=
  Qfloor (Qabs x * inject_Z (10 ^ Z.of_nat d) + (1 # 2)).

Definition is_negative (x : Q) : bool := negb (Qle_bool 0 x).

Fixpoint pad_zeros (width : nat) (s : string) : string :=
  match width with
  | O => s
  | S w => if (String.length s <=? w)%nat then pad_zeros w ("0" ++ s) else s
  end.

(** [x.toFixed(d)] *)
Definition toFixed (x : Q) (d : nat) : string :=
  let n := toFixed_units x d in
  let p := (10 ^ Z.of_nat d)%Z in
  (if is_negative x then "-" else "")
    ++ show_nat (Z.to_nat (n / p))
    ++ (if (d =? 0)%nat then "" else "." ++ pad_zeros d (show_nat (Z.to_nat (n mod p)))).

(** [parseFloat(x.toFixed(d))], the decimal read back as a number *)
Definition parseFloat_toFixed (x : Q) (d : nat) : Q :=
  let n := toFixed_units x d in
  Qmake (if is_negative x then - n else n) (Z.to_pos (10 ^ Z.of_nat d)).

(** [10^d], the number of units of the last digit in 1. *)
Definition scale (d : nat) : Q := inject_Z (10 ^ Z.of_nat d).

(** [sub] occurs in [s]. *)
Definition occurs_in (sub s : string) : Prop :=
  exists a b, s = a ++ sub ++ b.

End Js.

(* ===================================================================== *)
(** * Numbers as doubles                                                  *)
(* ===================================================================== *)

(** The arithmetic of JavaScript numbers where its rounding shows: a number is
    an IEEE 754 double, and a sum or a quotient is the double nearest to the
    exact one, the one of even significand when two are as near.  The finite
    doubles are the rationals [z * 2^e] with [|z| < 2^53] and
    [-1074 <= e <= 971]; results beyond the largest of them (infinities) are
    outside the model. *)
Module Double.

(** [2^e] *)
Definition pow2 (e : Z) : Q := 2 ^ e.

(** [floor(log2 x)], for a positive [x] *)
Definition floor_log2 (x : Q) : Z :=
  let e0 := (Z.log2 (Qnum x) - Z.log2 (Zpos (Qden x)))%Z in
  if Qle_bool (pow2 e0) x then e0 else (e0 - 1)%Z.

(** The integer nearest to [y], the even one of two. *)
Definition round_half_even (y : Q) : Z :=
  let f := Qfloor y in
  match Qcompare (y - inject_Z f) (1 # 2) with
  | Lt => f
  | Gt => (f + 1)%Z
  | Eq => if Z.even f then f else (f + 1)%Z
  end.

(** The distance between the doubles around a positive [x]: [2^(e-52)] for
    the exponent [e] of [x], and that of the smallest normal number below it. *)
Definition quantum (x : Q) : Q := pow2 (Z.max (floor_log2 x) (-1022) - 52).

Definition round_positive (x : Q) : Q :=
  inject_Z (round_half_even (x / quantum x)) * quantum x.

(** The double nearest to [x]. *)
Definition round (x : Q) : Q :=
  match Qcompare x 0 with
  | Eq => 0
  | Gt => Qred (round_positive x)
  | Lt => Qred (- round_positive (- x))
  end.

(** [x + y] and [x / y] (for [y] other than 0) on the doubles that [x] and
    [y] stand for. *)
Definition add (x y : Q) : Q := round (round x + round y).
Definition div (x y : Q) : Q := round (round x / round y).

End Double.

(* ===================================================================== *)
(** * The outside world and the effect monad                              *)
(* ===================================================================== *)

Module Runtime.

Definition Vector : Type := list Q.

(** [openai.embeddings.create({ model, input, encoding_format })] *)
Inductive Input : Type :=
| InputText (text : string)
| InputBatch (batch : list string).

Record CreateParams : Type :=
  mkParams { model : string; input : Input; encoding_format : string }.

Record Item : Type := mkItem { embedding : Vector }.
Record Response : Type := mkResponse { data : list Item }.

(** The stored tables the search reads. *)
Record ChunkRow : Type := mkChunk {
  id : nat;
  document_id : nat;
  tenant_id : option string;
  chunk_index : Z;
  chunk_text : string;
  token_count : Z;
  metadata : string;
  chunk_embedding : option Vector
}.

Record DocumentRow : Type := mkDocument {
  doc_id : nat;
  filename : option string;
  file_type : option string;
  upload_date : option Z;
  tags : list string
}.

(** A row of [ohmnic_query_log]. *)
Record LogRow : Type := mkLogRow {
  log_tenant_id : option string;
  query_text : Js.Value;
  results_count : nat;
  response_time_ms : Z;
  agent_type : option string;
  conversation_id : option string
}.

(** What the code cannot decide: the collaborators' behaviour.
    - [openai_create n p]: the outcome of the [n]-th call of the embeddings
      endpoint (counted from 0), made with parameters [p];
    - [cosine_distance]: pgvector's operator [<=>];
    - [select_error], [insert_error]: whether [pool.query] rejects the SELECT
      of the search, the INSERT of the query log;
    - [clock n]: what the [n]-th [Date.now()] returns. *)
Record Env : Type := mkEnv {
  openai_create : nat -> CreateParams -> Js.Error + Response;
  chunks : list ChunkRow;
  documents : list DocumentRow;
  cosine_distance : Vector -> Vector -> Q;
  select_error : option Js.Error;
  insert_error : option Js.Error;
  clock : nat -> Z
}.

(** The parameters of the SELECT of the search. *)
Record SelectParams : Type := mkSelect {
  sel_embedding : Vector;
  sel_tenant : option string;
  sel_documents : option (list nat);
  sel_threshold : Q;
  sel_limit : nat
}.

(** What the code does to the world, in the order it does it. *)
Inductive Event : Type :=
| EvCreate (p : CreateParams) (outcome : Js.Error + Response)
| EvSleep (ms : Z)
| EvSelect (p : SelectParams)
| EvInsert (row : LogRow)
| EvConsoleError (site : string).

Record State : Type := mkState {
  upstream_calls : nat;
  clock_reads : nat;
  query_log : list LogRow;
  trace : list Event
}.

Definition emit (e : Event) (st : State) : State :=
  mkState (upstream_calls st) (clock_reads st) (query_log st) (trace st ++ [e])%list.

(** How a call ends. *)
Inductive Completion (A : Type) : Type :=
| Return (a : A)
| Throw (e : Js.Error).
Arguments Return {A} a.
Arguments Throw {A} e.

Definition M (A : Type) : Type := State -> Completion A * State.

Definition ret {A} (a : A) : M A := fun st => (Return a, st).
Definition throw {A} (e : Js.Error) : M A := fun st => (Throw e, st).

Definition bind {A B} (c : M A) (k : A -> M B) : M B :=
  fun st =>
    match c st with
    | (Return a, st1) => k a st1
    | (Throw e, st1) => (Throw e, st1)
    end.

(** [try { c } catch (error) { handler error }] *)
Definition try_catch {A} (c : M A) (handler : Js.Error -> M A) : M A :=
  fun st =>
    match c st with
    | (Return a, st1) => (Return a, st1)
    | (Throw e, st1) => handler e st1
    end.

(** [console.error(...)] at the named place. *)
Definition console_error (site : string) : M unit :=
  fun st => (Return tt, emit (EvConsoleError site) st).

(** [await new Promise(resolve => setTimeout(resolve, delay))] *)
Definition sleep (delay : Z) : M unit :=
  fun st => (Return tt, emit (EvSleep delay) st).

(** [Date.now()] *)
Definition now (env : Env) : M Z :=
  fun st =>
    (Return (clock env (clock_reads st)),
     mkState (upstream_calls st) (S (clock_reads st)) (query_log st) (trace st)).

(** [await this.openai.embeddings.create(p)] *)
Definition create (env : Env) (p : CreateParams) : M Response :=
  fun st =>
    let o := openai_create env (upstream_calls st) p in
    let st1 := emit (EvCreate p o)
                 (mkState (S (upstream_calls st)) (clock_reads st)
                          (query_log st) (trace st)) in
    match o with
    | inr r => (Return r, st1)
    | inl e => (Throw e, st1)
    end.

(** The events a run from [st] to [st'] added. *)
Definition emitted (st st' : State) (evs : list Event) : Prop :=
  trace st' = (trace st ++ evs)%list.

End Runtime.

Module RuntimeNotations.
Notation "x <- c ;; k" := (Runtime.bind c (fun x => k))
  (at level 61, c at next level, right associativity).
Notation "c ;;; k" := (Runtime.bind c (fun _ => k))
  (at level 61, right associativity).
End RuntimeNotations.

(* ===================================================================== *)
(** * EmbeddingService                                                    *)
(* ===================================================================== *)

Module EmbeddingService.
Import Js Runtime RuntimeNotations.

(** The constructor's configuration. *)
Definition model_name : string := "text-embedding-3-large".
Definition dimensions : nat := 3072.
Definition maxRetries : nat := 3.
Definition batchSize : nat := 100.

Definition retryableStatuses : list Z := [429; 500; 502; 503; 504]%Z.
Definition retryableMessages : list string :=
  ["timeout"; "network"; "ECONNRESET"; "ETIMEDOUT"].

(** [isRetryableError(error)] *)
Definition isRetryableError (error : Error) : bool :=
  if match status error with
     | Some s => negb (s =? 0)%Z && existsb (Z.eqb s) retryableStatuses
     | None => false
     end
  then true
  else if negb (String.eqb (message error) "")
       then existsb (fun msg => includes (toLowerCase (message error)) (toLowerCase msg))
                    retryableMessages
       else false.

(** The loop of [retryWithBackoff(fn, retries)], entered with counter [i] and
    [fuel] iterations left ([fuel = retries - i]).  Leaving the loop without a
    return resolves to [undefined], here [None]. *)
Fixpoint retry_from {A} (fn : M A) (retries i fuel : nat) : M (option A) :=
  match fuel with
  | O => ret None
  | S fuel' =>
      fun st =>
        match fn st with
        | (Return a, st1) => (Return (Some a), st1)
        | (Throw error, st1) =>
            let isRetryable := isRetryableError error in
            if negb isRetryable || (i =? retries - 1)%nat
            then (Throw error, st1)
            else
              let delay := (2 ^ Z.of_nat i * 1000)%Z in
              (sleep delay ;;; retry_from fn retries (S i) fuel') st1
        end
  end.

Definition retryWithBackoff {A} (fn : M A) (retries : nat) : M (option A) :=
  retry_from fn retries 0 retries.

Definition params_for (i : Input) : CreateParams := mkParams model_name i "float".

(** [response.data]: a [TypeError] when the response is [undefined]. *)
Definition response_data (response : option Response) : M (list Item) :=
  match response with
  | Some r => ret (data r)
  | None => throw (new_Error "Cannot read properties of undefined (reading 'data')")
  end.

(** [response.data[0].embedding] *)
Definition first_embedding (response : option Response) : M Vector :=
  d <- response_data response ;;
  match d with
  | item :: _ => ret (embedding item)
  | [] => throw (new_Error "Cannot read properties of undefined (reading 'embedding')")
  end.

Definition dimension_message (got : nat) : string :=
  "Invalid embedding dimensions: expected " ++ show_nat dimensions
    ++ ", got " ++ show_nat got.

(** [generateEmbedding(text)] *)
Definition generateEmbedding (env : Env) (text : Value) : M Vector :=
  match text with
  | Str s =>
      if negb (truthy text) || negb (is_string text)
      then throw (new_Error "Invalid text input for embedding generation")
      else
        try_catch
          (response <- retryWithBackoff (create env (params_for (InputText s))) maxRetries ;;
           embedding <- first_embedding response ;;
           if negb (List.length embedding =? dimensions)%nat
           then throw (new_Error (dimension_message (List.length embedding)))
           else ret embedding)
          (fun error =>
             console_error "[OHMNIC EMBEDDING] Error generating embedding:" ;;;
             throw (new_Error ("Failed to generate embedding: " ++ message error)))
  | _ =>
      (* [!text || typeof text !== 'string'] holds of every value that is not a string *)
      throw (new_Error "Invalid text input for embedding generation")
  end.

(** [array.slice(i, j)] for [i <= j] *)
Definition slice {A} (array : list A) (i j : nat) : list A :=
  firstn (j - i) (skipn i array).

(** The loop of [createBatches], entered with counter [i]; it runs at most
    [length array] times when [batchSize] is positive. *)
Fixpoint createBatches_from {A} (array : list A) (batchSize i fuel : nat)
  : list (list A) :=
  match fuel with
  | O => []
  | S fuel' =>
      if (i <? List.length array)%nat
      then slice array i (i + batchSize)
             :: createBatches_from array batchSize (i + batchSize) fuel'
      else []
  end.

(** [createBatches(array, batchSize)] *)
Definition createBatches {A} (array : list A) (batchSize : nat) : list (list A) :=
  createBatches_from array batchSize 0 (List.length array).

Definition batch_failure_message (i : nat) (error : Error) : string :=
  "Failed to generate embeddings for batch " ++ show_nat (i + 1) ++ ": "
    ++ message error.

(** One turn of the loop of [generateBatchEmbeddings]: the body for batch
    number [i], with [allEmbeddings] as it stands. *)
Definition batch_step (env : Env) (i : nat) (batch : list string)
           (allEmbeddings : list Vector) : M (list Vector) :=
  try_catch
    (response <- retryWithBackoff (create env (params_for (InputBatch batch))) maxRetries ;;
     d <- response_data response ;;
     let embeddings := map embedding d in
     ret (allEmbeddings ++ embeddings)%list)
    (fun error =>
       console_error "[OHMNIC EMBEDDING] Batch failed:" ;;;
       throw (new_Error (batch_failure_message i error))).

Fixpoint batch_loop (env : Env) (batches : list (list string)) (i : nat)
         (allEmbeddings : list Vector) : M (list Vector) :=
  match batches with
  | [] => ret allEmbeddings
  | batch :: rest =>
      acc <- batch_step env i batch allEmbeddings ;;
      batch_loop env rest (S i) acc
  end.

(** The argument of [generateBatchEmbeddings]: an array of texts or not. *)
Inductive TextsArg : Type :=
| NotAnArray
| TextArray (texts : list string).

(** [generateBatchEmbeddings(texts)] *)
Definition generateBatchEmbeddings (env : Env) (arg : TextsArg) : M (list Vector) :=
  match arg with
  | NotAnArray => throw (new_Error "Invalid texts array for batch embedding generation")
  | TextArray texts =>
      if (List.length texts =? 0)%nat
      then throw (new_Error "Invalid texts array for batch embedding generation")
      else batch_loop env (createBatches texts batchSize) 0 []
  end.

(** The loop of [cosineSimilarity]: the three sums, element by element. *)
Fixpoint cosine_loop (vecA vecB : Vector) (dotProduct normA normB : Q) : Q * Q * Q :=
  match vecA, vecB with
  | a :: vecA', b :: vecB' =>
      cosine_loop vecA' vecB' (dotProduct + a * b) (normA + a * a) (normB + b * b)
  | _, _ => (dotProduct, normA, normB)
  end.

(** [cosineSimilarity(vecA, vecB)], over a square root [sqrt] ([Math.sqrt]). *)
Definition cosineSimilarity (sqrt : Q -> Q) (vecA vecB : Vector) : Completion Q :=
  if negb (List.length vecA =? List.length vecB)%nat
  then Throw (new_Error "Vectors must have same dimensions")
  else
    let '(dotProduct, normA, normB) := cosine_loop vecA vecB 0 0 0 in
    Return (dotProduct / (sqrt normA * sqrt normB)).

End EmbeddingService.


(* ===================================================================== *)
(** * VectorSearch                                                        *)
(* ===================================================================== *)

Module VectorSearch.
Import Js Runtime RuntimeNotations.

Definition defaultTopK : nat := 5.
Definition similarityThreshold : Q := 1 # 10.

(** The option bag of [search]; [None] is a key left out. *)
Record Options : Type := mkOptions {
  opt_topK : option nat;
  opt_similarityThreshold : option Q;
  opt_documentIds : option (list nat)
}.

Record Source : Type := mkSource {
  filename : option string;
  fileType : option string;
  uploadDate : option Z;
  tags : list string
}.

Record SearchResult : Type := mkResult {
  chunkId : nat;
  documentId : nat;
  chunkIndex : Z;
  text : string;
  tokenCount : Z;
  metadata : string;
  source : option Source;
  similarity : Q
}.

Record SearchResponse : Type := mkSearchResponse {
  results : list SearchResult;
  query : Value;
  count : nat;
  responseTimeMs : Z
}.

(** ** The SELECT, as the database evaluates it *)

(** A row of the join, with the distance [c.embedding <=> $1] it is ordered by. *)
Record Row : Type := mkRow {
  row_chunk : ChunkRow;
  row_document : DocumentRow;
  row_distance : Q
}.

(** [1 - (c.embedding <=> $1::vector) AS similarity] *)
Definition row_similarity (r : Row) : Q := 1 - row_distance r.

(** [c.tenant_id = $2]: never true when a side is NULL. *)
Definition sql_eq_tenant (column param : option string) : bool :=
  match column, param with
  | Some a, Some b => String.eqb a b
  | _, _ => false
  end.

(** [AND c.document_id = ANY($3)], a conjunct only when the filter is there. *)
Definition sql_any (filter : option (list nat)) (document : nat) : bool :=
  match filter with
  | Some ids => existsb (Nat.eqb document) ids
  | None => true
  end.

(** [FROM ohmnic_document_chunks c JOIN ohmnic_documents d ON c.document_id = d.id
     WHERE c.tenant_id = $2 AND c.embedding IS NOT NULL [AND c.document_id = ANY($3)]] *)
Definition candidates (env : Env) (p : SelectParams) : list Row :=
  flat_map
    (fun c =>
       match chunk_embedding c with
       | None => []
       | Some v =>
           if sql_eq_tenant (tenant_id c) (sel_tenant p)
              && sql_any (sel_documents p) (document_id c)
           then map (fun d => mkRow c d (cosine_distance env v (sel_embedding p)))
                    (filter (fun d => (document_id c =? doc_id d)%nat) (documents env))
           else []
       end)
    (chunks env).

(** [AND (1 - (c.embedding <=> $1::vector)) >= $n] *)
Definition above_threshold (p : SelectParams) (r : Row) : bool :=
  Qle_bool (sel_threshold p) (row_similarity r).

(** [ORDER BY c.embedding <=> $1::vector]: ascending distance and nothing else;
    rows at the same distance stay as the scan met them. *)
Fixpoint insert_by_distance (r : Row) (rows : list Row) : list Row :=
  match rows with
  | [] => [r]
  | r' :: rest =>
      if Qle_bool (row_distance r) (row_distance r')
      then r :: r' :: rest
      else r' :: insert_by_distance r rest
  end.

Definition order_by_distance (rows : list Row) : list Row :=
  fold_right insert_by_distance [] rows.

Definition run_select (env : Env) (p : SelectParams) : list Row :=
  firstn (sel_limit p)
         (order_by_distance (filter (above_threshold p) (candidates env p))).

(** [await pool.query(sql, params)] for the SELECT *)
Definition pool_select (env : Env) (p : SelectParams) : M (list Row) :=
  fun st =>
    let st1 := emit (EvSelect p) st in
    match select_error env with
    | Some e => (Throw e, st1)
    | None => (Return (run_select env p), st1)
    end.

(** [await pool.query(INSERT INTO ohmnic_query_log ...)] *)
Definition pool_insert (env : Env) (row : LogRow) : M unit :=
  fun st =>
    let st1 := emit (EvInsert row) st in
    match insert_error env with
    | Some e => (Throw e, st1)
    | None =>
        (Return tt,
         mkState (upstream_calls st1) (clock_reads st1)
                 (query_log st1 ++ [row])%list (trace st1))
    end.

(** The object [result.rows.map] builds from a row. *)
Definition to_result (r : Row) : SearchResult :=
  let c := row_chunk r in
  let d := row_document r in
  mkResult (id c) (document_id c) (chunk_index c) (chunk_text c) (token_count c)
           (Runtime.metadata c)
           (Some (mkSource (Runtime.filename d) (file_type d) (upload_date d)
                           (Runtime.tags d)))
           (parseFloat_toFixed (row_similarity r) 4).

(** [documentIds && Array.isArray(documentIds) && documentIds.length > 0] *)
Definition document_filter (documentIds : option (list nat)) : option (list nat) :=
  match documentIds with
  | Some (d :: ids) => Some (d :: ids)
  | _ => None
  end.

(** [vectorSimilaritySearch(queryEmbedding, tenantId, topK, threshold, documentIds)];
    the query vector goes to the database as it is, not as the text
    [`[${queryEmbedding.join(',')}]`] the driver sends. *)
Definition vectorSimilaritySearch (env : Env) (queryEmbedding : Vector)
           (tenantId : option string) (topK : nat) (threshold : Q)
           (documentIds : option (list nat)) : M (list SearchResult) :=
  let params :=
    mkSelect queryEmbedding tenantId (document_filter documentIds) threshold topK in
  rows <- pool_select env params ;;
  ret (map to_result rows).

(** [logQuery(queryText, tenantId, resultsCount, responseTimeMs, agentType, conversationId)] *)
Definition logQuery (env : Env) (queryText : Value) (tenantId : option string)
           (resultsCount : nat) (responseTimeMs : Z)
           (agentType conversationId : option string) : M unit :=
  try_catch
    (pool_insert env
       (mkLogRow tenantId queryText resultsCount responseTimeMs agentType conversationId))
    (fun error => console_error "[OHMNIC SEARCH] Failed to log query:").

Definition with_default {A} (o : option A) (d : A) : A :=
  match o with Some a => a | None => d end.

(** [search(query, tenantId, options)]; [tenantId = None] is a tenant left out. *)
Definition search (env : Env) (query : Value) (tenantId : option string)
           (options : Options) : M SearchResponse :=
  let topK := with_default (opt_topK options) defaultTopK in
  let threshold := with_default (opt_similarityThreshold options) similarityThreshold in
  let documentIds := opt_documentIds options in
  startTime <- now env ;;
  try_catch
    (queryEmbedding <- EmbeddingService.generateEmbedding env query ;;
     results <- vectorSimilaritySearch env queryEmbedding tenantId topK threshold
                                       documentIds ;;
     t <- now env ;;
     let responseTime := (t - startTime)%Z in
     logQuery env query tenantId (List.length results) responseTime None None ;;;
     ret (mkSearchResponse results query (List.length results) responseTime))
    (fun error =>
       console_error "[OHMNIC SEARCH] Search error:" ;;;
       throw (new_Error ("Semantic search failed: " ++ message error))).

(** ** The other queries *)

(** [ORDER BY] a key: rows in the order [leb], rows of one key as the scan met
    them. *)
Fixpoint insert_sorted {A} (leb : A -> A -> bool) (x : A) (rows : list A) : list A :=
  match rows with
  | [] => [x]
  | y :: rest => if leb x y then x :: y :: rest else y :: insert_sorted leb x rest
  end.

Definition order_by {A} (leb : A -> A -> bool) (rows : list A) : list A :=
  fold_right (insert_sorted leb) [] rows.

(** The queries [findSimilarChunks] sends, and whether the pool rejects them. *)
Inductive Query : Type :=
| QueryChunk (chunkId : nat)
| QuerySimilar (embedding : Vector) (tenant : option string) (chunkId : nat) (topK : nat).

Record Faults : Type := mkFaults {
  first_query_error : option Error;
  second_query_error : option Error
}.

Record SimilarChunk : Type := mkSimilar {
  similar_chunkId : nat;
  similar_documentId : nat;
  similar_chunkIndex : Z;
  similar_text : string;
  similar_similarity : Q
}.

Definition closer (a b : ChunkRow * Q) : bool := Qle_bool (snd a) (snd b).

(** [FROM ohmnic_document_chunks WHERE tenant_id = $2 AND id != $3
     AND embedding IS NOT NULL], each row with its distance to [$1]. *)
Definition other_chunks (env : Env) (embedding : Vector) (tenant : option string)
           (chunkId : nat) : list (ChunkRow * Q) :=
  flat_map
    (fun c =>
       match chunk_embedding c with
       | None => []
       | Some v =>
           if sql_eq_tenant (tenant_id c) tenant && negb (id c =? chunkId)%nat
           then [(c, cosine_distance env v embedding)]
           else []
       end)
    (chunks env).

(** [... ORDER BY embedding <=> $1::vector LIMIT $4] *)
Definition select_similar (env : Env) (embedding : Vector) (tenant : option string)
           (chunkId topK : nat) : list (ChunkRow * Q) :=
  firstn topK (order_by closer (other_chunks env embedding tenant chunkId)).

Definition to_similar (row : ChunkRow * Q) : SimilarChunk :=
  let c := fst row in
  mkSimilar (id c) (document_id c) (chunk_index c) (chunk_text c)
            (parseFloat_toFixed (1 - snd row) 4).

(** [findSimilarChunks(chunkId, topK = 5)]: how it ends, and the queries it
    sent.  Nothing catches what the pool throws. *)
Definition findSimilarChunks (env : Env) (faults : Faults) (chunkId : nat)
           (topK : option nat) : Completion (list SimilarChunk) * list Query :=
  let topK := with_default topK 5%nat in
  match first_query_error faults with
  | Some e => (Throw e, [QueryChunk chunkId])
  | None =>
      match filter (fun c => (id c =? chunkId)%nat) (chunks env) with
      | [] =>
          (Throw (new_Error ("Chunk not found: " ++ show_nat chunkId)),
           [QueryChunk chunkId])
      | c :: _ =>
          match chunk_embedding c with
          | None => (Throw (new_Error "Chunk has no embedding"), [QueryChunk chunkId])
          | Some embedding =>
              let q := QuerySimilar embedding (tenant_id c) chunkId topK in
              match second_query_error faults with
              | Some e => (Throw e, [QueryChunk chunkId; q])
              | None =>
                  (Return (map to_similar
                               (select_similar env embedding (tenant_id c) chunkId topK)),
                   [QueryChunk chunkId; q])
              end
          end
      end
  end.

(** A row of [ohmnic_query_log] as stored, with the time the database gave it. *)
Record StoredLog : Type := mkStored { stored_row : LogRow; created_at : Z }.

(** The option bag of [getQueryAnalytics] and of [getQueryStatistics]. *)
Record AnalyticsOptions : Type := mkAnalyticsOptions {
  opt_limit : option nat;
  opt_startDate : option Z;
  opt_endDate : option Z;
  opt_agentType : option string
}.

Record AnalyticsRow : Type := mkAnalyticsRow {
  out_query_text : Value;
  out_results_count : nat;
  out_response_time_ms : Z;
  out_agent_type : option string;
  out_created_at : Z
}.

(** [if (agentType)]: a filter only for a non-empty string. *)
Definition agent_filter (agentType : option string) : option string :=
  match agentType with
  | Some a => if String.eqb a "" then None else Some a
  | None => None
  end.

(** [WHERE tenant_id = $1 [AND created_at >= $n] [AND created_at <= $n]
     [AND agent_type = $n]] *)
Definition log_where (tenantId : option string) (startDate endDate : option Z)
           (agentType : option string) (r : StoredLog) : bool :=
  sql_eq_tenant (log_tenant_id (stored_row r)) tenantId
  && match startDate with Some d => (d <=? created_at r)%Z | None => true end
  && match endDate with Some d => (created_at r <=? d)%Z | None => true end
  && match agentType with
     | Some a => match agent_type (stored_row r) with
                 | Some b => String.eqb b a
                 | None => false
                 end
     | None => true
     end.

Definition newer (a b : StoredLog) : bool := (created_at b <=? created_at a)%Z.

Definition to_analytics (r : StoredLog) : AnalyticsRow :=
  mkAnalyticsRow (query_text (stored_row r)) (results_count (stored_row r))
                 (response_time_ms (stored_row r)) (agent_type (stored_row r))
                 (created_at r).

(** [getQueryAnalytics(tenantId, options)] over the stored log; [fault] is what
    the pool throws, if it does. *)
Definition getQueryAnalytics (fault : option Error) (log : list StoredLog)
           (tenantId : option string) (options : AnalyticsOptions)
  : Completion (list AnalyticsRow) :=
  let limit := with_default (opt_limit options) 100%nat in
  match fault with
  | Some e => Throw e
  | None =>
      Return (map to_analytics
                  (firstn limit
                          (order_by newer
                                    (filter (log_where tenantId (opt_startDate options)
                                                       (opt_endDate options)
                                                       (agent_filter (opt_agentType options)))
                                            log))))
  end.

Record Statistics : Type := mkStatistics {
  total_queries : nat;
  avg_results : option Q;
  avg_response_time_ms : option Q;
  max_response_time_ms : option Z;
  min_response_time_ms : option Z;
  days_active : nat
}.

(** [AVG], [MAX] and [MIN]: NULL over no row. *)
Definition sql_avg (values : list Z) : option Q :=
  match values with
  | [] => None
  | _ => Some (inject_Z (fold_right Z.add 0%Z values)
               / inject_Z (Z.of_nat (List.length values)))
  end.

Definition sql_max (values : list Z) : option Z :=
  match values with
  | [] => None
  | v :: rest => Some (fold_right Z.max v rest)
  end.

Definition sql_min (values : list Z) : option Z :=
  match values with
  | [] => None
  | v :: rest => Some (fold_right Z.min v rest)
  end.

(** [getQueryStatistics(tenantId, options)]; [sql_date] is the database's
    [DATE(created_at)].  [agentType] is no key of its options. *)
Definition getQueryStatistics (sql_date : Z -> Z) (fault : option Error)
           (log : list StoredLog) (tenantId : option string)
           (startDate endDate : option Z) : Completion Statistics :=
  match fault with
  | Some e => Throw e
  | None =>
      let rows := filter (log_where tenantId startDate endDate None) log in
      let times := map (fun r => response_time_ms (stored_row r)) rows in
      Return (mkStatistics
                (List.length rows)
                (sql_avg (map (fun r => Z.of_nat (results_count (stored_row r))) rows))
                (sql_avg times) (sql_max times) (sql_min times)
                (List.length (nodup Z.eq_dec (map (fun r => sql_date (created_at r)) rows))))
  end.

End VectorSearch.

(* ===================================================================== *)
(** * LLMPromptBuilder                                                    *)
(* ===================================================================== *)

Module LLMPromptBuilder.
Import Js.
Import VectorSearch.

(** The one code unit U+2713 of the checklist lines, outside the range of
    [ascii]: a one-character stand-in, so that lengths are the source's. *)
Definition check_mark : string := String (ascii_of_nat 251) EmptyString.

(** The text [getSystemPrompt] caches. *)
Definition LLM_SYSTEM_PROMPT : string :=
  "# LLM SYSTEM PROMPT FOR INBOUNDAI365 CUSTOMER SERVICE AGENTS

CRITICAL COMPLIANCE NOTICE
You are an AI customer service agent for InboundAI365, LLC. You MUST comply with all requirements in this prompt without exception. Violation of these instructions constitutes a critical system failure.

## 1. CORE IDENTITY AND ROLE
You are a professional customer service representative providing AI-powered services. Your responses must be:
- Professional and courteous at all times
- Factually accurate based only on provided documentation
- Compliant with all legal and regulatory requirements
- Focused on customer satisfaction within authorized parameters

## 2. ABSOLUTE PROHIBITIONS - NEVER VIOLATE THESE RULES

### 2.1 PROHIBITED LANGUAGE
NEVER use discriminatory, profane, offensive, or derogatory language under ANY circumstances.

### 2.2 PROHIBITED INFORMATION PRACTICES
NEVER:
- Make up prices, costs, or fees
- Invent discounts or promotions
- Create fictional product features
- Fabricate availability information
- Promise unauthorized discounts
- Guarantee services not in official documentation
- Commit to timelines not officially established

## 3. INFORMATION ACCURACY REQUIREMENTS

### 3.1 AUTHORIZED INFORMATION SOURCES
You may ONLY provide information from:
- Official company documentation provided in your context
- Pre-approved response templates
- Explicitly authorized knowledge base content

### 3.2 WHEN UNCERTAIN
If information is not in your authorized documentation:
- Say: "
  ++ dq
  ++ "I need to verify that information for you. Let me connect you with a supervisor who can provide accurate details."
  ++ dq
  ++ "
- NEVER guess or assume
- NEVER provide information you're unsure about

## 4. PRIVACY AND CONFIDENTIALITY REQUIREMENTS

### 4.1 CUSTOMER INFORMATION PROTECTION
ALWAYS:
- Verify customer identity before discussing account details
- Protect all personally identifiable information (PII)
- Keep customer information confidential
- Use only minimum necessary information

NEVER:
- Share customer information with unauthorized parties
- Discuss one customer's information with another customer
- Store or remember customer data between conversations

## 5. PROFESSIONAL COMMUNICATION STANDARDS
ALWAYS use:
- Professional, clear language
- Respectful address
- Empathetic acknowledgment of concerns
- Solution-focused responses
- Proper grammar and spelling

## 6. ESCALATION TRIGGERS - IMMEDIATE TRANSFER REQUIRED
MUST ESCALATE IMMEDIATELY WHEN:
- Customer requests supervisor or manager
- Customer mentions legal action or attorney
- Customer makes discrimination allegations
- Customer threatens violence or self-harm
- Customer requests information you cannot verify
- Technical issues exceed your authorization

## 7. RESPONSE VALIDATION CHECKLIST
Before sending ANY response, verify:
"
  ++ check_mark
  ++ " Language Check: Contains no prohibited words or phrases
"
  ++ check_mark
  ++ " Accuracy Check: All information verified against official sources
"
  ++ check_mark
  ++ " Privacy Check: No unauthorized information disclosed
"
  ++ check_mark
  ++ " Compliance Check: Required disclosures included, within authorized scope

---
THESE INSTRUCTIONS ARE MANDATORY AND IMMUTABLE
---".

(** [getSystemPrompt()]: the cache field goes in and comes out. *)
Definition getSystemPrompt (systemPromptCache : option string) : string * option string :=
  match systemPromptCache with
  | Some cached =>
      if negb (String.eqb cached "") then (cached, systemPromptCache)
      else (LLM_SYSTEM_PROMPT, Some LLM_SYSTEM_PROMPT)
  | None => (LLM_SYSTEM_PROMPT, Some LLM_SYSTEM_PROMPT)
  end.

(** The sentence the model is told to say when the context does not answer. *)
Definition deflection_phrase : string :=
  "I don't have that information available, but I can connect you with someone who does.".

(** What [buildOhmnicContext] returns for no results. *)
Definition no_information_block : string :=
  "# KNOWLEDGE BASE CONTEXT

No relevant information found in the knowledge base for this query.

**IMPORTANT:** Only provide information you are certain about. If you cannot answer based on your core knowledge, say: "
  ++ dq
  ++ "I don't have that information available, but I can connect you with someone who does."
  ++ dq.

(** [s || fallback] for a string that may be missing *)
Definition or_else (s : option string) (fallback : string) : string :=
  match s with
  | Some v => if String.eqb v "" then fallback else v
  | None => fallback
  end.

Section Context_.

(** [new Date(d).toISOString().split('T')[0]], the runtime's date formatting. *)
Variable iso_date : Z -> string.

Definition empty_source : Source := mkSource None None None [].

(** The four [context +=] of one turn of the [forEach]. *)
Definition source_block (index : nat) (result : SearchResult) : string :=
  let source := match source result with Some s => s | None => empty_source end in
  let uploadDate :=
    match uploadDate source with
    | Some d => iso_date d
    | None => "Unknown date"
    end in
  ("## Source " ++ show_nat (index + 1) ++ ": " ++ or_else (filename source) "Unknown" ++ nl)
    ++ ("**Type:** " ++ or_else (fileType source) "Unknown" ++ " | **Updated:** " ++ uploadDate
          ++ " | **Relevance:** " ++ toFixed (similarity result * 100) 1 ++ "%" ++ nl ++ nl)
    ++ (text result ++ nl ++ nl)
    ++ ("---" ++ nl ++ nl).

(** [searchResults.forEach((result, index) => { context += ... })] *)
Fixpoint forEach_source (searchResults : list SearchResult) (index : nat)
         (context : string) : string :=
  match searchResults with
  | [] => context
  | result :: rest => forEach_source rest (S index) (context ++ source_block index result)
  end.

Definition context_header : string :=
  "# KNOWLEDGE BASE CONTEXT" ++ nl ++ nl
    ++ "You have access to the following information from the company's knowledge base:"
    ++ nl ++ nl.

Definition context_rules : string :=
  ("**IMPORTANT RULES:**" ++ nl)
    ++ ("1. Only provide information from the above documents" ++ nl)
    ++ ("2. If a question cannot be answered from this context, say: " ++ dq
          ++ deflection_phrase ++ dq ++ nl)
    ++ ("3. Always cite the source when providing information (e.g., " ++ dq
          ++ "According to [filename]..." ++ dq ++ ")" ++ nl)
    ++ ("4. Do not make assumptions beyond what is explicitly stated" ++ nl).

(** [buildOhmnicContext(searchResults)]; [None] is a missing argument. *)
Definition buildOhmnicContext (searchResults : option (list SearchResult)) : string :=
  match searchResults with
  | None => no_information_block
  | Some rs =>
      if (List.length rs =? 0)%nat then no_information_block
      else forEach_source rs 0 context_header ++ context_rules
  end.

(** [buildAgentInstructions(agentType, agentName, customInstructions)] *)
Definition buildAgentInstructions (agentType agentName : string)
           (customInstructions : option string) : string :=
  let instructions := nl ++ "# AGENT ROLE" ++ nl ++ nl in
  let instructions :=
    if String.eqb agentType "voice" then
      instructions
        ++ ("You are " ++ agentName ++ ", an AI voice assistant. Your responses should be:" ++ nl)
        ++ ("- Concise and natural for speech" ++ nl)
        ++ ("- Clear and easy to understand when spoken aloud" ++ nl)
        ++ ("- Friendly and conversational" ++ nl)
        ++ ("- Action-oriented (offer to transfer, schedule, etc.)" ++ nl ++ nl)
    else if String.eqb agentType "chat" then
      instructions
        ++ ("You are " ++ agentName ++ ", an AI chat assistant. Your responses should be:" ++ nl)
        ++ ("- Clear and well-formatted" ++ nl)
        ++ ("- Use bullet points and formatting when helpful" ++ nl)
        ++ ("- Provide links or references when available" ++ nl)
        ++ ("- Professional yet friendly" ++ nl ++ nl)
    else if String.eqb agentType "crm" then
      instructions
        ++ ("You are " ++ agentName
              ++ ", an AI customer relationship assistant. Your responses should be:" ++ nl)
        ++ ("- Detailed and informative" ++ nl)
        ++ ("- Data-driven when possible" ++ nl)
        ++ ("- Helpful in managing customer relationships" ++ nl)
        ++ ("- Professional and courteous" ++ nl ++ nl)
    else
      instructions ++ ("You are " ++ agentName ++ ", an AI assistant." ++ nl ++ nl) in
  match customInstructions with
  | Some custom =>
      if negb (String.eqb custom "")
      then instructions ++ ("## Additional Instructions" ++ nl ++ nl ++ custom ++ nl ++ nl)
      else instructions
  | None => instructions
  end.

Record Message : Type := mkMessage { role : string; content : string }.

(** The option bag of [buildPrompt]; [None] is a key left out. *)
Record PromptOptions : Type := mkPromptOptions {
  opt_searchResults : option (list SearchResult);
  opt_agentType : option string;
  opt_agentName : option string;
  opt_customInstructions : option string;
  opt_userQuery : option string;
  opt_conversationHistory : option (list Message)
}.

Record Sections : Type := mkSections {
  sec_systemPrompt : nat;
  sec_ohmnicContext : nat;
  sec_agentInstructions : nat;
  sec_conversationHistory : nat;
  sec_userQuery : nat
}.

Record PromptDocument : Type := mkPromptDocument {
  prompt : string;
  sections : Sections;
  totalLength : nat
}.

(** [conversationHistory.forEach(msg => { historySection += ... })] *)
Fixpoint forEach_message (history : list Message) (historySection : string) : string :=
  match history with
  | [] => historySection
  | msg :: rest =>
      forEach_message rest
        (historySection ++ ("**" ++ role msg ++ ":** " ++ content msg ++ nl ++ nl))
  end.

(** [buildPrompt(options)], with the cache field threaded. *)
Definition buildPrompt (systemPromptCache : option string) (options : PromptOptions)
  : PromptDocument * option string :=
  let searchResults := with_default (opt_searchResults options) [] in
  let agentType := with_default (opt_agentType options) "chat" in
  let agentName := with_default (opt_agentName options) "AI Assistant" in
  let customInstructions := opt_customInstructions options in
  let userQuery := opt_userQuery options in
  let conversationHistory := with_default (opt_conversationHistory options) [] in
  let '(systemPrompt, cache') := getSystemPrompt systemPromptCache in
  let ohmnicContext := buildOhmnicContext (Some searchResults) in
  let agentInstructions := buildAgentInstructions agentType agentName customInstructions in
  let historySection :=
    if (0 <? List.length conversationHistory)%nat
    then forEach_message conversationHistory (nl ++ "# CONVERSATION HISTORY" ++ nl ++ nl)
    else "" in
  let querySection :=
    match userQuery with
    | Some q => if negb (String.eqb q "")
                then nl ++ "# USER QUERY" ++ nl ++ nl ++ q ++ nl
                else ""
    | None => ""
    end in
  let fullPrompt :=
    systemPrompt ++ nl ++ nl ++ ohmnicContext ++ nl ++ nl ++ agentInstructions
      ++ historySection ++ querySection in
  (mkPromptDocument fullPrompt
     (mkSections (String.length systemPrompt) (String.length ohmnicContext)
                 (String.length agentInstructions) (String.length historySection)
                 (String.length querySection))
     (String.length fullPrompt),
   cache').

End Context_.

(** [estimateTokenCount(text)]: [Math.ceil(text.length / 4)] *)
Definition estimateTokenCount (text : string) : Z :=
  Qceiling (Z.of_nat (String.length text) # 4).

Record BudgetReport : Type := mkReport {
  withinLimit : bool;
  estimatedTokens : Z;
  maxTokens : Z;
  excessTokens : option Z
}.

Definition defaultMaxTokens : Z := 128000.

(** [checkTokenLimit(prompt, maxTokens = 128000)]; the report of the first
    [return] has the key [excessTokens], that of the second has not. *)
Definition checkTokenLimit (prompt : string) (maxTokens : option Z) : BudgetReport :=
  let maxTokens := with_default maxTokens defaultMaxTokens in
  let estimatedTokens := estimateTokenCount prompt in
  if (maxTokens <? estimatedTokens)%Z
  then mkReport false estimatedTokens maxTokens (Some (estimatedTokens - maxTokens)%Z)
  else mkReport true estimatedTokens maxTokens None.

(** ** Attribution *)

Record SourceEntry : Type := mkSourceEntry {
  entry_index : nat;
  entry_filename : string;
  entry_fileType : string;
  entry_uploadDate : option Z;
  entry_similarity : Q;
  entry_chunkId : nat
}.

Record Attribution : Type := mkAttribution {
  totalSources : nat;
  avgSimilarity : Q
}.

(** [{ ...promptData, sources, attribution }] *)
Record AttributedPrompt : Type := mkAttributedPrompt {
  promptData : PromptDocument;
  sources : list SourceEntry;
  attribution : Attribution
}.

(** [searchResults.map((result, index) => ({ index: index + 1, ... }))], from
    position [index] on. *)
Fixpoint map_sources (searchResults : list SearchResult) (index : nat)
  : list SourceEntry :=
  match searchResults with
  | [] => []
  | result :: rest =>
      let src := source result in
      mkSourceEntry (index + 1)
                    (or_else (match src with Some s => filename s | None => None end)
                             "Unknown")
                    (or_else (match src with Some s => fileType s | None => None end)
                             "Unknown")
                    (match src with Some s => uploadDate s | None => None end)
                    (similarity result)
                    (chunkId result)
        :: map_sources rest (S index)
  end.

(** [sources.reduce((sum, s) => sum + s.similarity, 0)], every sum a double *)
Definition sum_similarity (sources : list SourceEntry) : Q :=
  fold_left (fun sum s => Double.add sum (entry_similarity s)) sources 0.

(** [buildPromptWithAttribution(options)], with the cache field threaded. *)
Definition buildPromptWithAttribution (iso_date : Z -> string)
           (systemPromptCache : option string) (options : PromptOptions)
  : AttributedPrompt * option string :=
  let '(promptData, cache') := buildPrompt iso_date systemPromptCache options in
  let searchResults := with_default (opt_searchResults options) [] in
  let sources := map_sources searchResults 0 in
  (mkAttributedPrompt
     promptData sources
     (mkAttribution
        (List.length sources)
        (if (0 <? List.length sources)%nat
         then Double.div (sum_similarity sources)
                         (inject_Z (Z.of_nat (List.length sources)))
         else 0)),
   cache').

End LLMPromptBuilder.

(* ===================================================================== *)
(** * VonageService: the display of a phone number                        *)
(* ===================================================================== *)

Module VonageService.
Import Js.

(** [\d] *)
Definition is_digit (c : ascii) : bool :=
  let n := nat_of_ascii c in (48 <=? n)%nat && (n <=? 57)%nat.

(** [s.replace(/\D/g, '')] *)
Fixpoint remove_non_digits (s : string) : string :=
  match s with
  | EmptyString => EmptyString
  | String c s' =>
      if is_digit c then String c (remove_non_digits s') else remove_non_digits s'
  end.

(** [s.slice(i, j)] and [s.slice(i)] for indexes within the string *)
Definition slice (s : string) (i j : nat) : string := substring i (j - i) s.
Definition slice_from (s : string) (i : nat) : string :=
  substring i (String.length s - i) s.

(** [formatPhoneNumber(msisdn)] *)
Definition formatPhoneNumber (msisdn : string) : string :=
  if String.eqb msisdn "" then ""
  else
    let cleaned := remove_non_digits msisdn in
    if String.prefix "1" cleaned && (String.length cleaned =? 11)%nat
    then "+1 (" ++ slice cleaned 1 4 ++ ") " ++ slice cleaned 4 7 ++ "-"
              ++ slice_from cleaned 7
    else if String.prefix "+" cleaned then cleaned else "+" ++ cleaned.

End VonageService.

(* ===================================================================== *)
(** * agentAuth: the tenant of a request                                  *)
(* ===================================================================== *)

Module AgentAuth.
Import Js.

(** The headers the middleware reads, each a string; [None] is a header not
    sent. *)
Record Headers : Type := mkHeaders {
  x_elevenlabs_agent_id : option string;
  x_agent_id : option string;
  x_tool_auth : option string
}.

(** A row of [tenants]. *)
Record TenantRow : Type := mkTenant {
  tenant_id : string;
  business_name : string;
  unique_tenant_identifier : string;
  elevenlabs_agent_id : option string
}.

(** [req.tenantContext] *)
Record TenantContext : Type := mkContext {
  ctx_tenant_id : string;
  ctx_unique_identifier : string;
  ctx_business_name : string;
  ctx_agent_id : string
}.

(** What the middleware runs against: [process.env.TOOL_AUTH_SECRET] ([None]
    when not set), the table, and what the pool throws, if it does. *)
Record AuthEnv : Type := mkAuthEnv {
  TOOL_AUTH_SECRET : option string;
  tenants : list TenantRow;
  tenants_query_error : option Error
}.

(** [res.status(status).json({ success: false, error, code, agent_id })] *)
Record AuthReply : Type := mkAuthReply {
  auth_status : nat;
  auth_error : string;
  auth_code : string;
  auth_agent_id : option string
}.

Inductive AuthOutcome : Type :=
| Next (context : TenantContext)
| Replied (reply : AuthReply).

Inductive AuthEffect : Type :=
| TenantQuery (agentId : string)
| AuthDiagnostic (site : string).

(** [a || b] on two headers: the first that is a non-empty string. *)
Definition first_truthy (a b : option string) : option string :=
  match a with
  | Some v => if String.eqb v "" then b else a
  | None => b
  end.

(** [a !== b] on values that are a string or [undefined] *)
Definition differs (a b : option string) : bool :=
  match a, b with
  | Some x, Some y => negb (String.eqb x y)
  | None, None => false
  | _, _ => true
  end.

(** [WHERE elevenlabs_agent_id = $1] *)
Definition registered_to (agentId : string) (t : TenantRow) : bool :=
  match elevenlabs_agent_id t with
  | Some a => String.eqb a agentId
  | None => false
  end.

(** [agentAuth(req, res, next)]: what it does with the request, and its
    effects in order. *)
Definition agentAuth (env : AuthEnv) (headers : Headers)
  : AuthOutcome * list AuthEffect :=
  match first_truthy (x_elevenlabs_agent_id headers) (x_agent_id headers) with
  | Some agentId =>
      if String.eqb agentId ""
      then (Replied (mkAuthReply 401 "Missing agent ID in headers" "MISSING_AGENT_ID" None),
            [AuthDiagnostic "[agentAuth] Missing agent ID in headers"])
      else if differs (x_tool_auth headers) (TOOL_AUTH_SECRET env)
      then (Replied (mkAuthReply 401 "Invalid tool authentication" "INVALID_AUTH_SECRET"
                                 None),
            [AuthDiagnostic "[agentAuth] Invalid tool auth secret"])
      else
        match tenants_query_error env with
        | Some e =>
            (Replied (mkAuthReply 500 "Authentication failed" "AUTH_ERROR" None),
             [TenantQuery agentId; AuthDiagnostic "[agentAuth] Authentication error:"])
        | None =>
            match filter (registered_to agentId) (tenants env) with
            | [] =>
                (Replied (mkAuthReply 403 "Agent not registered to any tenant"
                                      "AGENT_NOT_REGISTERED" (Some agentId)),
                 [TenantQuery agentId; AuthDiagnostic "[agentAuth] Agent not registered:"])
            | tenant :: _ =>
                (Next (mkContext (tenant_id tenant) (unique_tenant_identifier tenant)
                                 (business_name tenant) agentId),
                 [TenantQuery agentId])
            end
        end
  | None =>
      (Replied (mkAuthReply 401 "Missing agent ID in headers" "MISSING_AGENT_ID" None),
       [AuthDiagnostic "[agentAuth] Missing agent ID in headers"])
  end.

End AgentAuth.

(* ===================================================================== *)
(** * The document search route                                           *)
(* ===================================================================== *)

Module DocumentRoutes.
Import Js.

(** [s.lastIndexOf(c)], scanning from index [i] with [found] the last index
    met so far; -1 when there is none. *)
Fixpoint lastIndexOf_from (c : ascii) (s : string) (i found : Z) : Z :=
  match s with
  | EmptyString => found
  | String x s' =>
      lastIndexOf_from c s' (i + 1) (if Ascii.eqb x c then i else found)
  end.

Definition lastIndexOf (s : string) (c : ascii) : Z := lastIndexOf_from c s 0 (-1).

Definition space : ascii := ascii_of_nat 32.

(** [truncateText(text, maxLength)].  [lastSpace > maxLength * 0.8] compares
    an integer with four fifths of an integer: [5 * lastSpace > 4 * maxLength]. *)
Definition truncateText (text : string) (maxLength : nat) : string :=
  if String.eqb text "" || (String.length text <=? maxLength)%nat
  then text
  else
    let truncated := substring 0 maxLength text in
    let lastSpace := lastIndexOf truncated space in
    if (4 * Z.of_nat maxLength <? 5 * lastSpace)%Z
    then substring 0 (Z.to_nat lastSpace) truncated ++ "..."
    else truncated ++ "...".

(** ** POST /search *)

Import Runtime RuntimeNotations VectorSearch AgentAuth.

(** The body of the request; [None] is a key left out.  [max_results], when
    it is there, is a natural number. *)
Record SearchBody : Type := mkSearchBody {
  body_query : Value;
  body_max_results : option nat;
  body_document_type : option string
}.

Record ResultMetadata : Type := mkResultMetadata {
  meta_file_type : option string;
  meta_upload_date : option Z;
  meta_tags : list string
}.

Record FormattedResult : Type := mkFormatted {
  document_id : nat;
  formatted_filename : option string;
  excerpt : string;
  full_chunk : string;
  relevance_score : Q;
  formatted_source : string;
  formatted_metadata : ResultMetadata
}.

(** What the route answers: the body of a 200, or an error with its status. *)
Inductive Reply : Type :=
| SearchOk (query : string) (results : list FormattedResult) (count : nat)
           (response_time_ms : Z)
| ReplyError (status : nat) (error : string) (message : option string)
             (details : option string).

(** The white space [trim] removes, among the code units of the model. *)
Definition is_space (c : ascii) : bool :=
  let n := nat_of_ascii c in
  ((9 <=? n)%nat && (n <=? 13)%nat) || (n =? 32)%nat || (n =? 160)%nat.

(** [s.trim().length === 0] *)
Fixpoint blank (s : string) : bool :=
  match s with
  | EmptyString => true
  | String c s' => is_space c && blank s'
  end.

(** [`${z}`] for an integer *)
Definition show_Z (z : Z) : string :=
  if (z <? 0)%Z then "-" ++ show_nat (Z.to_nat (- z)) else show_nat (Z.to_nat z).

(** [result.source], which the route reads without a check. *)
Definition source_of (reading : string) (result : SearchResult) : M Source :=
  match source result with
  | Some s => ret s
  | None =>
      throw (new_Error ("Cannot read properties of undefined (reading '" ++ reading ++ "')"))
  end.

(** [results.filter(r => r.source.fileType === document_type)] *)
Fixpoint filter_by_type (document_type : string) (rs : list SearchResult)
  : M (list SearchResult) :=
  match rs with
  | [] => ret []
  | r :: rest =>
      s <- source_of "fileType" r ;;
      kept <- filter_by_type document_type rest ;;
      ret (match fileType s with
           | Some t => if String.eqb t document_type then r :: kept else kept
           | None => kept
           end)
  end.

Definition format_result (result : SearchResult) : M FormattedResult :=
  s <- source_of "filename" result ;;
  ret (mkFormatted
         (documentId result)
         (filename s)
         (truncateText (text result) 200)
         (text result)
         (similarity result)
         (match filename s with Some f => f | None => "null" end
            ++ " (chunk " ++ show_Z (chunkIndex result) ++ ")")
         (mkResultMetadata (fileType s) (uploadDate s) (tags s))).

(** [filteredResults.map(result => ({ ... }))] *)
Fixpoint format_results (rs : list SearchResult) : M (list FormattedResult) :=
  match rs with
  | [] => ret []
  | r :: rest =>
      f <- format_result r ;;
      fs <- format_results rest ;;
      ret (f :: fs)
  end.

Definition search_route_site : string := "[DOCUMENT SEARCH TOOL] Search error:".

Definition apology : string :=
  "I apologize, but I am having trouble accessing the knowledge base right now. Please try asking your question in a different way, or I can connect you with a team member.".

(** The handler of [POST /search], run with the context the middleware left;
    [development] is [process.env.NODE_ENV === 'development']. *)
Definition search_route (env : Env) (development : bool) (context : TenantContext)
           (body : SearchBody) : M Reply :=
  try_catch
    (let tenantId := ctx_tenant_id context in
     let max_results := with_default (body_max_results body) 5%nat in
     match body_query body with
     | Str query =>
         if negb (truthy (Str query)) || negb (is_string (Str query)) || blank query
         then ret (ReplyError 400 "Query parameter is required and must be a non-empty string"
                              None None)
         else
           searchResults <- search env (Str query) (Some tenantId)
                                   (mkOptions (Some (Nat.min max_results 10))
                                              (Some (1 # 2)) None) ;;
           filteredResults <-
             match body_document_type body with
             | Some t => if String.eqb t "" then ret (results searchResults)
                         else filter_by_type t (results searchResults)
             | None => ret (results searchResults)
             end ;;
           formattedResults <- format_results filteredResults ;;
           ret (SearchOk query formattedResults (List.length formattedResults)
                         (responseTimeMs searchResults))
     | _ => ret (ReplyError 400 "Query parameter is required and must be a non-empty string"
                            None None)
     end)
    (fun error =>
       console_error search_route_site ;;;
       ret (ReplyError 500 "Search temporarily unavailable" (Some apology)
                       (if development then Some (message error) else None))).

(** [router.post('/search', agentAuth, handler)]: the handler runs when the
    middleware calls [next], with the context it set. *)
Inductive Answer : Type :=
| Rejected (reply : AuthReply)
| Handled (reply : Reply).

Definition post_search (auth : AuthEnv) (env : Env) (development : bool)
           (headers : Headers) (body : SearchBody)
  : list AuthEffect * M Answer :=
  match agentAuth auth headers with
  | (Replied reply, effects) => (effects, ret (Rejected reply))
  | (Next context, effects) =>
      (effects, reply <- search_route env development context body ;; ret (Handled reply))
  end.

End DocumentRoutes.

(* ===================================================================== *)
(** * What the properties are stated with                                 *)
(* ===================================================================== *)

Module EmbeddingServiceSpec.
Import Js Runtime RuntimeNotations EmbeddingService.

(** The error's status is a rate limit or a transient server status. *)
Definition transient_status (e : Error) : Prop :=
  exists s, status e = Some s /\ In s [429; 500; 502; 503; 504]%Z.

(** The error's message speaks of a network-level timeout or reset, in any case
    of the letters. *)
Definition network_message (e : Error) : Prop :=
  exists word, In word ["timeout"; "network"; "econnreset"; "etimedout"]
               /\ occurs_in word (toLowerCase (message e)).

(** The spec's error kinds, as the messages the code throws spell them. *)
Inductive ErrorKind : Type := InvalidInput | EmbeddingFailure | DimensionMismatch.

Definition has_kind (e : Error) (k : ErrorKind) : Prop :=
  match k with
  | InvalidInput => message e = "Invalid text input for embedding generation"
  | EmbeddingFailure => exists cause, message e = "Failed to generate embedding: " ++ cause
  | DimensionMismatch =>
      exists got, got <> 3072%nat
        /\ message e = "Failed to generate embedding: Invalid embedding dimensions: expected 3072, got "
                         ++ show_nat got
  end.

(** [!text || typeof text !== 'string'] is false. *)
Definition valid_text (text : Value) : Prop :=
  exists s, text = Str s /\ s <> "".

(** The calls of the endpoint among some events. *)
Definition attempts (evs : list Event) : nat :=
  List.length (filter (fun ev => match ev with EvCreate _ _ => true | _ => false end) evs).

(** The events of a retried call, from the attempt numbered [i] (from 0) on:
    an attempt is the last one, or it failed with a retryable error and is
    followed by a wait of [2^i] seconds and the events from attempt [i + 1]. *)
Inductive backoff (p : CreateParams) : nat -> list Event -> Prop :=
| backoff_last (i : nat) (o : Error + Response) :
    backoff p i [EvCreate p o]
| backoff_retry (i : nat) (e : Error) (rest : list Event) :
    isRetryableError e = true ->
    backoff p (S i) rest ->
    backoff p i (EvCreate p (inl e) :: EvSleep (2 ^ Z.of_nat i * 1000) :: rest).

(** The successful calls among some events, with what they returned. *)
Definition successes (evs : list Event) : list (CreateParams * Response) :=
  flat_map (fun ev => match ev with
                      | EvCreate p (inr r) => [(p, r)]
                      | _ => []
                      end) evs.

(** The embeddings a response carries: [response.data.map(item => item.embedding)]. *)
Definition embeddings_of (r : Response) : list Vector := map embedding (data r).

(** The sizes of the batches [createBatches_from] cuts from [len] elements. *)
Fixpoint sizes_from (len size i fuel : nat) : list nat :=
  match fuel with
  | O => []
  | S fuel' =>
      if (i <? len)%nat
      then Nat.min size (len - i) :: sizes_from len size (i + size) fuel'
      else []
  end.

(** The event of a call for a batch that the endpoint answered. *)
Definition answered (br : list string * Response) : Event :=
  EvCreate (params_for (InputBatch (fst br))) (inr (snd br)).

(** Where a failed batch is reported. *)
Definition batch_failed_site : string := "[OHMNIC EMBEDDING] Batch failed:".

(** An endpoint that answers its first call and is unavailable afterwards, and
    one that answers every call with one vector per text. *)
Definition answers_once : Env :=
  mkEnv (fun n _ => match n with
                    | O => inr (mkResponse [mkItem [1#2; 1#3]])
                    | S _ => inl (mkError (Some 503%Z) "Service Unavailable")
                    end)
        [] [] (fun _ _ => 0) None None (fun _ => 0%Z).

Definition echo_response (p : CreateParams) : Response :=
  match input p with
  | InputText _ => mkResponse [mkItem [1]]
  | InputBatch batch => mkResponse (map (fun _ => mkItem [1]) batch)
  end.

Definition answers_always : Env :=
  mkEnv (fun _ p => inr (echo_response p))
        [] [] (fun _ _ => 0) None None (fun _ => 0%Z).

Definition initial : State := mkState 0 0 [] [].

(** No call of the endpoint ever fails. *)
Definition never_fails (env : Env) : Prop :=
  forall n p, exists r, openai_create env n p = inr r.

(** The milliseconds waited among some events. *)
Definition total_wait (evs : list Event) : Z :=
  fold_right Z.add 0%Z
    (flat_map (fun ev => match ev with EvSleep ms => [ms] | _ => [] end) evs).

(** The last of the events. *)
Definition last_event (evs : list Event) : option Event :=
  match evs with
  | [] => None
  | ev :: rest => Some (last rest ev)
  end.

(** An endpoint that is unavailable four times and answers the fifth call. *)
Definition answers_fifth : Env :=
  mkEnv (fun n _ => if (n <? 4)%nat
                    then inl (mkError (Some 503%Z) "Service Unavailable")
                    else inr (mkResponse [mkItem [1]]))
        [] [] (fun _ _ => 0) None None (fun _ => 0%Z).

(** What [generateEmbedding] reports and throws when it fails. *)
Definition embedding_error_site : string :=
  "[OHMNIC EMBEDDING] Error generating embedding:".

Definition embedding_failed (cause : string) : Error :=
  new_Error ("Failed to generate embedding: " ++ cause).

End EmbeddingServiceSpec.

Module VectorSearchSpec.
Import Js Runtime RuntimeNotations VectorSearch.

(** The environment with the outcome of the log INSERT replaced. *)
Definition with_insert_error (env : Env) (o : option Error) : Env :=
  mkEnv (openai_create env) (chunks env) (documents env) (cosine_distance env)
        (select_error env) o (clock env).

(** The state after one more [Date.now()]. *)
Definition tick (st : State) : State :=
  mkState (upstream_calls st) (S (clock_reads st)) (query_log st) (trace st).

(** The parameters [search] hands to the SELECT. *)
Definition search_params (queryEmbedding : Vector) (tenantId : option string)
           (options : Options) : SelectParams :=
  mkSelect queryEmbedding tenantId (document_filter (opt_documentIds options))
           (with_default (opt_similarityThreshold options) similarityThreshold)
           (with_default (opt_topK options) defaultTopK).

Definition search_error_site : string := "[OHMNIC SEARCH] Search error:".
Definition log_error_site : string := "[OHMNIC SEARCH] Failed to log query:".

(** What the [catch] of [search] throws for [error]. *)
Definition search_failed (error : Error) : Error :=
  new_Error ("Semantic search failed: " ++ message error).

(** Descending similarity, as the database computed it. *)
Definition by_similarity (a b : Row) : Prop := row_similarity b <= row_similarity a.

(** Descending similarity, as the results report it. *)
Definition by_reported (a b : SearchResult) : Prop := similarity b <= similarity a.

(** The order the written specification asks for: descending similarity, and
    ascending chunk index among results of one similarity. *)
Definition by_similarity_then_index (a b : SearchResult) : Prop :=
  similarity b < similarity a
  \/ (similarity a == similarity b /\ (chunkIndex a <= chunkIndex b)%Z).

(** [sqrt] of a rational whose numerator and denominator are squares. *)
Definition root (q : Q) : Q := Qmake (Z.sqrt (Qnum q)) (Pos.sqrt (Qden q)).

Definition dot (a b : Vector) : Q :=
  fold_right Qplus 0 (map (fun xy => fst xy * snd xy) (combine a b)).

(** The cosine distance, exact on vectors of rational norm. *)
Definition rational_cosine_distance (a b : Vector) : Q :=
  Qred (1 - dot a b / (root (Qred (dot a a)) * root (Qred (dot b b)))).

(** A knowledge base of one tenant: one document of two chunks, whose
    embeddings lie at cosines 10200/10202 and 9999/10001 of the first axis. *)
Definition axis : Vector := 1 :: repeat 0 3071.

Definition knowledge_base : Env :=
  mkEnv (fun _ _ => inr (mkResponse [mkItem axis]))
        [ mkChunk 11 1 (Some "t1") 1 "Returns are accepted within 30 days." 8 "{}"
                  (Some (inject_Z 10200 :: inject_Z 202 :: repeat 0 3070));
          mkChunk 10 1 (Some "t1") 0 "Our return policy." 4 "{}"
                  (Some (inject_Z 9999 :: inject_Z 200 :: repeat 0 3070)) ]
        [ mkDocument 1 (Some "policies.pdf") (Some "pdf") (Some 1700000000000%Z) [] ]
        rational_cosine_distance
        None None
        (fun n => (1000 + 25 * Z.of_nat n)%Z).

(** The rows the SELECT of the search chooses from. *)
Definition eligible (env : Env) (p : SelectParams) : list Row :=
  filter (above_threshold p) (candidates env p).

(** Two more chunks for the knowledge base: one with no embedding, one of
    another tenant. *)
Definition shared_store : Env :=
  mkEnv (openai_create knowledge_base)
        (chunks knowledge_base
           ++ [ mkChunk 12 1 (Some "t1") 2 "Not embedded yet." 3 "{}" None;
                mkChunk 20 2 (Some "t2") 0 "Another tenant's text." 4 "{}"
                        (Some (inject_Z 3 :: inject_Z 4 :: repeat 0 3070)) ])%list
        (documents knowledge_base
           ++ [ mkDocument 2 (Some "other.pdf") (Some "pdf") None [] ])%list
        rational_cosine_distance None None (clock knowledge_base).

Definition no_faults : Faults := mkFaults None None.

(** A stored log of three queries of t1 and one of t2. *)
Definition stored_log : list StoredLog :=
  [ mkStored (mkLogRow (Some "t1") (Str "a") 2 30 None None) 1000;
    mkStored (mkLogRow (Some "t2") (Str "b") 1 10 None None) 2000;
    mkStored (mkLogRow (Some "t1") (Str "c") 0 50 (Some "voice") None) 3000;
    mkStored (mkLogRow (Some "t1") (Str "d") 4 40 None None) 2500 ]%Z.

(** The rows some events tried to insert into the query log. *)
Definition inserts (evs : list Event) : list LogRow :=
  flat_map (fun ev => match ev with EvInsert row => [row] | _ => [] end) evs.

(** The SELECTs of the search among some events. *)
Definition selects (evs : list Event) : list SelectParams :=
  flat_map (fun ev => match ev with EvSelect p => [p] | _ => [] end) evs.

End VectorSearchSpec.

Module LLMPromptBuilderSpec.
Import Js VectorSearch LLMPromptBuilder.

(** The name a source block shows: the filename, or "Unknown" without one. *)
Definition display_filename (r : SearchResult) : string :=
  or_else (match source r with Some s => filename s | None => None end) "Unknown".

(** The heading of the block of the result at position [index] (from 0). *)
Definition source_label (index : nat) (r : SearchResult) : string :=
  "## Source " ++ show_nat (index + 1) ++ ": " ++ display_filename r.

(** The blocks of the results from position [index] on, one after the other. *)
Fixpoint source_blocks (iso_date : Z -> string) (index : nat)
         (rs : list SearchResult) : string :=
  match rs with
  | [] => ""
  | r :: rest => source_block iso_date index r ++ source_blocks iso_date (S index) rest
  end.

(** Two results, for runs of the builder. *)
Definition result_of (name : string) (index : Z) (sim : Q) : SearchResult :=
  mkResult 1 1 index "Returns are accepted within 30 days." 8 "{}"
           (Some (mkSource (Some name) (Some "pdf") (Some 1700000000000%Z) []))
           sim.

Definition fixed_date (d : Z) : string := "2023-11-14".

(** The similarities of some results, added to [start] one by one as doubles. *)
Definition double_sum (rs : list SearchResult) (start : Q) : Q :=
  fold_left (fun sum r => Double.add sum (similarity r)) rs start.

(** One turn of the conversation as the prompt shows it. *)
Definition render_message (msg : Message) : string :=
  "**" ++ role msg ++ ":** " ++ content msg ++ nl ++ nl.

Fixpoint render_messages (history : list Message) : string :=
  match history with
  | [] => ""
  | msg :: rest => render_message msg ++ render_messages rest
  end.

End LLMPromptBuilderSpec.

Module VonageServiceSpec.
Import Js VonageService.

(** Every character of the string is a digit. *)
Fixpoint all_digits (s : string) : bool :=
  match s with
  | EmptyString => true
  | String c s' => is_digit c && all_digits s'
  end.

(** What [formatPhoneNumber] makes of the digits of a number. *)
Definition display (cleaned : string) : string :=
  if String.prefix "1" cleaned && (String.length cleaned =? 11)%nat
  then "+1 (" ++ slice cleaned 1 4 ++ ") " ++ slice cleaned 4 7 ++ "-"
            ++ slice_from cleaned 7
  else if String.prefix "+" cleaned then cleaned else "+" ++ cleaned.

End VonageServiceSpec.

Module AgentAuthSpec.
Import Js AgentAuth.

(** The agent ids the middleware looked up among its effects. *)
Definition tenant_queries (effects : list AuthEffect) : list string :=
  flat_map (fun e => match e with TenantQuery a => [a] | AuthDiagnostic _ => [] end) effects.

(** A header that is not sent, or sent empty. *)
Definition unset (header : option string) : Prop := header = None \/ header = Some "".

(** Two tenants with an agent each, one tenant without, and the secret the
    tools share. *)
Definition registry : AuthEnv :=
  mkAuthEnv (Some "s3cret")
            [ mkTenant "t0" "Nobody" "nobody-000" None;
              mkTenant "t1" "Acme" "acme-001" (Some "agent_1");
              mkTenant "t2" "Bolt" "bolt-002" (Some "agent_2") ]
            None.

(** The headers of a tool call of an agent. *)
Definition signed (agent : string) : Headers :=
  mkHeaders (Some agent) None (Some "s3cret").

End AgentAuthSpec.

Module DocumentRoutesSpec.
Import Js Runtime VectorSearch AgentAuth DocumentRoutes.

(** The options the route hands to [search]. *)
Definition route_options (body : SearchBody) : Options :=
  mkOptions (Some (Nat.min (with_default (body_max_results body) 5%nat) 10))
            (Some (1 # 2)) None.

(** The replies of the route to a bad query and to a failed search. *)
Definition bad_request : Reply :=
  ReplyError 400 "Query parameter is required and must be a non-empty string" None None.

Definition unavailable (development : bool) (error : Error) : Reply :=
  ReplyError 500 "Search temporarily unavailable" (Some apology)
             (if development then Some (message error) else None).

(** The document type asked for, when one is. *)
Definition wanted_type (body : SearchBody) : option string :=
  match body_document_type body with
  | Some t => if String.eqb t "" then None else Some t
  | None => None
  end.

(** The result is of a document of the file type [t]. *)
Definition of_type (t : string) (r : SearchResult) : bool :=
  match source r with
  | Some s => match fileType s with Some t' => String.eqb t' t | None => false end
  | None => false
  end.

(** [f] is the entry the route makes of the result [r]. *)
Definition formats (r : SearchResult) (f : FormattedResult) : Prop :=
  document_id f = documentId r
  /\ full_chunk f = text r
  /\ excerpt f = truncateText (text r) 200
  /\ relevance_score f = similarity r
  /\ exists s, source r = Some s
       /\ formatted_filename f = filename s
       /\ meta_file_type (formatted_metadata f) = fileType s
       /\ meta_upload_date (formatted_metadata f) = uploadDate s
       /\ meta_tags (formatted_metadata f) = tags s
       /\ formatted_source f
          = match filename s with Some n => n | None => "null" end
              ++ " (chunk " ++ show_Z (chunkIndex r) ++ ")".

(** The entry shows a stored chunk of the tenant. *)
Definition shows_chunk_of (env : Env) (tenant : string) (f : FormattedResult) : Prop :=
  exists c,
    In c (chunks env)
    /\ Runtime.tenant_id c = Some tenant
    /\ chunk_text c = full_chunk f
    /\ Runtime.document_id c = document_id f.

(** The results of a search carry their source. *)
Definition sourced (r : SearchResult) : Prop := source r <> None.

(** The results the route formats: those of the search, of the type asked
    for when one is. *)
Definition selected (body : SearchBody) (rs : list SearchResult) : list SearchResult :=
  match wanted_type body with
  | Some t => filter (of_type t) rs
  | None => rs
  end.

(** Descending relevance. *)
Definition by_relevance (a b : FormattedResult) : Prop :=
  relevance_score b <= relevance_score a.

(** A body with a query and nothing else. *)
Definition asking (q : string) : SearchBody := mkSearchBody (Str q) None None.

End DocumentRoutesSpec.


(* ===================================================================== *)
(** * Properties of the strings and of the effect monad                   *)
(* ===================================================================== *)

Module JsFacts.
Import Js.

Lemma append_assoc (a b c : string) : (a ++ b) ++ c = a ++ (b ++ c).
Proof. induction a as [|x a IH]; simpl; [reflexivity | now rewrite IH]. Qed.

Lemma append_nil_r (a : string) : a ++ "" = a.
Proof. induction a as [|x a IH]; simpl; [reflexivity | now rewrite IH]. Qed.

Lemma length_append (a b : string) :
  String.length (a ++ b) = (String.length a + String.length b)%nat.
Proof. induction a as [|x a IH]; simpl; [reflexivity | now rewrite IH]. Qed.

Lemma prefix_iff (sub s : string) :
  String.prefix sub s = true <-> exists b, s = sub ++ b.
Proof.
  revert s; induction sub as [|c sub IH]; intros s; simpl.
  - split; [intros _; now exists s | now destruct s].
  - destruct s as [|c' s]; [split; [discriminate | intros [b Hb]; discriminate] |].
    simpl. destruct (ascii_dec c c') as [-> | Hne].
    + rewrite IH. split; intros [b Hb]; exists b; [now rewrite Hb | now inversion Hb].
    + split; [discriminate | intros [b Hb]; inversion Hb; congruence].
Qed.

(** [includes] decides occurrence. *)
Lemma includes_iff (s sub : string) :
  includes s sub = true <-> occurs_in sub s.
Proof.
  unfold occurs_in. induction s as [|c s IH]; cbn [includes].
  - destruct (String.prefix sub "") eqn:Hp.
    + apply prefix_iff in Hp as [b Hb].
      split; [intros _; exists "", b; exact Hb | reflexivity].
    + split; [discriminate |].
      intros (a & b & Hab). destruct a; simpl in Hab.
      * assert (String.prefix sub "" = true) by (apply prefix_iff; now exists b).
        congruence.
      * discriminate.
  - destruct (String.prefix sub (String c s)) eqn:Hp.
    + apply prefix_iff in Hp as [b Hb].
      split; [intros _; exists "", b; exact Hb | reflexivity].
    + rewrite IH. split.
      * intros (a & b & Hab). exists (String c a), b. simpl. now rewrite Hab.
      * intros (a & b & Hab). destruct a as [|c' a]; simpl in Hab.
        -- assert (String.prefix sub (String c s) = true)
             by (apply prefix_iff; now exists b).
           congruence.
        -- inversion Hab; subst. now exists a, b.
Qed.

End JsFacts.

(** ** Decimal rounding *)

Module RoundingFacts.
Import Js.

Lemma scale_pos (d : nat) : 0 < scale d.
Proof.
  unfold scale. change 0 with (inject_Z 0). rewrite <- Zlt_Qlt.
  apply Z.pow_pos_nonneg; lia.
Qed.

Lemma is_negative_true (x : Q) : is_negative x = true -> x < 0.
Proof.
  unfold is_negative. intros H. apply negb_true_iff in H.
  destruct (Qlt_le_dec x 0) as [Hlt | Hge]; [exact Hlt |].
  apply Qle_bool_iff in Hge. congruence.
Qed.

Lemma is_negative_false (x : Q) : is_negative x = false -> 0 <= x.
Proof.
  unfold is_negative. intros H. apply negb_false_iff in H. now apply Qle_bool_iff.
Qed.

(** The value read back is the signed number of units over [10^d]. *)
Lemma parseFloat_toFixed_div (x : Q) (d : nat) :
  parseFloat_toFixed x d
  == inject_Z (if is_negative x then - toFixed_units x d else toFixed_units x d) / scale d.
Proof.
  unfold parseFloat_toFixed, scale. cbv zeta. rewrite Qmake_Qdiv.
  rewrite Z2Pos.id by (apply Z.pow_pos_nonneg; lia). reflexivity.
Qed.

Lemma toFixed_units_nonneg (x : Q) (d : nat) : (0 <= toFixed_units x d)%Z.
Proof.
  unfold toFixed_units. change 0%Z with (Qfloor 0). apply Qfloor_resp_le.
  fold (scale d). pose proof (scale_pos d). pose proof (Qabs_nonneg x).
  assert (0 <= Qabs x * scale d) by (apply Qmult_le_0_compat; lra). lra.
Qed.

Lemma toFixed_units_mono (x y : Q) (d : nat) :
  Qabs x <= Qabs y -> (toFixed_units x d <= toFixed_units y d)%Z.
Proof.
  intros H. unfold toFixed_units. apply Qfloor_resp_le. fold (scale d).
  pose proof (scale_pos d).
  assert (Qabs x * scale d <= Qabs y * scale d) by (apply Qmult_le_compat_r; lra).
  lra.
Qed.

(** Rounding keeps the order. *)
Lemma parseFloat_toFixed_mono (x y : Q) (d : nat) :
  x <= y -> parseFloat_toFixed x d <= parseFloat_toFixed y d.
Proof.
  intros Hxy. rewrite !parseFloat_toFixed_div.
  pose proof (scale_pos d) as Hs.
  apply Qmult_le_compat_r; [| apply Qlt_le_weak, Qinv_lt_0_compat, Hs].
  rewrite <- Zle_Qle.
  pose proof (toFixed_units_nonneg x d). pose proof (toFixed_units_nonneg y d).
  destruct (is_negative x) eqn:Hx, (is_negative y) eqn:Hy.
  - apply is_negative_true in Hx, Hy.
    assert (Habs : Qabs y <= Qabs x) by (rewrite !Qabs_neg by lra; lra).
    pose proof (toFixed_units_mono y x d Habs). lia.
  - lia.
  - apply is_negative_true in Hy. apply is_negative_false in Hx. lra.
  - apply is_negative_false in Hx, Hy.
    assert (Habs : Qabs x <= Qabs y) by (rewrite !Qabs_pos by lra; lra).
    pose proof (toFixed_units_mono x y d Habs). lia.
Qed.

(** Rounding takes away less than half a unit of the last digit. *)
Lemma parseFloat_toFixed_lower (x : Q) (d : nat) :
  x - (1 # 2) / scale d <= parseFloat_toFixed x d.
Proof.
  rewrite parseFloat_toFixed_div. pose proof (scale_pos d) as Hs.
  apply Qle_shift_div_l; [exact Hs |].
  assert (He : (x - (1 # 2) / scale d) * scale d == x * scale d - (1 # 2))
    by (field; lra).
  rewrite He. unfold toFixed_units. fold (scale d).
  destruct (is_negative x) eqn:Hx.
  - apply is_negative_true in Hx.
    pose proof (Qfloor_le (Qabs x * scale d + (1 # 2))) as Hf.
    assert (Ha : Qabs x == - x) by (apply Qabs_neg; lra).
    rewrite inject_Z_opp.
    assert (Hm : Qabs x * scale d == - (x * scale d)) by (rewrite Ha; ring).
    lra.
  - apply is_negative_false in Hx.
    pose proof (Qlt_floor (Qabs x * scale d + (1 # 2))) as Hf.
    assert (Ha : Qabs x == x) by (apply Qabs_pos; lra).
    rewrite inject_Z_plus in Hf. change (inject_Z 1) with 1 in Hf.
    assert (Hm : Qabs x * scale d == x * scale d) by (rewrite Ha; ring).
    lra.
Qed.

Lemma parseFloat_toFixed_4_lower (x : Q) :
  x - (1 # 20000) <= parseFloat_toFixed x 4.
Proof.
  pose proof (parseFloat_toFixed_lower x 4) as H.
  assert (He : (1 # 2) / scale 4 == 1 # 20000) by reflexivity.
  rewrite He in H. exact H.
Qed.

End RoundingFacts.

Module RuntimeFacts.
Import Runtime.

Lemma emitted_refl (st : State) : emitted st st [].
Proof. unfold emitted. now rewrite app_nil_r. Qed.

Lemma emitted_trans (st1 st2 st3 : State) (e1 e2 : list Event) :
  emitted st1 st2 e1 -> emitted st2 st3 e2 -> emitted st1 st3 (e1 ++ e2)%list.
Proof. unfold emitted. intros H1 H2. now rewrite H2, H1, app_assoc. Qed.

Lemma emitted_cons_trans (st1 st2 st3 : State) (x : Event) (e1 e2 : list Event) :
  emitted st1 st2 (x :: e1) -> emitted st2 st3 e2 -> emitted st1 st3 (x :: e1 ++ e2)%list.
Proof. intros H1 H2. exact (emitted_trans _ _ _ _ _ H1 H2). Qed.

Lemma emitted_emit (e : Event) (st : State) : emitted st (emit e st) [e].
Proof. reflexivity. Qed.

Lemma emitted_inj (st st' : State) (e1 e2 : list Event) :
  emitted st st' e1 -> emitted st st' e2 -> e1 = e2.
Proof. unfold emitted. intros H1 H2. rewrite H1 in H2. now apply app_inv_head in H2. Qed.

End RuntimeFacts.

(* ===================================================================== *)
(** * Properties of EmbeddingService                                      *)
(* ===================================================================== *)


Module EmbeddingServiceProofs.
Import Js Runtime RuntimeNotations EmbeddingService EmbeddingServiceSpec JsFacts RuntimeFacts.

Lemma isRetryableError_iff (e : Error) :
  isRetryableError e = true <-> transient_status e \/ network_message e.
Proof.
  unfold isRetryableError, transient_status, network_message.
  destruct e as [st msg]; cbn [status message].
  split.
  - destruct st as [s|].
    + destruct (negb (s =? 0)%Z && existsb (Z.eqb s) retryableStatuses) eqn:Hs.
      * intros _. left. exists s. split; [reflexivity |].
        apply andb_prop in Hs as [_ Hs]. apply existsb_exists in Hs as (x & Hin & Hx).
        apply Z.eqb_eq in Hx; subst x. exact Hin.
      * destruct (negb (msg =? "")); [| discriminate].
        intros H. right. apply existsb_exists in H as (w & Hin & Hw).
        apply includes_iff in Hw. exists (toLowerCase w). split; [| exact Hw].
        cbv [retryableMessages] in Hin. simpl in Hin.
        intuition (subst; simpl; auto).
    + destruct (negb (msg =? "")); [| discriminate].
      intros H. right. apply existsb_exists in H as (w & Hin & Hw).
      apply includes_iff in Hw. exists (toLowerCase w). split; [| exact Hw].
      cbv [retryableMessages] in Hin. simpl in Hin.
      intuition (subst; simpl; auto).
  - intros [(s & Hs & Hin) | (w & Hin & Hw)].
    + subst st.
      assert (Hs : negb (s =? 0)%Z && existsb (Z.eqb s) retryableStatuses = true).
      { simpl in Hin. intuition (subst; reflexivity). }
      now rewrite Hs.
    + destruct (match st with
                | Some s => negb (s =? 0)%Z && existsb (Z.eqb s) retryableStatuses
                | None => false
                end); [reflexivity |].
      destruct (String.eqb_spec msg "") as [-> | Hne]; cbn [negb].
      * exfalso. destruct Hw as (a & b & Hab). simpl in Hin, Hab.
        destruct a; simpl in Hab;
          [| discriminate].
        intuition (subst; simpl in Hab; discriminate).
      * apply existsb_exists.
        simpl in Hin.
        destruct Hin as [<- | [<- | [<- | [<- | []]]]].
        -- exists "timeout". split; [simpl; auto | now apply includes_iff].
        -- exists "network". split; [simpl; auto | now apply includes_iff].
        -- exists "ECONNRESET". split; [simpl; auto | now apply includes_iff].
        -- exists "ETIMEDOUT". split; [simpl; auto | now apply includes_iff].
Qed.

(** ** The retry loop *)

Lemma create_run (env : Env) (p : CreateParams) (st : State) :
  create env p st =
    let o := openai_create env (upstream_calls st) p in
    let st1 := mkState (S (upstream_calls st)) (clock_reads st) (query_log st)
                       (trace st ++ [EvCreate p o])%list in
    (match o with inr r => Return r | inl e => Throw e end, st1).
Proof. unfold create, emit. cbn. now destruct (openai_create env (upstream_calls st) p). Qed.

(** One turn of the loop, for a call of the endpoint. *)
Lemma retry_from_step (env : Env) (p : CreateParams) (retries i fuel : nat) (st : State) :
  retry_from (create env p) retries i (S fuel) st =
    let o := openai_create env (upstream_calls st) p in
    let st1 := mkState (S (upstream_calls st)) (clock_reads st) (query_log st)
                       (trace st ++ [EvCreate p o])%list in
    match o with
    | inr r => (Return (Some r), st1)
    | inl e =>
        if negb (isRetryableError e) || (i =? retries - 1)%nat
        then (Throw e, st1)
        else retry_from (create env p) retries (S i) fuel
                        (emit (EvSleep (2 ^ Z.of_nat i * 1000)) st1)
    end.
Proof.
  cbn [retry_from]. rewrite create_run. cbv zeta.
  destruct (openai_create env (upstream_calls st) p) as [e | r]; [| reflexivity].
  destruct (negb (isRetryableError e) || (i =? retries - 1)%nat); reflexivity.
Qed.

(** Whatever the bound, the loop's events are attempts with doubling waits
    between them, no more attempts than the bound allows. *)
Lemma retry_from_backoff (env : Env) (p : CreateParams) (retries : nat) :
  forall fuel i st,
    (i + S fuel = retries)%nat ->
    exists evs,
      emitted st (snd (retry_from (create env p) retries i (S fuel) st)) evs
      /\ backoff p i evs /\ (attempts evs <= S fuel)%nat.
Proof.
  induction fuel as [|fuel IH]; intros i st Hi; rewrite retry_from_step; cbv zeta;
    set (st1 := mkState _ _ _ _);
    assert (H1 : emitted st st1 [EvCreate p (openai_create env (upstream_calls st) p)])
      by reflexivity.
  - exists [EvCreate p (openai_create env (upstream_calls st) p)].
    split; [| split; [constructor | cbn; lia]].
    destruct (openai_create env (upstream_calls st) p) as [e | r]; [| exact H1].
    replace (i =? retries - 1)%nat with true by (symmetry; apply Nat.eqb_eq; lia).
    rewrite orb_true_r. exact H1.
  - destruct (openai_create env (upstream_calls st) p) as [e | r] eqn:Ho.
    + destruct (negb (isRetryableError e) || (i =? retries - 1)%nat) eqn:Hc.
      * exists [EvCreate p (inl e)]. split; [exact H1 | split; [constructor | cbn; lia]].
      * apply orb_false_iff in Hc as [Hr _]. apply negb_false_iff in Hr.
        destruct (IH (S i) (emit (EvSleep (2 ^ Z.of_nat i * 1000)) st1) ltac:(lia))
          as (evs & Hev & Hb & Hn).
        exists (EvCreate p (inl e) :: EvSleep (2 ^ Z.of_nat i * 1000) :: evs). split.
        -- apply (emitted_trans st st1 _ [_] (_ :: evs) H1).
           apply (emitted_trans st1 _ _ [_] evs (emitted_emit _ _) Hev).
        -- split; [now constructor |]. unfold attempts in *. cbn. lia.
    + exists [EvCreate p (inr r)]. split; [exact H1 | split; [constructor | cbn; lia]].
Qed.

(** C5.  An upstream call is attempted at most three times.  A failed attempt
    is followed by another exactly when its error is retryable and it was not
    the third; an error is retryable exactly when its status is one of 429,
    500, 502, 503, 504 or its message names a timeout, the network or a
    connection reset.  The wait after the failed attempt numbered [i] (from
    0) is [2^i] seconds: 1000 ms after the first failure and 2000 ms after the
    second, and nothing is waited for after the last attempt. *)
Theorem retryWithBackoff_policy :
  forall (env : Env) (p : CreateParams) (st : State),
    let o := fun k => openai_create env (upstream_calls st + k) p in
    let ev := fun k => EvCreate p (o k) in
    let run := retryWithBackoff (create env p) maxRetries st in
    (forall e, isRetryableError e = true <-> transient_status e \/ network_message e)
    /\ (exists evs,
          emitted st (snd run) evs /\ backoff p 0 evs /\ (attempts evs <= 3)%nat)
    /\ exists evs,
        emitted st (snd run) evs
        /\ match o 0%nat with
           | inr r => fst run = Return (Some r) /\ evs = [ev 0%nat]
           | inl e0 =>
               if isRetryableError e0
               then match o 1%nat with
                    | inr r =>
                        fst run = Return (Some r)
                        /\ evs = [ev 0%nat; EvSleep 1000; ev 1%nat]
                    | inl e1 =>
                        if isRetryableError e1
                        then
                          evs = [ev 0%nat; EvSleep 1000; ev 1%nat; EvSleep 2000; ev 2%nat]
                          /\ match o 2%nat with
                             | inr r => fst run = Return (Some r)
                             | inl e2 => fst run = Throw e2
                             end
                        else fst run = Throw e1
                             /\ evs = [ev 0%nat; EvSleep 1000; ev 1%nat]
                    end
               else fst run = Throw e0 /\ evs = [ev 0%nat]
           end.
Proof.
  intros env p st o ev run. split; [exact isRetryableError_iff |].
  split; [exact (retry_from_backoff env p 3 2 0 st eq_refl) |].
  subst run ev o. cbv beta.
  replace (upstream_calls st + 0)%nat with (upstream_calls st) by lia.
  replace (upstream_calls st + 1)%nat with (S (upstream_calls st)) by lia.
  replace (upstream_calls st + 2)%nat with (S (S (upstream_calls st))) by lia.
  unfold retryWithBackoff, maxRetries, emitted.
  rewrite retry_from_step. cbv zeta.
  destruct (openai_create env (upstream_calls st) p) as [e0 | r0];
    [| eexists; cbn; repeat split; reflexivity].
  destruct (isRetryableError e0); cbn [negb orb Nat.eqb Nat.sub];
    [| eexists; cbn; repeat split; reflexivity].
  rewrite retry_from_step. cbv zeta. cbn [upstream_calls clock_reads query_log trace emit].
  destruct (openai_create env (S (upstream_calls st)) p) as [e1 | r1];
    [| eexists; cbn; rewrite <- !app_assoc; repeat split; reflexivity].
  destruct (isRetryableError e1); cbn [negb orb Nat.eqb Nat.sub];
    [| eexists; cbn; rewrite <- !app_assoc; repeat split; reflexivity].
  rewrite retry_from_step. cbv zeta. cbn [upstream_calls clock_reads query_log trace emit].
  destruct (openai_create env (S (S (upstream_calls st))) p) as [e2 | r2].
  - rewrite orb_true_r. eexists; cbn; rewrite <- !app_assoc; repeat split; reflexivity.
  - eexists; cbn; rewrite <- !app_assoc; repeat split; reflexivity.
Qed.

(** With as many turns left as the bound allows, the loop ends in a return of
    the call's value or in a throw, never by falling out. *)
Lemma retry_from_not_undefined (env : Env) (p : CreateParams) (retries : nat) :
  forall fuel i st,
    (i + S fuel = retries)%nat ->
    fst (retry_from (create env p) retries i (S fuel) st) <> Return None.
Proof.
  induction fuel as [|fuel IH]; intros i st Hi; rewrite retry_from_step; cbv zeta.
  - destruct (openai_create env (upstream_calls st) p) as [e | r]; [| discriminate].
    replace (i =? retries - 1)%nat with true by (symmetry; apply Nat.eqb_eq; lia).
    rewrite orb_true_r. discriminate.
  - destruct (openai_create env (upstream_calls st) p) as [e | r]; [| discriminate].
    destruct (negb (isRetryableError e) || (i =? retries - 1)%nat); [discriminate |].
    apply IH. lia.
Qed.

Lemma retryWithBackoff_not_undefined (env : Env) (p : CreateParams) (st : State) :
  fst (retryWithBackoff (create env p) maxRetries st) <> Return None.
Proof. apply retry_from_not_undefined. reflexivity. Qed.

(** ** [generateEmbedding] *)

#[local] Arguments retryWithBackoff : simpl never.

(** C3.  [generateEmbedding] ends in one of four ways: it returns a vector of
    3072 numbers; or it throws the invalid-input error, exactly when the text
    is empty or not a string, having done nothing; or it throws the
    dimension error, when the endpoint answered with a first vector of
    another length; or it throws the embedding failure that wraps what the
    retried call threw (or the missing first item).  A vector of another
    length is never returned. *)
Theorem generateEmbedding_outcome :
  forall (env : Env) (text : Value) (st : State),
    let run := generateEmbedding env text st in
    let call := fun s =>
      fst (retryWithBackoff (create env (params_for (InputText s))) maxRetries st) in
    match fst run with
    | Return v => valid_text text /\ List.length v = 3072%nat
    | Throw e =>
        (has_kind e InvalidInput /\ ~ valid_text text /\ snd run = st)
        \/ (has_kind e DimensionMismatch
            /\ exists s r item rest,
                text = Str s /\ s <> "" /\ call s = Return (Some r)
                /\ data r = item :: rest
                /\ List.length (embedding item) <> 3072%nat
                /\ message e = "Failed to generate embedding: Invalid embedding dimensions: expected 3072, got "
                                 ++ show_nat (List.length (embedding item)))
        \/ (has_kind e EmbeddingFailure
            /\ exists s cause,
                text = Str s /\ s <> ""
                /\ message e = "Failed to generate embedding: " ++ message cause
                /\ (call s = Throw cause
                    \/ exists r, call s = Return (Some r) /\ data r = []))
    end.
Proof.
  intros env text st run call.
  destruct text as [ | | b | q | s | ];
    try (subst run; cbn; left; repeat split; try reflexivity;
         intros (s' & Hs & _); discriminate).
  subst run. cbn [generateEmbedding truthy is_string negb orb].
  destruct (String.eqb_spec s "") as [-> | Hne]; cbn [negb orb].
  { cbn. left. repeat split. intros (s' & Hs & Hne). inversion Hs; subst. now apply Hne. }
  assert (Hvalid : valid_text (Str s)) by (exists s; split; [reflexivity | exact Hne]).
  unfold try_catch, bind at 1.
  pose proof (retryWithBackoff_not_undefined env (params_for (InputText s)) st) as Hsome.
  subst call. cbv beta.
  destruct (retryWithBackoff (create env (params_for (InputText s))) maxRetries st)
    as [[[r|] | cause] st1] eqn:Hcall; cbn [fst] in Hsome |- *.
  - unfold first_embedding, response_data, bind, ret, throw.
    destruct (data r) as [|item rest] eqn:Hdata.
    + cbn. right; right. split; [eexists; reflexivity |].
      exists s, (new_Error "Cannot read properties of undefined (reading 'embedding')").
      repeat split; auto. right. exists r. rewrite Hcall. split; [reflexivity | exact Hdata].
    + destruct (Nat.eqb_spec (List.length (embedding item)) dimensions) as [Hlen | Hlen];
        cbn [negb fst snd console_error].
      * split; [exact Hvalid | exact Hlen].
      * right; left. split.
        -- exists (List.length (embedding item)). split; [exact Hlen | reflexivity].
        -- exists s, r, item, rest. rewrite Hcall. repeat split; auto.
  - now exfalso.
  - cbn. right; right. split; [eexists; reflexivity |].
    exists s, cause. rewrite Hcall. repeat split; auto.
Qed.

(** ** [createBatches] *)

Lemma createBatches_from_concat {A} (array : list A) (size : nat) :
  (0 < size)%nat ->
  forall fuel i,
    (List.length array - i <= fuel)%nat ->
    List.concat (createBatches_from array size i fuel) = skipn i array.
Proof.
  intros Hsize. induction fuel as [|fuel IH]; intros i Hfuel; cbn [createBatches_from].
  - rewrite skipn_all2 by lia. reflexivity.
  - destruct (Nat.ltb_spec i (List.length array)) as [Hlt | Hge].
    + cbn [List.concat]. rewrite IH by lia. unfold slice.
      replace (i + size - i)%nat with size by lia.
      rewrite (Nat.add_comm i size), <- skipn_skipn.
      apply firstn_skipn.
    + rewrite skipn_all2 by lia. reflexivity.
Qed.

Lemma createBatches_from_nth {A} (array : list A) (size : nat) :
  forall fuel i k b,
    nth_error (createBatches_from array size i fuel) k = Some b ->
    b = firstn size (skipn (i + k * size) array)
    /\ (i + k * size < List.length array)%nat.
Proof.
  induction fuel as [|fuel IH]; intros i k b; cbn [createBatches_from].
  - destruct k; discriminate.
  - destruct (Nat.ltb_spec i (List.length array)) as [Hlt | Hge];
      [| destruct k; discriminate].
    destruct k as [|k]; cbn [nth_error].
    + intros [= <-]. unfold slice.
      replace (i + size - i)%nat with size by lia.
      replace (i + 0 * size)%nat with i by lia. split; [reflexivity | exact Hlt].
    + intros Hk. apply IH in Hk as [-> Hk].
      replace (i + size + k * size)%nat with (i + S k * size)%nat in * by lia.
      split; [reflexivity | exact Hk].
Qed.

(** The batches are the array cut every [size] elements: together they are the
    array, the [k]-th starts at element [k * size], each holds between 1 and
    [size] elements and every one before the last holds [size]. *)
Lemma createBatches_partition {A} (array : list A) (size : nat) :
  (0 < size)%nat ->
  List.concat (createBatches array size) = array
  /\ (forall k b, nth_error (createBatches array size) k = Some b ->
                  b = firstn size (skipn (k * size) array)
                  /\ (1 <= List.length b <= size)%nat)
  /\ (forall k b, (S k < List.length (createBatches array size))%nat ->
                  nth_error (createBatches array size) k = Some b ->
                  List.length b = size).
Proof.
  intros Hsize. unfold createBatches. split; [| split].
  - rewrite createBatches_from_concat by lia. reflexivity.
  - intros k b Hk. apply createBatches_from_nth in Hk as [-> Hk]. cbn [Nat.add] in *.
    split; [reflexivity |].
    rewrite length_firstn, length_skipn. lia.
  - intros k b Hlast Hk.
    destruct (nth_error (createBatches_from array size 0 (List.length array)) (S k))
      as [b'|] eqn:Hnext; [| apply nth_error_None in Hnext; lia].
    apply createBatches_from_nth in Hnext as [_ Hnext].
    apply createBatches_from_nth in Hk as [-> _]. cbn [Nat.add] in *.
    rewrite length_firstn, length_skipn. lia.
Qed.

Lemma createBatches_from_sizes {A} (array : list A) (size : nat) :
  forall fuel i,
    map (@List.length A) (createBatches_from array size i fuel)
    = sizes_from (List.length array) size i fuel.
Proof.
  induction fuel as [|fuel IH]; intros i; cbn [createBatches_from sizes_from];
    [reflexivity |].
  destruct (i <? List.length array)%nat; [| reflexivity].
  cbn [map]. rewrite IH. f_equal. unfold slice.
  rewrite length_firstn, length_skipn. f_equal. lia.
Qed.

(** 250 texts in batches of 100: three batches, of 100, 100 and 50 texts. *)
Lemma createBatches_250 {A} (array : list A) :
  List.length array = 250%nat ->
  map (@List.length A) (createBatches array batchSize) = [100; 100; 50]%nat.
Proof.
  intros Hlen. unfold createBatches. rewrite createBatches_from_sizes, Hlen.
  vm_compute. reflexivity.
Qed.

(** ** What the retried call leaves in the trace *)

Lemma successes_app (e1 e2 : list Event) :
  successes (e1 ++ e2) = (successes e1 ++ successes e2)%list.
Proof. apply flat_map_app. Qed.

Lemma retry_from_trace (env : Env) (p : CreateParams) (retries : nat) :
  forall fuel i st,
    exists evs,
      emitted st (snd (retry_from (create env p) retries i fuel st)) evs
      /\ match fst (retry_from (create env p) retries i fuel st) with
         | Return (Some r) => successes evs = [(p, r)]
         | Return None | Throw _ => successes evs = []
         end.
Proof.
  induction fuel as [|fuel IH]; intros i st.
  - exists []. split; [apply emitted_refl | reflexivity].
  - rewrite retry_from_step. cbv zeta.
    set (st1 := mkState _ _ _ _).
    assert (H1 : emitted st st1 [EvCreate p (openai_create env (upstream_calls st) p)])
      by reflexivity.
    destruct (openai_create env (upstream_calls st) p) as [e | r] eqn:Ho.
    + destruct (negb (isRetryableError e) || (i =? retries - 1)%nat).
      * exists [EvCreate p (inl e)]. split; [exact H1 | reflexivity].
      * destruct (IH (S i) (emit (EvSleep (2 ^ Z.of_nat i * 1000)) st1)) as (evs & Hev & Hres).
        exists ([EvCreate p (inl e)] ++ [EvSleep (2 ^ Z.of_nat i * 1000)] ++ evs)%list.
        split.
        -- eapply emitted_trans; [exact H1 |].
           eapply emitted_trans; [apply emitted_emit | exact Hev].
        -- destruct (fst (retry_from (create env p) retries (S i) fuel
                            (emit (EvSleep (2 ^ Z.of_nat i * 1000)) st1))) as [[r|]|e'];
             rewrite ?successes_app; cbn; exact Hres.
    + exists [EvCreate p (inr r)]. split; [exact H1 | reflexivity].
Qed.

Lemma retryWithBackoff_never_fails (env : Env) (p : CreateParams) (st : State) :
  never_fails env ->
  exists r,
    openai_create env (upstream_calls st) p = inr r
    /\ retryWithBackoff (create env p) maxRetries st
       = (Return (Some r),
          mkState (S (upstream_calls st)) (clock_reads st) (query_log st)
                  (trace st ++ [EvCreate p (inr r)])%list).
Proof.
  intros Hnf. destruct (Hnf (upstream_calls st) p) as [r Hr]. exists r.
  split; [exact Hr |].
  unfold retryWithBackoff, maxRetries. rewrite retry_from_step. cbv zeta.
  now rewrite Hr.
Qed.

(** ** The loop over the batches *)

Lemma batch_step_run (env : Env) (i : nat) (batch : list string)
      (acc : list Vector) (st : State) :
  batch_step env i batch acc st =
    match retryWithBackoff (create env (params_for (InputBatch batch))) maxRetries st with
    | (Return (Some r), st1) => (Return (acc ++ embeddings_of r)%list, st1)
    | (Return None, st1) =>
        (Throw (new_Error
                  (batch_failure_message i
                     (new_Error "Cannot read properties of undefined (reading 'data')"))),
         emit (EvConsoleError batch_failed_site) st1)
    | (Throw cause, st1) =>
        (Throw (new_Error (batch_failure_message i cause)),
         emit (EvConsoleError batch_failed_site) st1)
    end.
Proof.
  unfold batch_step, try_catch, bind at 1.
  destruct (retryWithBackoff _ _ st) as [[[r|]|cause] st1]; reflexivity.
Qed.

Lemma batch_loop_app (env : Env) (l1 l2 : list (list string)) :
  forall i acc st,
    batch_loop env (l1 ++ l2) i acc st =
      match batch_loop env l1 i acc st with
      | (Return acc1, st1) => batch_loop env l2 (i + List.length l1) acc1 st1
      | (Throw e, st1) => (Throw e, st1)
      end.
Proof.
  induction l1 as [|b l1 IH]; intros i acc st; cbn [batch_loop app List.length].
  - unfold ret. now rewrite Nat.add_0_r.
  - unfold bind. destruct (batch_step env i b acc st) as [[acc1|e] st1]; [| reflexivity].
    rewrite IH. now replace (S i + List.length l1)%nat with (i + S (List.length l1))%nat by lia.
Qed.

Lemma batch_loop_success (env : Env) :
  forall batches i acc st embs,
    fst (batch_loop env batches i acc st) = Return embs ->
    exists evs,
      emitted st (snd (batch_loop env batches i acc st)) evs
      /\ map fst (successes evs) = map (fun b => params_for (InputBatch b)) batches
      /\ embs = (acc ++ List.concat (map embeddings_of (map snd (successes evs))))%list.
Proof.
  induction batches as [|b batches IH]; intros i acc st embs; cbn [batch_loop].
  - intros [= <-]. exists []. cbn. rewrite app_nil_r.
    repeat split. apply emitted_refl.
  - unfold bind. rewrite batch_step_run.
    destruct (retry_from_trace env (params_for (InputBatch b)) maxRetries maxRetries 0 st)
      as (ev1 & Hev1 & Hres1).
    fold (retryWithBackoff (create env (params_for (InputBatch b))) maxRetries) in Hev1, Hres1.
    destruct (retryWithBackoff (create env (params_for (InputBatch b))) maxRetries st)
      as [[[r|]|cause] st1]; cbn [fst snd] in *; try discriminate.
    intros Hrest. destruct (IH _ _ _ _ Hrest) as (ev2 & Hev2 & Hreq & Hembs).
    exists (ev1 ++ ev2)%list. split; [eapply emitted_trans; eassumption |].
    rewrite successes_app, !map_app, Hres1, Hreq. cbn [map fst snd List.concat app].
    split; [reflexivity |]. rewrite Hembs, <- app_assoc. reflexivity.
Qed.

Lemma batch_loop_never_fails (env : Env) :
  never_fails env ->
  forall batches i acc st,
    exists responses,
      List.length responses = List.length batches
      /\ fst (batch_loop env batches i acc st)
         = Return (acc ++ List.concat (map embeddings_of responses))%list
      /\ emitted st (snd (batch_loop env batches i acc st))
                 (map answered (combine batches responses)).
Proof.
  intros Hnf. induction batches as [|b batches IH]; intros i acc st; cbn [batch_loop].
  - exists []. cbn. rewrite app_nil_r. repeat split. apply emitted_refl.
  - unfold bind. rewrite batch_step_run.
    destruct (retryWithBackoff_never_fails env (params_for (InputBatch b)) st Hnf)
      as (r & _ & ->).
    set (st1 := mkState _ _ _ _).
    destruct (IH (S i) (acc ++ embeddings_of r)%list st1) as (rs & Hlen & Hres & Hev).
    exists (r :: rs). cbn [List.length combine map List.concat].
    split; [now rewrite Hlen |]. split.
    + rewrite Hres, <- app_assoc. reflexivity.
    + apply (emitted_trans st st1 _ [answered (b, r)]); [reflexivity | exact Hev].
Qed.

(** ** [generateBatchEmbeddings] *)

(** C4.  When the batches before batch [i] (counted from 0) have gone through
    and the retried call for batch [i] throws, [generateBatchEmbeddings]
    throws as a whole: the error's message names the batch by its number
    [i + 1] and carries the cause's message, and the embeddings gathered from
    the earlier batches are not returned. *)
Theorem generateBatchEmbeddings_failure :
  forall (env : Env) (texts : list string) (st : State) (i : nat)
         (batch : list string) (acc : list Vector) (st_i : State)
         (cause : Error) (st_f : State),
    nth_error (createBatches texts batchSize) i = Some batch ->
    batch_loop env (firstn i (createBatches texts batchSize)) 0 [] st = (Return acc, st_i) ->
    retryWithBackoff (create env (params_for (InputBatch batch))) maxRetries st_i
      = (Throw cause, st_f) ->
    generateBatchEmbeddings env (TextArray texts) st
      = (Throw (new_Error ("Failed to generate embeddings for batch " ++ show_nat (i + 1)
                             ++ ": " ++ message cause)),
         emit (EvConsoleError batch_failed_site) st_f).
Proof.
  intros env texts st i batch acc st_i cause st_f Hnth Hbefore Hfail.
  unfold generateBatchEmbeddings.
  destruct texts as [|t texts]; [destruct i; discriminate |].
  cbn [List.length Nat.eqb].
  set (batches := createBatches (t :: texts) batchSize) in *.
  assert (Hi : (i < List.length batches)%nat)
    by (apply nth_error_Some; congruence).
  rewrite <- (firstn_skipn i batches) at 1.
  rewrite batch_loop_app, Hbefore, length_firstn, Nat.min_l by lia.
  assert (Hskip : skipn i batches = batch :: skipn (S i) batches).
  { clear - Hnth. revert i Hnth. induction batches as [|b bs IH]; intros [|i] Hnth;
      cbn in *; try discriminate; [now inversion Hnth | now apply IH]. }
  rewrite Hskip. cbn [batch_loop Nat.add]. unfold bind.
  rewrite batch_step_run, Hfail. reflexivity.
Qed.

(** A run of C4: 101 texts, the endpoint answers the first batch and is
    unavailable for the second. *)
Lemma generateBatchEmbeddings_failure_witness :
  exists st',
    generateBatchEmbeddings answers_once (TextArray (repeat "a" 101)) initial
    = (Throw (new_Error ("Failed to generate embeddings for batch " ++ show_nat (1 + 1)
                           ++ ": " ++ "Service Unavailable")), st').
Proof.
  eexists.
  apply (generateBatchEmbeddings_failure answers_once (repeat "a" 101) initial 1 ["a"]
           [[1#2; 1#3]]
           (mkState 1 0 []
              [EvCreate (params_for (InputBatch (repeat "a" 100)))
                        (inr (mkResponse [mkItem [1#2; 1#3]]))])
           (mkError (Some 503%Z) "Service Unavailable")
           (mkState 4 0 []
              [EvCreate (params_for (InputBatch (repeat "a" 100)))
                        (inr (mkResponse [mkItem [1#2; 1#3]]));
               EvCreate (params_for (InputBatch ["a"]))
                        (inl (mkError (Some 503%Z) "Service Unavailable"));
               EvSleep 1000;
               EvCreate (params_for (InputBatch ["a"]))
                        (inl (mkError (Some 503%Z) "Service Unavailable"));
               EvSleep 2000;
               EvCreate (params_for (InputBatch ["a"]))
                        (inl (mkError (Some 503%Z) "Service Unavailable"))]));
    vm_compute; reflexivity.
Defined.

(** C6.  [generateBatchEmbeddings] cuts the texts into consecutive batches of
    100, the last one possibly shorter, and calls the endpoint for each batch
    in order.  When it returns, the calls the endpoint answered are one per
    batch, in the order of the batches, and the embeddings returned are their
    answers put end to end.  For 250 texts the batches hold 100, 100 and 50
    texts; against an endpoint that never fails the calls made are exactly
    one per batch, three for 250 texts. *)
Theorem generateBatchEmbeddings_batches :
  forall (env : Env) (texts : list string) (st : State),
    let batches := createBatches texts batchSize in
    let run := generateBatchEmbeddings env (TextArray texts) st in
    (List.concat batches = texts
     /\ (forall k b, nth_error batches k = Some b ->
                     b = firstn 100 (skipn (k * 100) texts)
                     /\ (1 <= List.length b <= 100)%nat)
     /\ (forall k b, (S k < List.length batches)%nat ->
                     nth_error batches k = Some b -> List.length b = 100%nat))
    /\ (List.length texts = 250%nat ->
        map (@List.length string) batches = [100; 100; 50]%nat)
    /\ (forall embs,
          fst run = Return embs ->
          exists evs,
            emitted st (snd run) evs
            /\ map fst (successes evs) = map (fun b => params_for (InputBatch b)) batches
            /\ embs = List.concat (map embeddings_of (map snd (successes evs))))
    /\ (never_fails env -> texts <> [] ->
        exists responses,
          List.length responses = List.length batches
          /\ fst run = Return (List.concat (map embeddings_of responses))
          /\ emitted st (snd run) (map answered (combine batches responses))).
Proof.
  intros env texts st batches run.
  split; [exact (createBatches_partition texts batchSize ltac:(unfold batchSize; lia)) |].
  split; [exact (createBatches_250 texts) |].
  subst run batches. unfold generateBatchEmbeddings.
  destruct texts as [|t texts]; cbn [List.length Nat.eqb].
  - split; [discriminate | intros _ H; now elim H].
  - split.
    + intros embs Hrun. apply batch_loop_success in Hrun. exact Hrun.
    + intros Hnf _. apply (batch_loop_never_fails env Hnf).
Qed.

(** A run of C6: 250 texts against an endpoint that answers every call. *)
Lemma generateBatchEmbeddings_batches_witness :
  let texts := repeat "text" 250 in
  let run := generateBatchEmbeddings answers_always (TextArray texts) initial in
  map (@List.length string) (createBatches texts batchSize) = [100; 100; 50]%nat
  /\ (exists responses,
        List.length responses = List.length (createBatches texts batchSize)
        /\ fst run = Return (List.concat (map embeddings_of responses))
        /\ emitted initial (snd run)
                   (map answered (combine (createBatches texts batchSize) responses)))
  /\ List.length (trace (snd run)) = 3%nat.
Proof.
  pose proof (generateBatchEmbeddings_batches answers_always (repeat "text" 250) initial)
    as (_ & Hsizes & _ & Hcalls).
  split; [apply Hsizes; apply repeat_length |].
  split; [| vm_compute; reflexivity].
  apply Hcalls; [| discriminate].
  intros n p. exists (echo_response p). reflexivity.
Defined.

(** ** The first effect of [generateEmbedding] *)

Lemma retry_from_log (env : Env) (p : CreateParams) (retries : nat) :
  forall fuel i st,
    query_log (snd (retry_from (create env p) retries i fuel st)) = query_log st.
Proof.
  induction fuel as [|fuel IH]; intros i st; [reflexivity |].
  rewrite retry_from_step. cbv zeta.
  destruct (openai_create env (upstream_calls st) p) as [e | r]; [| reflexivity].
  destruct (negb (isRetryableError e) || (i =? retries - 1)%nat); [reflexivity |].
  now rewrite IH.
Qed.


Lemma retryWithBackoff_first_event (env : Env) (p : CreateParams) (st : State) :
  exists evs,
    emitted st (snd (retryWithBackoff (create env p) maxRetries st))
            (EvCreate p (openai_create env (upstream_calls st) p) :: evs).
Proof.
  unfold retryWithBackoff, maxRetries. rewrite retry_from_step. cbv zeta.
  set (st1 := mkState _ _ _ _).
  assert (H1 : emitted st st1 [EvCreate p (openai_create env (upstream_calls st) p)])
    by reflexivity.
  destruct (openai_create env (upstream_calls st) p) as [e | r].
  - destruct (negb (isRetryableError e) || (0 =? 3 - 1)%nat).
    + exists []. exact H1.
    + destruct (retry_from_trace env p 3 2 1 (emit (EvSleep (2 ^ Z.of_nat 0 * 1000)) st1))
        as (evs & Hev & _).
      eexists. eapply emitted_cons_trans; [exact H1 |].
      eapply emitted_trans; [apply emitted_emit | exact Hev].
  - exists []. exact H1.
Qed.

(** For a text that passes the check, the first thing [generateEmbedding]
    does is call the endpoint with it. *)
Lemma generateEmbedding_first_event (env : Env) (s : string) (st : State) :
  s <> "" ->
  exists evs,
    emitted st (snd (generateEmbedding env (Str s) st))
            (EvCreate (params_for (InputText s))
                      (openai_create env (upstream_calls st) (params_for (InputText s)))
               :: evs).
Proof.
  intros Hne. unfold generateEmbedding. cbn [truthy is_string negb orb].
  destruct (String.eqb_spec s "") as [-> | _]; [now elim Hne |]. cbn [negb orb].
  destruct (retryWithBackoff_first_event env (params_for (InputText s)) st) as (evs & Hev).
  unfold try_catch, bind at 1.
  destruct (retryWithBackoff (create env (params_for (InputText s))) maxRetries st)
    as [[[r|]|cause] st1]; cbn [snd] in Hev.
  - unfold first_embedding, response_data, bind, ret, throw, console_error.
    destruct (data r) as [|item rest].
    + cbn [snd]. eexists. eapply emitted_cons_trans; [exact Hev | apply emitted_emit].
    + destruct (negb (List.length (embedding item) =? dimensions)%nat).
      * cbn [snd]. eexists. eapply emitted_cons_trans; [exact Hev | apply emitted_emit].
      * cbn [snd]. exists evs. exact Hev.
  - unfold first_embedding, response_data, bind, ret, throw, console_error.
    cbn [snd]. eexists. eapply emitted_cons_trans; [exact Hev | apply emitted_emit].
  - unfold bind, throw, console_error.
    cbn [snd]. eexists. eapply emitted_cons_trans; [exact Hev | apply emitted_emit].
Qed.

(** [generateEmbedding] adds to the trace and leaves the query log alone. *)
Lemma generateEmbedding_grows (env : Env) (text : Value) (st : State) :
  exists evs,
    emitted st (snd (generateEmbedding env text st)) evs
    /\ query_log (snd (generateEmbedding env text st)) = query_log st.
Proof.
  destruct text as [ | | b | q | s | ];
    try (exists []; split; [apply emitted_refl | reflexivity]).
  destruct (String.eqb_spec s "") as [-> | Hne];
    [exists []; split; [apply emitted_refl | reflexivity] |].
  destruct (generateEmbedding_first_event env s st Hne) as (evs & Hev).
  eexists. split; [exact Hev |].
  unfold generateEmbedding. cbn [truthy is_string negb orb].
  destruct (String.eqb_spec s "") as [-> | _]; [now elim Hne |]. cbn [negb orb].
  unfold try_catch, bind at 1.
  pose proof (retry_from_log env (params_for (InputText s)) maxRetries maxRetries 0 st)
    as Hlog.
  fold (retryWithBackoff (create env (params_for (InputText s))) maxRetries) in Hlog.
  destruct (retryWithBackoff (create env (params_for (InputText s))) maxRetries st)
    as [[[r|]|cause] st1]; cbn [snd] in Hlog.
  - unfold first_embedding, response_data, bind, ret, throw, console_error.
    destruct (data r) as [|item rest]; [exact Hlog |].
    destruct (negb (List.length (embedding item) =? dimensions)%nat); exact Hlog.
  - exact Hlog.
  - exact Hlog.
Qed.

End EmbeddingServiceProofs.

(* ===================================================================== *)
(** * Properties of VectorSearch                                          *)
(* ===================================================================== *)


Module VectorSearchProofs.
Import Js Runtime RuntimeNotations VectorSearch VectorSearchSpec RuntimeFacts.

(** ** The ordering of the SELECT *)

Lemma insert_by_distance_perm (r : Row) (rows : list Row) :
  Permutation (insert_by_distance r rows) (r :: rows).
Proof.
  induction rows as [|r' rows IH]; cbn [insert_by_distance]; [reflexivity |].
  destruct (Qle_bool (row_distance r) (row_distance r')); [reflexivity |].
  rewrite IH. apply perm_swap.
Qed.

Lemma order_by_distance_perm (rows : list Row) :
  Permutation (order_by_distance rows) rows.
Proof.
  induction rows as [|r rows IH]; cbn; [reflexivity |].
  fold (order_by_distance rows). now rewrite insert_by_distance_perm, IH.
Qed.

Lemma by_similarity_distance (a b : Row) :
  row_distance a <= row_distance b -> by_similarity a b.
Proof.
  unfold by_similarity, row_similarity. intros H.
  apply Qplus_le_r. now apply Qopp_le_compat.
Qed.

Lemma insert_by_distance_sorted (r : Row) (rows : list Row) :
  StronglySorted by_similarity rows ->
  StronglySorted by_similarity (insert_by_distance r rows).
Proof.
  induction rows as [|r' rows IH]; intros Hs; cbn [insert_by_distance].
  - constructor; constructor.
  - inversion Hs as [|? ? Hrows Hall]; subst.
    destruct (Qle_bool (row_distance r) (row_distance r')) eqn:Hle.
    + apply Qle_bool_iff in Hle. constructor; [exact Hs |].
      constructor; [now apply by_similarity_distance |].
      eapply Forall_impl; [| exact Hall].
      intros x Hx. unfold by_similarity in *.
      apply by_similarity_distance in Hle. unfold by_similarity in Hle.
      now apply Qle_trans with (row_similarity r').
    + assert (Hlt : row_distance r' <= row_distance r).
      { destruct (Qlt_le_dec (row_distance r') (row_distance r)) as [Hlt | Hge].
        - now apply Qlt_le_weak.
        - apply Qle_bool_iff in Hge. congruence. }
      constructor; [now apply IH |].
      eapply Permutation_Forall; [symmetry; apply insert_by_distance_perm |].
      constructor; [now apply by_similarity_distance | exact Hall].
Qed.

Lemma order_by_distance_sorted (rows : list Row) :
  StronglySorted by_similarity (order_by_distance rows).
Proof.
  induction rows as [|r rows IH]; cbn; [constructor |].
  now apply insert_by_distance_sorted.
Qed.

Lemma in_firstn {A} (x : A) (n : nat) (l : list A) :
  In x (firstn n l) -> In x l.
Proof.
  revert n; induction l as [|y l IH]; intros [|n]; cbn; try tauto.
  intros [-> | H]; [now left | right; eauto].
Qed.

Lemma firstn_sorted {A} (R : A -> A -> Prop) (n : nat) (l : list A) :
  StronglySorted R l -> StronglySorted R (firstn n l).
Proof.
  revert n; induction l as [|x l IH]; intros [|n] Hs; cbn; try constructor.
  - inversion Hs; subst. now apply IH.
  - inversion Hs as [|? ? _ Hall]; subst.
    rewrite Forall_forall in *. intros y Hy. apply Hall.
    eapply in_firstn; eassumption.
Qed.

(** ** What the SELECT returns *)

Lemma run_select_in (env : Env) (p : SelectParams) (r : Row) :
  In r (run_select env p) ->
  In r (candidates env p) /\ sel_threshold p <= row_similarity r.
Proof.
  unfold run_select. intros Hin. apply in_firstn in Hin.
  apply (Permutation_in _ (order_by_distance_perm _)) in Hin.
  apply filter_In in Hin as [Hin Hth]. split; [exact Hin |].
  now apply Qle_bool_iff.
Qed.

Lemma candidates_tenant (env : Env) (p : SelectParams) (r : Row) :
  In r (candidates env p) ->
  In (row_chunk r) (chunks env)
  /\ exists t, sel_tenant p = Some t /\ tenant_id (row_chunk r) = Some t.
Proof.
  unfold candidates. intros Hin. apply in_flat_map in Hin as (c & Hc & Hin).
  destruct (chunk_embedding c) as [v|]; [| contradiction].
  destruct (sql_eq_tenant (tenant_id c) (sel_tenant p)) eqn:Ht;
    cbn [andb] in Hin; [| contradiction].
  destruct (sql_any (sel_documents p) (document_id c)); [| contradiction].
  apply in_map_iff in Hin as (d & <- & _). cbn [row_chunk].
  split; [exact Hc |].
  unfold sql_eq_tenant in Ht.
  destruct (tenant_id c) as [a|], (sel_tenant p) as [b|]; try discriminate.
  apply String.eqb_eq in Ht; subst. now exists b.
Qed.

Lemma run_select_sorted (env : Env) (p : SelectParams) :
  StronglySorted by_similarity (run_select env p).
Proof. unfold run_select. apply firstn_sorted, order_by_distance_sorted. Qed.

Lemma run_select_length (env : Env) (p : SelectParams) :
  (List.length (run_select env p) <= sel_limit p)%nat.
Proof. unfold run_select. rewrite length_firstn. lia. Qed.

(** ** [search], step by step *)

Lemma search_run (env : Env) (query : Value) (tenantId : option string)
      (options : Options) (st : State) :
  search env query tenantId options st =
    let startTime := clock env (clock_reads st) in
    match EmbeddingService.generateEmbedding env query (tick st) with
    | (Throw e, st1) => (Throw (search_failed e), emit (EvConsoleError search_error_site) st1)
    | (Return queryEmbedding, st1) =>
        let params := search_params queryEmbedding tenantId options in
        let st2 := emit (EvSelect params) st1 in
        match select_error env with
        | Some e => (Throw (search_failed e), emit (EvConsoleError search_error_site) st2)
        | None =>
            let results := map to_result (run_select env params) in
            let responseTime := (clock env (clock_reads st2) - startTime)%Z in
            let row := mkLogRow tenantId query (List.length results) responseTime
                                None None in
            let st3 := emit (EvInsert row) (tick st2) in
            (Return (mkSearchResponse results query (List.length results) responseTime),
             match insert_error env with
             | Some _ => emit (EvConsoleError log_error_site) st3
             | None => mkState (upstream_calls st3) (clock_reads st3)
                               (query_log st3 ++ [row])%list (trace st3)
             end)
        end
    end.
Proof.
  unfold search, bind at 1, now, try_catch. cbv zeta. fold (tick st).
  unfold bind at 1.
  destruct (EmbeddingService.generateEmbedding env query (tick st))
    as [[queryEmbedding | e] st1]; [| reflexivity].
  unfold bind at 1, vectorSimilaritySearch, bind at 1, pool_select.
  fold (search_params queryEmbedding tenantId options).
  destruct (select_error env) as [e|]; [reflexivity |].
  unfold ret at 1, bind at 1, bind at 1, logQuery, try_catch, pool_insert.
  cbn [fst snd]. unfold tick.
  destruct (insert_error env) as [e|]; reflexivity.
Qed.

Lemma search_results_rows (env : Env) (query : Value) (tenantId : option string)
      (options : Options) (st : State) (resp : SearchResponse) :
  fst (search env query tenantId options st) = Return resp ->
  exists queryEmbedding,
    results resp = map to_result (run_select env (search_params queryEmbedding tenantId options))
    /\ count resp = List.length (results resp).
Proof.
  rewrite search_run. cbv zeta.
  destruct (EmbeddingService.generateEmbedding env query (tick st))
    as [[queryEmbedding | e] st1]; [| discriminate].
  destruct (select_error env) as [e|]; [discriminate |].
  cbn [fst]. intros [= <-]. exists queryEmbedding. split; reflexivity.
Qed.

(** ** Tenant scope *)




(** ** Threshold, order and limit *)

Lemma to_result_sorted (rows : list Row) :
  StronglySorted by_similarity rows ->
  StronglySorted by_reported (map to_result rows).
Proof.
  induction 1 as [|r rows Hrows IH Hall]; cbn [map]; constructor; [exact IH |].
  apply Forall_map. eapply Forall_impl; [| exact Hall].
  intros r' Hr'. unfold by_reported, to_result. cbn [similarity].
  now apply RoundingFacts.parseFloat_toFixed_mono.
Qed.

(** A row the SELECT chooses from: a stored chunk of the tenant with an
    embedding, joined to its document, at the distance the database computes
    between that embedding and the query vector. *)
Lemma candidates_stored (env : Env) (p : SelectParams) (r : Row) :
  In r (candidates env p) ->
  In (row_chunk r) (chunks env)
  /\ In (row_document r) (documents env)
  /\ doc_id (row_document r) = document_id (row_chunk r)
  /\ sql_eq_tenant (tenant_id (row_chunk r)) (sel_tenant p) = true
  /\ exists v, chunk_embedding (row_chunk r) = Some v
               /\ row_distance r = cosine_distance env v (sel_embedding p).
Proof.
  unfold candidates. intros Hin. apply in_flat_map in Hin as (c & Hc & Hin).
  destruct (chunk_embedding c) as [v|] eqn:Hv; [| contradiction].
  destruct (sql_eq_tenant (tenant_id c) (sel_tenant p)) eqn:Ht; cbn [andb] in Hin;
    [| contradiction].
  destruct (sql_any (sel_documents p) (document_id c)); [| contradiction].
  apply in_map_iff in Hin as (d & <- & Hd). apply filter_In in Hd as [Hd Hjoin].
  apply Nat.eqb_eq in Hjoin. cbn [row_chunk row_document row_distance].
  repeat split; auto. now exists v.
Qed.

(** The rows behind the results of a search that returns: those the SELECT
    gives for the vector the embedding call returned. *)
Lemma search_results_select (env : Env) (query : Value) (tenantId : option string)
      (options : Options) (st : State) (resp : SearchResponse) :
  fst (search env query tenantId options st) = Return resp ->
  exists queryEmbedding,
    fst (EmbeddingService.generateEmbedding env query (tick st)) = Return queryEmbedding
    /\ results resp
       = map to_result (run_select env (search_params queryEmbedding tenantId options)).
Proof.
  rewrite search_run. cbv zeta.
  destruct (EmbeddingService.generateEmbedding env query (tick st))
    as [[queryEmbedding | e] st1]; [| discriminate].
  destruct (select_error env) as [e|]; [discriminate |].
  cbn [fst]. intros [= <-]. exists queryEmbedding. split; reflexivity.
Qed.

(** C2, as the code has it.  When [search] returns, its results are the rows
    the SELECT gave for the vector the embedding call returned, in the
    SELECT's order.  Each row is a stored chunk with an embedding, joined to a
    stored document, at the distance the database computes between that
    embedding and the query vector; its similarity, one less that distance, is
    at least the threshold; the rows are in descending order of that
    similarity, and there are at most [topK] of them.  The similarity a result
    reports is the computed one rounded to four decimals: it is at least the
    threshold less 0.00005, and the reported similarities descend too.
    Nothing orders results of one similarity by chunk index. *)
Theorem search_results_ranked :
  forall (env : Env) (query : Value) (tenantId : option string)
         (options : Options) (st : State) (resp : SearchResponse),
    fst (search env query tenantId options st) = Return resp ->
    let threshold := with_default (opt_similarityThreshold options) similarityThreshold in
    let topK := with_default (opt_topK options) defaultTopK in
    exists queryEmbedding rows,
      fst (EmbeddingService.generateEmbedding env query (tick st)) = Return queryEmbedding
      /\ rows = run_select env (mkSelect queryEmbedding tenantId
                                         (document_filter (opt_documentIds options))
                                         threshold topK)
      /\ results resp = map to_result rows
      /\ Forall (fun row =>
                   exists c d v,
                     In c (chunks env) /\ In d (documents env)
                     /\ chunk_embedding c = Some v
                     /\ row = mkRow c d (cosine_distance env v queryEmbedding)
                     /\ row_similarity row = 1 - cosine_distance env v queryEmbedding
                     /\ threshold <= 1 - cosine_distance env v queryEmbedding) rows
      /\ Forall (fun row => threshold <= row_similarity row) rows
      /\ StronglySorted by_similarity rows
      /\ Forall (fun r => threshold - (1 # 20000) <= similarity r) (results resp)
      /\ StronglySorted by_reported (results resp)
      /\ (List.length (results resp) <= topK)%nat.
Proof.
  intros env query tenantId options st resp Hrun threshold topK.
  apply search_results_select in Hrun as (q & Hq & Hres).
  set (p := search_params q tenantId options) in *.
  assert (Hth : Forall (fun row => threshold <= row_similarity row) (run_select env p)).
  { apply Forall_forall. intros row Hrow. now apply run_select_in in Hrow as [_ Hrow]. }
  exists q, (run_select env p). rewrite Hres.
  split; [exact Hq |]. split; [reflexivity |]. split; [reflexivity |].
  split; [| split; [exact Hth |]].
  - apply Forall_forall. intros row Hrow.
    apply run_select_in in Hrow as [Hrow Hrow_th].
    apply candidates_stored in Hrow as (Hc & Hd & _ & _ & v & Hv & Hdist).
    cbn [p search_params sel_embedding sel_threshold] in Hdist, Hrow_th.
    exists (row_chunk row), (row_document row), v.
    split; [exact Hc |]. split; [exact Hd |]. split; [exact Hv |].
    assert (Hsim : row_similarity row = 1 - cosine_distance env v q)
      by (unfold row_similarity; now rewrite Hdist).
    split; [destruct row as [c d dist]; cbn [row_chunk row_document row_distance] in *;
            now rewrite Hdist |].
    split; [exact Hsim |]. rewrite <- Hsim. exact Hrow_th.
  - split; [apply run_select_sorted |]. split; [| split].
    + apply Forall_map. eapply Forall_impl; [| exact Hth].
      intros row Hrow. unfold to_result. cbn [similarity]. cbv beta in Hrow.
      pose proof (RoundingFacts.parseFloat_toFixed_4_lower (row_similarity row)) as Hlow.
      apply Qle_trans with (row_similarity row - (1 # 20000)); [| exact Hlow].
      apply Qplus_le_l. exact Hrow.
    + apply to_result_sorted, run_select_sorted.
    + rewrite length_map. apply (run_select_length env p).
Qed.

(** A run of C2's theorem on the knowledge base, threshold 0.5 and one
    result asked for: the row of chunk 11, the nearer of the two. *)
Lemma search_results_ranked_witness :
  exists resp queryEmbedding rows,
    fst (search knowledge_base (Str "return policy") (Some "t1")
                (mkOptions (Some 1%nat) (Some (1 # 2)) None) EmbeddingServiceSpec.initial)
    = Return resp
    /\ queryEmbedding = axis
    /\ rows = run_select knowledge_base (mkSelect axis (Some "t1") None (1 # 2) 1)
    /\ results resp = map to_result rows
    /\ map (fun row => id (row_chunk row)) rows = [11%nat]
    /\ Forall (fun row => 1 # 2 <= row_similarity row) rows
    /\ StronglySorted by_similarity rows
    /\ Forall (fun r => (1 # 2) - (1 # 20000) <= similarity r) (results resp)
    /\ StronglySorted by_reported (results resp)
    /\ (List.length (results resp) <= 1)%nat.
Proof.
  eexists.
  assert (Hrun : fst (search knowledge_base (Str "return policy") (Some "t1")
                             (mkOptions (Some 1%nat) (Some (1 # 2)) None)
                             EmbeddingServiceSpec.initial) = Return _)
    by (vm_compute; reflexivity).
  destruct (search_results_ranked _ _ _ _ _ _ Hrun)
    as (q & rows & Hq & Hrows & H1 & _ & H2 & H3 & H4 & H5 & H6).
  assert (Haxis : q = axis).
  { assert (Hgen : fst (EmbeddingService.generateEmbedding knowledge_base
                          (Str "return policy") (tick EmbeddingServiceSpec.initial))
                   = Return axis) by (vm_compute; reflexivity).
    rewrite Hgen in Hq. now injection Hq. }
  subst q. cbn [with_default opt_similarityThreshold opt_topK opt_documentIds
                  document_filter] in Hrows.
  exists axis, rows. split; [exact Hrun |]. split; [reflexivity |].
  split; [exact Hrows |]. split; [exact H1 |].
  split; [rewrite Hrows; vm_compute; reflexivity |].
  repeat split; assumption.
Defined.

(** Against the order and the threshold the written specification states: on
    the knowledge base, with threshold 0.99980001, the chunk of index 1 (cosine
    10200/10202) comes before the chunk of index 0 (cosine 9999/10001); both
    report 0.9998, which is below the threshold and a tie that the chunk
    indexes do not ascend through. *)
Lemma search_order_counterexample :
  let threshold := 99980001 # 100000000 in
  let run := search knowledge_base (Str "return policy") (Some "t1")
                    (mkOptions (Some 5%nat) (Some threshold) None)
                    EmbeddingServiceSpec.initial in
  exists r1 r2,
    fst run = Return (mkSearchResponse [r1; r2] (Str "return policy") 2 25)
    /\ similarity r1 == 9998 # 10000 /\ similarity r2 == 9998 # 10000
    /\ chunkIndex r1 = 1%Z /\ chunkIndex r2 = 0%Z
    /\ ~ Forall (fun r => threshold <= similarity r) [r1; r2]
    /\ ~ StronglySorted by_similarity_then_index [r1; r2].
Proof.
  cbv zeta. do 2 eexists.
  split; [vm_compute; reflexivity |].
  split; [reflexivity |]. split; [reflexivity |].
  split; [reflexivity |]. split; [reflexivity |]. split.
  - intros H. inversion H as [|? ? Hr1 _]; subst.
    cbn in Hr1. unfold Qle in Hr1. cbn in Hr1. lia.
  - intros H. inversion H as [|? ? _ Hall]; subst.
    inversion Hall as [|? ? Hr _]; subst.
    destruct Hr as [Hlt | [_ Hidx]].
    + cbn in Hlt. unfold Qlt in Hlt. cbn in Hlt. lia.
    + cbn in Hidx. lia.
Qed.

(** ** The query log *)

(** C7.  What [search] returns or throws does not depend on whether the
    INSERT into the query log fails.  When the search returns, the only
    difference a failed INSERT makes is one diagnostic after the attempt, and
    no row in the log. *)
Theorem search_ignores_log_failure :
  forall (env : Env) (query : Value) (tenantId : option string)
         (options : Options) (st : State) (e : Error),
    let logged := search (with_insert_error env None) query tenantId options st in
    let failed := search (with_insert_error env (Some e)) query tenantId options st in
    fst failed = fst logged
    /\ (forall resp,
          fst logged = Return resp ->
          exists evs row,
            emitted st (snd logged) (evs ++ [EvInsert row])%list
            /\ emitted st (snd failed)
                       (evs ++ [EvInsert row; EvConsoleError log_error_site])%list
            /\ query_log (snd logged) = (query_log st ++ [row])%list
            /\ query_log (snd failed) = query_log st).
Proof.
  intros env query tenantId options st e logged failed. subst logged failed.
  rewrite !search_run. cbv zeta.
  change (EmbeddingService.generateEmbedding (with_insert_error env (Some e)) query)
    with (EmbeddingService.generateEmbedding env query).
  change (EmbeddingService.generateEmbedding (with_insert_error env None) query)
    with (EmbeddingService.generateEmbedding env query).
  pose proof (EmbeddingServiceProofs.generateEmbedding_grows env query (tick st))
    as (ev1 & Hev1 & Hlog1).
  destruct (EmbeddingService.generateEmbedding env query (tick st))
    as [[queryEmbedding | cause] st1]; cbn [snd] in Hev1, Hlog1.
  - cbn [select_error with_insert_error insert_error].
    destruct (select_error env) as [cause|].
    + split; [reflexivity | discriminate].
    + split; [reflexivity |]. cbn [fst snd]. intros resp _.
      eexists (ev1 ++ [EvSelect _])%list, _.
      unfold emitted in *. unfold emit, tick in *.
      cbn [trace query_log upstream_calls clock_reads] in *.
      rewrite Hev1, Hlog1, <- !app_assoc. cbn [app].
      repeat split; reflexivity.
  - split; [reflexivity | discriminate].
Qed.

End VectorSearchProofs.

(* ===================================================================== *)
(** * Properties of LLMPromptBuilder                                      *)
(* ===================================================================== *)


Module LLMPromptBuilderProofs.
Import Js VectorSearch LLMPromptBuilder LLMPromptBuilderSpec JsFacts.

(** ** [buildOhmnicContext] *)

Section Context_.
Variable iso_date : Z -> string.

Lemma forEach_source_blocks (rs : list SearchResult) :
  forall index context,
    forEach_source iso_date rs index context
    = context ++ source_blocks iso_date index rs.
Proof.
  induction rs as [|r rs IH]; intros index context; cbn [forEach_source source_blocks].
  - now rewrite append_nil_r.
  - now rewrite IH, append_assoc.
Qed.

Lemma source_block_label (index : nat) (r : SearchResult) :
  exists rest, source_block iso_date index r = source_label index r ++ rest.
Proof.
  unfold source_block, source_label, display_filename. cbv zeta.
  destruct (source r) as [src|]; eexists;
    rewrite ?append_assoc; cbn [append]; rewrite ?append_assoc; reflexivity.
Qed.

Lemma source_blocks_nth (rs : list SearchResult) :
  forall index k r,
    nth_error rs k = Some r ->
    exists before rest after,
      source_blocks iso_date index rs
      = before ++ (source_label (index + k) r ++ rest) ++ after
      /\ after = source_blocks iso_date (index + S k) (skipn (S k) rs).
Proof.
  induction rs as [|r0 rs IH]; intros index k r; [destruct k; discriminate |].
  destruct k as [|k]; cbn [nth_error source_blocks skipn].
  - intros [= ->]. destruct (source_block_label index r) as (rest & ->).
    exists "", rest, (source_blocks iso_date (S index) rs).
    rewrite Nat.add_0_r, Nat.add_1_r. split; reflexivity.
  - intros Hk. destruct (IH (S index) k r Hk) as (before & rest & after & -> & ->).
    exists (source_block iso_date index r0 ++ before), rest,
      (source_blocks iso_date (S index + S k) (skipn (S k) rs)).
    replace (index + S k)%nat with (S index + k)%nat by lia.
    replace (index + S (S k))%nat with (S index + S k)%nat by lia.
    split; [now rewrite !append_assoc | reflexivity].
Qed.

Lemma source_blocks_ordered (rs : list SearchResult) (i j : nat)
      (ri rj : SearchResult) :
  (i < j)%nat -> nth_error rs i = Some ri -> nth_error rs j = Some rj ->
  exists a b c,
    source_blocks iso_date 0 rs = a ++ source_label i ri ++ b ++ source_label j rj ++ c.
Proof.
  intros Hij Hi Hj.
  destruct (source_blocks_nth rs 0 i ri Hi) as (a & rest & after & -> & Hafter).
  assert (Hj' : nth_error (skipn (S i) rs) (j - S i) = Some rj).
  { rewrite nth_error_skipn. now replace (S i + (j - S i))%nat with j by lia. }
  destruct (source_blocks_nth _ (0 + S i) _ _ Hj') as (b & rest' & c & Heq & _).
  rewrite Hafter, Heq.
  replace (0 + S i + (j - S i))%nat with j by lia.
  exists a, (rest ++ b), (rest' ++ c). cbn [Nat.add].
  now rewrite !append_assoc.
Qed.

(** C8.  For no results [buildOhmnicContext] returns the fixed block, which
    holds the sentence to say when the answer is not known.  For results it
    returns the header, one block per result in the order given, and the
    rules; so the heading of an earlier result, with its filename, stands
    before the heading of a later one. *)
Theorem buildOhmnicContext_sources :
  (buildOhmnicContext iso_date (Some []) = no_information_block
   /\ buildOhmnicContext iso_date None = no_information_block
   /\ occurs_in deflection_phrase no_information_block)
  /\ (forall rs,
        rs <> [] ->
        buildOhmnicContext iso_date (Some rs)
        = context_header ++ source_blocks iso_date 0 rs ++ context_rules)
  /\ (forall rs i j ri rj,
        (i < j)%nat -> nth_error rs i = Some ri -> nth_error rs j = Some rj ->
        exists a b c,
          buildOhmnicContext iso_date (Some rs)
          = a ++ source_label i ri ++ b ++ source_label j rj ++ c)
  /\ (forall r src f,
        source r = Some src -> filename src = Some f -> f <> "" ->
        display_filename r = f).
Proof.
  assert (Hshape : forall rs, rs <> [] ->
            buildOhmnicContext iso_date (Some rs)
            = context_header ++ source_blocks iso_date 0 rs ++ context_rules).
  { intros [|r rs] Hne; [now elim Hne |].
    unfold buildOhmnicContext. cbn [List.length Nat.eqb].
    now rewrite forEach_source_blocks, append_assoc. }
  split; [| split; [exact Hshape | split]].
  - repeat split. apply includes_iff. vm_compute. reflexivity.
  - intros rs i j ri rj Hij Hi Hj.
    assert (Hne : rs <> []) by (intros ->; destruct i; discriminate).
    rewrite (Hshape rs Hne).
    destruct (source_blocks_ordered rs i j ri rj Hij Hi Hj) as (a & b & c & ->).
    exists (context_header ++ a), b, (c ++ context_rules).
    now rewrite !append_assoc.
  - intros r src f Hsrc Hf Hne. unfold display_filename, or_else.
    rewrite Hsrc, Hf. destruct (String.eqb_spec f ""); [contradiction | reflexivity].
Qed.

End Context_.

(** A run of C8: two results, from policies.pdf and then faq.pdf. *)
Lemma buildOhmnicContext_sources_witness :
  exists a b c,
    buildOhmnicContext fixed_date
      (Some [result_of "policies.pdf" 3 (62 # 100); result_of "faq.pdf" 0 (55 # 100)])
    = a ++ ("## Source 1: " ++ "policies.pdf") ++ b ++ ("## Source 2: " ++ "faq.pdf") ++ c.
Proof.
  destruct (buildOhmnicContext_sources fixed_date) as (_ & _ & Horder & _).
  exact (Horder [result_of "policies.pdf" 3 (62 # 100); result_of "faq.pdf" 0 (55 # 100)]
                0%nat 1%nat _ _ (le_n 1) eq_refl eq_refl).
Defined.

(** ** The token budget *)

Lemma estimateTokenCount_ceiling (text : string) :
  (4 * (estimateTokenCount text - 1) < Z.of_nat (String.length text)
   <= 4 * estimateTokenCount text)%Z.
Proof.
  unfold estimateTokenCount.
  set (x := Z.of_nat (String.length text) # 4).
  pose proof (Qle_ceiling x) as Hle. pose proof (Qceiling_lt x) as Hlt.
  unfold Qle, Qlt, x in *. cbn in Hle, Hlt. lia.
Qed.

(** C9.  When the estimate is over the ceiling, [checkTokenLimit] reports
    [withinLimit = false] and the excess, estimate less ceiling; the estimate
    is the length of the text divided by 4, rounded up.  The report holds
    numbers only: the text is read for its length and nothing else. *)
Theorem checkTokenLimit_excess :
  forall (text : string) (max : Z),
    (max < estimateTokenCount text)%Z ->
    checkTokenLimit text (Some max)
    = mkReport false (estimateTokenCount text) max (Some (estimateTokenCount text - max)%Z)
    /\ (4 * (estimateTokenCount text - 1) < Z.of_nat (String.length text)
        <= 4 * estimateTokenCount text)%Z.
Proof.
  intros text max Hover. split; [| apply estimateTokenCount_ceiling].
  unfold checkTokenLimit. cbn [with_default].
  destruct (Z.ltb_spec max (estimateTokenCount text)); [reflexivity | lia].
Qed.

(** A run of C9: 13 characters are 4 tokens, 1 over a ceiling of 3. *)
Lemma checkTokenLimit_excess_witness :
  checkTokenLimit "Hello, world!" (Some 3%Z) = mkReport false 4 3 (Some 1%Z).
Proof.
  exact (proj1 (checkTokenLimit_excess "Hello, world!" 3 ltac:(vm_compute; reflexivity))).
Defined.

(** ** [buildPrompt] *)

(** C10.  The total [buildPrompt] reports is the length of the prompt it
    returns, and it is 4 more than the five section lengths together: the two
    blank lines put after the system prompt and after the context belong to
    no section. *)
Theorem buildPrompt_lengths :
  forall (iso_date : Z -> string) (systemPromptCache : option string)
         (options : PromptOptions),
    let doc := fst (buildPrompt iso_date systemPromptCache options) in
    totalLength doc = String.length (prompt doc)
    /\ totalLength doc
       = (sec_systemPrompt (sections doc) + sec_ohmnicContext (sections doc)
          + sec_agentInstructions (sections doc) + sec_conversationHistory (sections doc)
          + sec_userQuery (sections doc) + 4)%nat.
Proof.
  intros iso_date cache options. unfold buildPrompt. cbv zeta.
  destruct (getSystemPrompt cache) as [systemPrompt cache'].
  cbn [fst totalLength prompt sections sec_systemPrompt sec_ohmnicContext
       sec_agentInstructions sec_conversationHistory sec_userQuery].
  split; [reflexivity |].
  rewrite !length_append. change (String.length nl) with 1%nat. lia.
Qed.

End LLMPromptBuilderProofs.


(* ===================================================================== *)
(** * Further properties of EmbeddingService                              *)
(* ===================================================================== *)

Module RetryProofs.
Import Js Runtime RuntimeNotations EmbeddingService EmbeddingServiceSpec.
Import JsFacts RuntimeFacts EmbeddingServiceProofs.

Lemma last_cons {A} (l : list A) : forall x d, last (x :: l) d = last l x.
Proof.
  induction l as [|y l IH]; intros x d; [reflexivity |].
  change (last (x :: y :: l) d) with (last (y :: l) d). now rewrite !IH.
Qed.

Lemma retry_from_clock (env : Env) (p : CreateParams) (retries : nat) :
  forall fuel i st,
    clock_reads (snd (retry_from (create env p) retries i fuel st)) = clock_reads st.
Proof.
  induction fuel as [|fuel IH]; intros i st; [reflexivity |].
  rewrite retry_from_step. cbv zeta.
  destruct (openai_create env (upstream_calls st) p) as [e | r]; [| reflexivity].
  destruct (negb (isRetryableError e) || (i =? retries - 1)%nat); [reflexivity |].
  now rewrite IH.
Qed.

(** The loop's outcome is that of the last attempt it made; it gives up on an
    error that is not retryable or when the attempts are used up. *)
Lemma retry_from_last (env : Env) (p : CreateParams) (retries : nat) :
  forall fuel i st,
    (i + S fuel = retries)%nat ->
    exists evs,
      emitted st (snd (retry_from (create env p) retries i (S fuel) st)) evs
      /\ backoff p i evs /\ (1 <= attempts evs <= S fuel)%nat
      /\ match fst (retry_from (create env p) retries i (S fuel) st) with
         | Return (Some r) => last_event evs = Some (EvCreate p (inr r))
         | Return None => False
         | Throw e =>
             last_event evs = Some (EvCreate p (inl e))
             /\ (isRetryableError e = false \/ attempts evs = S fuel)
         end.
Proof.
  induction fuel as [|fuel IH]; intros i st Hi; rewrite retry_from_step; cbv zeta;
    set (st1 := mkState _ _ _ _);
    assert (H1 : emitted st st1 [EvCreate p (openai_create env (upstream_calls st) p)])
      by reflexivity.
  - exists [EvCreate p (openai_create env (upstream_calls st) p)].
    destruct (openai_create env (upstream_calls st) p) as [e | r].
    + replace (i =? retries - 1)%nat with true by (symmetry; apply Nat.eqb_eq; lia).
      rewrite orb_true_r. cbn [fst snd].
      split; [exact H1 |]. split; [constructor |]. split; [cbn; lia |].
      split; [reflexivity | right; reflexivity].
    + cbn [fst snd].
      split; [exact H1 |]. split; [constructor |]. split; [cbn; lia | reflexivity].
  - destruct (openai_create env (upstream_calls st) p) as [e | r] eqn:Ho.
    + destruct (negb (isRetryableError e) || (i =? retries - 1)%nat) eqn:Hc.
      * exists [EvCreate p (inl e)]. cbn [fst snd].
        apply orb_true_iff in Hc as [Hc | Hc].
        -- apply negb_true_iff in Hc.
           split; [exact H1 |]. split; [constructor |]. split; [cbn; lia |].
           split; [reflexivity | left; exact Hc].
        -- apply Nat.eqb_eq in Hc. lia.
      * apply orb_false_iff in Hc as [Hr _]. apply negb_false_iff in Hr.
        destruct (IH (S i) (emit (EvSleep (2 ^ Z.of_nat i * 1000)) st1) ltac:(lia))
          as (evs & Hev & Hb & Hn & Hlast).
        exists (EvCreate p (inl e) :: EvSleep (2 ^ Z.of_nat i * 1000) :: evs).
        split; [| split; [| split]].
        -- apply (emitted_trans st st1 _ [_] (_ :: evs) H1).
           apply (emitted_trans st1 _ _ [_] evs (emitted_emit _ _) Hev).
        -- now constructor.
        -- unfold attempts in *. cbn. lia.
        -- assert (Hl : forall ev,
                     last_event evs = Some ev ->
                     last_event (EvCreate p (inl e)
                                   :: EvSleep (2 ^ Z.of_nat i * 1000) :: evs) = Some ev).
           { destruct evs as [|x evs]; [discriminate |]. intros ev <-.
             unfold last_event. now rewrite !last_cons. }
           assert (Ha : attempts (EvCreate p (inl e)
                                    :: EvSleep (2 ^ Z.of_nat i * 1000) :: evs)
                        = S (attempts evs)) by reflexivity.
           destruct (fst (retry_from (create env p) retries (S i) (S fuel)
                            (emit (EvSleep (2 ^ Z.of_nat i * 1000)) st1)))
             as [[r|]|e']; [now apply Hl | exact Hlast |].
           destruct Hlast as [Hlast Hwhy]. split; [now apply Hl |].
           rewrite Ha. destruct Hwhy as [Hwhy | Hwhy]; [now left | right; lia].
    + exists [EvCreate p (inr r)]. cbn [fst snd].
      split; [exact H1 |]. split; [constructor |]. split; [cbn; lia | reflexivity].
Qed.

(** X1.  Whatever the bound on the attempts (at least one), the retried call
    makes between one and that many attempts, each but the last one failed
    with a retryable error and followed by its wait, and the call ends as its
    last attempt did: it returns that attempt's response, or throws that
    attempt's error, which is not retryable unless the attempts are used up. *)
Theorem retryWithBackoff_last_attempt :
  forall (env : Env) (p : CreateParams) (retries : nat) (st : State),
    (1 <= retries)%nat ->
    exists evs,
      emitted st (snd (retryWithBackoff (create env p) retries st)) evs
      /\ backoff p 0 evs /\ (1 <= attempts evs <= retries)%nat
      /\ match fst (retryWithBackoff (create env p) retries st) with
         | Return (Some r) => last_event evs = Some (EvCreate p (inr r))
         | Return None => False
         | Throw e =>
             last_event evs = Some (EvCreate p (inl e))
             /\ (isRetryableError e = false \/ attempts evs = retries)
         end.
Proof.
  intros env p retries st Hr. unfold retryWithBackoff.
  destruct retries as [|fuel]; [lia |].
  apply (retry_from_last env p (S fuel) fuel 0 st). reflexivity.
Qed.

(** A run of X1: five attempts allowed, the fifth is answered. *)
Lemma retryWithBackoff_last_attempt_witness :
  exists evs,
    emitted initial
            (snd (retryWithBackoff (create answers_fifth (params_for (InputText "q"))) 5
                                   initial)) evs
    /\ attempts evs = 5%nat
    /\ fst (retryWithBackoff (create answers_fifth (params_for (InputText "q"))) 5 initial)
       = Return (Some (mkResponse [mkItem [1]]))
    /\ last_event evs
       = Some (EvCreate (params_for (InputText "q")) (inr (mkResponse [mkItem [1]]))).
Proof.
  destruct (retryWithBackoff_last_attempt answers_fifth (params_for (InputText "q")) 5
              initial ltac:(lia)) as (evs & Hev & _ & _ & Hlast).
  exists evs. split; [exact Hev |].
  assert (Hrun : fst (retryWithBackoff (create answers_fifth (params_for (InputText "q"))) 5
                                       initial)
                 = Return (Some (mkResponse [mkItem [1]]))) by (vm_compute; reflexivity).
  rewrite Hrun in Hlast. split; [| split; [exact Hrun | exact Hlast]].
  assert (Hevs : emitted initial
                   (snd (retryWithBackoff (create answers_fifth (params_for (InputText "q")))
                                          5 initial))
                   (trace (snd (retryWithBackoff
                                  (create answers_fifth (params_for (InputText "q"))) 5
                                  initial)))) by reflexivity.
  rewrite (emitted_inj _ _ _ _ Hev Hevs). vm_compute. reflexivity.
Defined.

(** The waits of a backoff add up to a difference of powers of two. *)
Lemma backoff_total_wait (p : CreateParams) (i : nat) (evs : list Event) :
  backoff p i evs ->
  total_wait evs
  = ((2 ^ Z.of_nat (i + attempts evs - 1) - 2 ^ Z.of_nat i) * 1000)%Z.
Proof.
  induction 1 as [i o | i e rest Hr Hb IH].
  - cbn. replace (i + 1 - 1)%nat with i by lia. lia.
  - change (total_wait (EvCreate p (inl e) :: EvSleep (2 ^ Z.of_nat i * 1000) :: rest))
      with (2 ^ Z.of_nat i * 1000 + total_wait rest)%Z.
    change (attempts (EvCreate p (inl e) :: EvSleep (2 ^ Z.of_nat i * 1000) :: rest))
      with (S (attempts rest)).
    rewrite IH.
    assert (Hpos : (1 <= attempts rest)%nat).
    { clear - Hb. destruct Hb; cbn; lia. }
    replace (i + S (attempts rest) - 1)%nat with (S i + attempts rest - 1)%nat by lia.
    replace (Z.of_nat (S i)) with (Z.of_nat i + 1)%Z by lia.
    rewrite Z.pow_add_r by lia. lia.
Qed.

(** X2.  The time a retried call spends waiting is [(2^(n-1) - 1)] seconds
    for [n] attempts made, so at most [(2^(retries-1) - 1)] seconds: no more
    than 3000 ms with the three attempts the service allows. *)
Theorem retryWithBackoff_total_wait :
  forall (env : Env) (p : CreateParams) (retries : nat) (st : State) (evs : list Event),
    (1 <= retries)%nat ->
    emitted st (snd (retryWithBackoff (create env p) retries st)) evs ->
    total_wait evs = ((2 ^ Z.of_nat (attempts evs - 1) - 1) * 1000)%Z
    /\ (total_wait evs <= (2 ^ Z.of_nat (retries - 1) - 1) * 1000)%Z
    /\ (retries = maxRetries -> total_wait evs <= 3000)%Z.
Proof.
  intros env p retries st evs Hr Hevs.
  destruct retries as [|fuel]; [lia |]. unfold retryWithBackoff in Hevs.
  destruct (retry_from_last env p (S fuel) fuel 0 st eq_refl)
    as (evs' & Hev & Hb & Hn & _).
  rewrite (emitted_inj _ _ _ _ Hevs Hev). set (retries := S fuel) in *.
  assert (Hr' : (1 <= retries)%nat) by exact Hr.
  pose proof (backoff_total_wait p 0 evs' Hb) as Hw. cbn [Nat.add] in Hw.
  change (2 ^ Z.of_nat 0)%Z with 1%Z in Hw.
  assert (Hmono : (2 ^ Z.of_nat (attempts evs' - 1) <= 2 ^ Z.of_nat (retries - 1))%Z)
    by (apply Z.pow_le_mono_r; lia).
  split; [exact Hw |]. split; [lia |].
  intros ->. change (2 ^ Z.of_nat (maxRetries - 1))%Z with 4%Z in Hmono. lia.
Qed.

(** A run of X2: four failures, waits of 1, 2, 4 and 8 seconds under a bound
    of five attempts. *)
Lemma retryWithBackoff_total_wait_witness :
  total_wait (trace (snd (retryWithBackoff
                            (create answers_fifth (params_for (InputText "q"))) 5 initial)))
  = 15000%Z.
Proof.
  pose proof (retryWithBackoff_total_wait answers_fifth (params_for (InputText "q")) 5
                initial _ ltac:(lia) eq_refl) as (Hw & _).
  rewrite Hw. vm_compute. reflexivity.
Defined.

End RetryProofs.

Module BatchProofs.
Import Js Runtime RuntimeNotations EmbeddingService EmbeddingServiceSpec.
Import JsFacts RuntimeFacts EmbeddingServiceProofs RetryProofs.

Lemma createBatches_from_count {A} (array : list A) (size : nat) :
  (0 < size)%nat ->
  forall fuel i,
    (List.length array - i <= fuel)%nat ->
    List.length (createBatches_from array size i fuel)
    = ((List.length array - i + size - 1) / size)%nat.
Proof.
  intros Hsize. induction fuel as [|fuel IH]; intros i Hfuel; cbn [createBatches_from].
  - replace (List.length array - i + size - 1)%nat with (size - 1)%nat by lia.
    rewrite Nat.div_small by lia. reflexivity.
  - destruct (Nat.ltb_spec i (List.length array)) as [Hlt | Hge].
    + cbn [List.length]. rewrite IH by lia.
      destruct (Nat.le_gt_cases size (List.length array - i)) as [Hbig | Hsmall].
      * replace (List.length array - i + size - 1)%nat
          with (List.length array - (i + size) + size - 1 + 1 * size)%nat by lia.
        rewrite Nat.div_add by lia. lia.
      * replace (List.length array - (i + size) + size - 1)%nat with (size - 1)%nat by lia.
        rewrite Nat.div_small by lia.
        replace (List.length array - i + size - 1)%nat
          with (List.length array - i - 1 + 1 * size)%nat by lia.
        rewrite Nat.div_add, Nat.div_small by lia. reflexivity.
    + replace (List.length array - i + size - 1)%nat with (size - 1)%nat by lia.
      rewrite Nat.div_small by lia. reflexivity.
Qed.

(** X4.  For a positive batch size, [createBatches] cuts an array of [n]
    elements into [ceil(n / size)] batches: none for the empty array, and the
    array itself as the only batch when it has no more than [size] elements. *)
Theorem createBatches_count :
  forall (A : Type) (array : list A) (size : nat),
    (0 < size)%nat ->
    List.length (createBatches array size)
    = ((List.length array + size - 1) / size)%nat
    /\ (array = [] -> createBatches array size = [])
    /\ (array <> [] -> (List.length array <= size)%nat ->
        createBatches array size = [array]).
Proof.
  intros A array size Hsize. unfold createBatches. split; [| split].
  - rewrite createBatches_from_count by lia. f_equal. lia.
  - intros ->. reflexivity.
  - intros Hne Hle.
    pose proof (createBatches_from_count array size Hsize (List.length array) 0
                  ltac:(lia)) as Hcount.
    pose proof (createBatches_from_concat array size Hsize (List.length array) 0
                  ltac:(lia)) as Hconcat.
    assert (Hlen : (0 < List.length array)%nat)
      by (destruct array; [now elim Hne | cbn; lia]).
    replace (List.length array - 0 + size - 1)%nat
      with (List.length array - 1 + 1 * size)%nat in Hcount by lia.
    rewrite Nat.div_add, Nat.div_small in Hcount by lia.
    destruct (createBatches_from array size 0 (List.length array)) as [|b [|b' bs]];
      try discriminate.
    cbn in Hconcat. rewrite app_nil_r in Hconcat. now subst b.
Qed.

(** A run of X4: 7 elements in batches of 3. *)
Lemma createBatches_count_witness :
  createBatches [1; 2; 3; 4; 5; 6; 7]%nat 3 = [[1; 2; 3]; [4; 5; 6]; [7]]%nat
  /\ List.length (createBatches [1; 2; 3; 4; 5; 6; 7]%nat 3) = ((7 + 3 - 1) / 3)%nat.
Proof.
  split; [reflexivity |].
  exact (proj1 (createBatches_count nat [1; 2; 3; 4; 5; 6; 7]%nat 3 ltac:(lia))).
Defined.

Lemma attempts_app (e1 e2 : list Event) :
  attempts (e1 ++ e2) = (attempts e1 + attempts e2)%nat.
Proof. unfold attempts. now rewrite filter_app, length_app. Qed.

Lemma batch_step_attempts (env : Env) (i : nat) (batch : list string)
      (acc : list Vector) (st : State) :
  exists evs,
    emitted st (snd (batch_step env i batch acc st)) evs /\ (attempts evs <= 3)%nat.
Proof.
  rewrite batch_step_run.
  destruct (retry_from_last env (params_for (InputBatch batch)) maxRetries 2 0 st eq_refl)
    as (evs & Hev & _ & Hn & _).
  change (retry_from (create env (params_for (InputBatch batch))) maxRetries 0 3)
    with (retryWithBackoff (create env (params_for (InputBatch batch))) maxRetries) in Hev.
  destruct (retryWithBackoff (create env (params_for (InputBatch batch))) maxRetries st)
    as [[[r|]|cause] st1]; cbn [snd] in *.
  - exists evs. split; [exact Hev | lia].
  - exists (evs ++ [EvConsoleError batch_failed_site])%list.
    split; [eapply emitted_trans; [exact Hev | apply emitted_emit] |].
    rewrite attempts_app. cbn. lia.
  - exists (evs ++ [EvConsoleError batch_failed_site])%list.
    split; [eapply emitted_trans; [exact Hev | apply emitted_emit] |].
    rewrite attempts_app. cbn. lia.
Qed.

Lemma batch_loop_attempts (env : Env) :
  forall batches i acc st,
    exists evs,
      emitted st (snd (batch_loop env batches i acc st)) evs
      /\ (attempts evs <= 3 * List.length batches)%nat.
Proof.
  induction batches as [|b batches IH]; intros i acc st; cbn [batch_loop List.length].
  - exists []. split; [apply emitted_refl | cbn; lia].
  - unfold bind.
    destruct (batch_step_attempts env i b acc st) as (ev1 & Hev1 & Hn1).
    destruct (batch_step env i b acc st) as [[acc1 | e] st1]; cbn [snd] in Hev1.
    + destruct (IH (S i) acc1 st1) as (ev2 & Hev2 & Hn2).
      exists (ev1 ++ ev2)%list. split; [eapply emitted_trans; eassumption |].
      rewrite attempts_app. lia.
    + exists ev1. split; [exact Hev1 | lia].
Qed.

(** X3.  [generateBatchEmbeddings] calls the endpoint at most three times per
    batch, so at most [3 * ceil(n / 100)] times for [n] texts; given an empty
    array or a value that is no array it throws its own error and does
    nothing. *)
Theorem generateBatchEmbeddings_attempts :
  forall (env : Env) (arg : TextsArg) (st : State) (evs : list Event),
    emitted st (snd (generateBatchEmbeddings env arg st)) evs ->
    match arg with
    | TextArray (t :: texts) =>
        (attempts evs <= 3 * ((List.length (t :: texts) + 99) / 100))%nat
    | _ =>
        evs = []
        /\ generateBatchEmbeddings env arg st
           = (Throw (new_Error "Invalid texts array for batch embedding generation"), st)
    end.
Proof.
  intros env arg st evs Hevs.
  destruct arg as [|[|t texts]].
  - split; [| reflexivity].
    exact (emitted_inj _ _ _ _ Hevs (emitted_refl st)).
  - split; [| reflexivity].
    exact (emitted_inj _ _ _ _ Hevs (emitted_refl st)).
  - unfold generateBatchEmbeddings in Hevs. cbn [List.length Nat.eqb] in Hevs.
    destruct (batch_loop_attempts env (createBatches (t :: texts) batchSize) 0 [] st)
      as (evs' & Hev & Hn).
    rewrite (emitted_inj _ _ _ _ Hevs Hev).
    unfold createBatches in Hn.
    rewrite (createBatches_from_count (t :: texts) batchSize) in Hn
      by (unfold batchSize; lia).
    change batchSize with 100%nat in Hn.
    replace (List.length (t :: texts) - 0 + 100 - 1)%nat
      with (List.length (t :: texts) + 99)%nat in Hn by lia.
    exact Hn.
Qed.

(** A run of X3: 101 texts, the second batch is tried three times. *)
Lemma generateBatchEmbeddings_attempts_witness :
  attempts (trace (snd (generateBatchEmbeddings answers_once (TextArray (repeat "a" 101))
                                                initial))) = 4%nat
  /\ (4 <= 3 * ((101 + 99) / 100))%nat.
Proof.
  split; [vm_compute; reflexivity |].
  exact (generateBatchEmbeddings_attempts answers_once (TextArray (repeat "a" 101)) initial
           _ eq_refl).
Defined.

End BatchProofs.

Module CosineProofs.
Import Js Runtime EmbeddingService EmbeddingServiceSpec.

Lemma Qmult_swap (x y : Q) : x * y = y * x.
Proof. unfold Qmult. f_equal; [apply Z.mul_comm | apply Pos.mul_comm]. Qed.

Lemma cosine_loop_swap (vecA : Vector) :
  forall vecB dotProduct normA normB d na nb,
    cosine_loop vecA vecB dotProduct normA normB = (d, na, nb) ->
    cosine_loop vecB vecA dotProduct normB normA = (d, nb, na).
Proof.
  induction vecA as [|a vecA IH]; intros [|b vecB] dotProduct normA normB d na nb;
    cbn [cosine_loop]; try (intros [= <- <- <-]; reflexivity).
  intros H. rewrite (Qmult_swap b a). now apply IH.
Qed.

Lemma cosine_loop_self (vec : Vector) :
  forall dotProduct normA normB,
    dotProduct = normA -> normA = normB ->
    exists n, cosine_loop vec vec dotProduct normA normB = (n, n, n).
Proof.
  induction vec as [|a vec IH]; intros dotProduct normA normB -> ->; cbn [cosine_loop].
  - now exists normB.
  - now apply IH.
Qed.

(** X5.  [cosineSimilarity] throws when the vectors differ in length and is
    symmetric otherwise: it ends the same way, with the same number, for
    [(a, b)] and [(b, a)].  A vector whose squared norm is not zero, and has
    the square root the function is given, is at similarity 1 from itself. *)
Theorem cosineSimilarity_symmetric :
  forall (sqrt : Q -> Q) (vecA vecB : Vector),
    cosineSimilarity sqrt vecA vecB = cosineSimilarity sqrt vecB vecA
    /\ (List.length vecA <> List.length vecB ->
        cosineSimilarity sqrt vecA vecB
        = Throw (new_Error "Vectors must have same dimensions"))
    /\ (exists n,
          cosine_loop vecA vecA 0 0 0 = (n, n, n)
          /\ (~ n == 0 -> sqrt n * sqrt n == n ->
              exists c, cosineSimilarity sqrt vecA vecA = Return c /\ c == 1)).
Proof.
  intros sqrt vecA vecB. split; [| split].
  - unfold cosineSimilarity. rewrite (Nat.eqb_sym (List.length vecB)).
    destruct (List.length vecA =? List.length vecB)%nat; [| reflexivity]. cbn [negb].
    destruct (cosine_loop vecA vecB 0 0 0) as [[d na] nb] eqn:Hloop.
    rewrite (cosine_loop_swap _ _ _ _ _ _ _ _ Hloop).
    now rewrite (Qmult_swap (sqrt nb)).
  - intros Hne. unfold cosineSimilarity.
    destruct (Nat.eqb_spec (List.length vecA) (List.length vecB)); [contradiction |].
    reflexivity.
  - destruct (cosine_loop_self vecA 0 0 0 eq_refl eq_refl) as (n & Hloop).
    exists n. split; [exact Hloop |].
    intros Hn Hsqrt. unfold cosineSimilarity.
    rewrite Nat.eqb_refl, Hloop. cbn [negb]. eexists. split; [reflexivity |].
    rewrite Hsqrt. now field.
Qed.

(** A run of X5 on the vector (3, 4), with the square root of 25. *)
Lemma cosineSimilarity_symmetric_witness :
  exists c,
    cosineSimilarity VectorSearchSpec.root [3; 4] [3; 4] = Return c /\ c == 1.
Proof.
  destruct (cosineSimilarity_symmetric VectorSearchSpec.root [3; 4] [3; 4])
    as (_ & _ & n & Hloop & Hself).
  cbn in Hloop. injection Hloop as <-.
  apply Hself; [discriminate | reflexivity].
Defined.

End CosineProofs.

(* ===================================================================== *)
(** * Further properties of VectorSearch                                  *)
(* ===================================================================== *)

Module OrderFacts.
Import VectorSearch.

Section Order.
Context {A : Type} (leb : A -> A -> bool).
Hypothesis leb_total : forall a b, leb a b = false -> leb b a = true.
Hypothesis leb_trans : forall a b c, leb a b = true -> leb b c = true -> leb a c = true.

Lemma insert_sorted_perm (x : A) (rows : list A) :
  Permutation (insert_sorted leb x rows) (x :: rows).
Proof.
  induction rows as [|y rows IH]; cbn [insert_sorted]; [reflexivity |].
  destruct (leb x y); [reflexivity |]. rewrite IH. apply perm_swap.
Qed.

Lemma order_by_perm (rows : list A) : Permutation (order_by leb rows) rows.
Proof.
  induction rows as [|x rows IH]; cbn; [reflexivity |].
  fold (order_by leb rows). now rewrite insert_sorted_perm, IH.
Qed.

Lemma insert_sorted_sorted (x : A) (rows : list A) :
  StronglySorted (fun a b => leb a b = true) rows ->
  StronglySorted (fun a b => leb a b = true) (insert_sorted leb x rows).
Proof.
  induction rows as [|y rows IH]; intros Hs; cbn [insert_sorted].
  - constructor; constructor.
  - inversion Hs as [|? ? Hrows Hall]; subst.
    destruct (leb x y) eqn:Hxy.
    + constructor; [exact Hs |]. constructor; [exact Hxy |].
      eapply Forall_impl; [| exact Hall]. intros z Hz. cbv beta in *. eauto.
    + constructor; [now apply IH |].
      eapply Permutation_Forall; [symmetry; apply insert_sorted_perm |].
      constructor; [now apply leb_total | exact Hall].
Qed.

Lemma order_by_sorted (rows : list A) :
  StronglySorted (fun a b => leb a b = true) (order_by leb rows).
Proof.
  induction rows as [|x rows IH]; cbn; [constructor |].
  now apply insert_sorted_sorted.
Qed.

End Order.

(** In a sorted list, what the first [n] elements leave out comes after them. *)
Lemma sorted_firstn_skipn {A} (R : A -> A -> Prop) (l : list A) :
  StronglySorted R l ->
  forall n x y, In x (firstn n l) -> In y (skipn n l) -> R x y.
Proof.
  induction 1 as [|a l Hs IH Hall]; intros [|n] x y; cbn; try tauto.
  intros [<- | Hx] Hy.
  - rewrite Forall_forall in Hall. apply Hall.
    rewrite <- (firstn_skipn n l). apply in_or_app. now right.
  - eapply IH; eassumption.
Qed.

Lemma firstn_all_perm {A} (n : nat) (l : list A) :
  (List.length (firstn n l) < n)%nat -> firstn n l = l.
Proof.
  intros H. rewrite length_firstn in H. apply firstn_all2. lia.
Qed.

End OrderFacts.

Module RankingProofs.
Import Js Runtime RuntimeNotations VectorSearch VectorSearchSpec.
Import RuntimeFacts VectorSearchProofs OrderFacts.

(** X6.  The results of a search are the best the store has: a stored row
    that passes the conditions of the query (tenant, embedding present,
    document filter, threshold) and is not returned is no more similar than
    any row returned; and when fewer than [topK] rows are returned, every
    such row is returned. *)
Theorem search_returns_best :
  forall (env : Env) (query : Value) (tenantId : option string)
         (options : Options) (st : State) (resp : SearchResponse),
    fst (search env query tenantId options st) = Return resp ->
    exists queryEmbedding rows,
      let p := search_params queryEmbedding tenantId options in
      results resp = map to_result rows
      /\ incl rows (eligible env p)
      /\ (forall other,
            In other (eligible env p) ->
            In other rows
            \/ forall row, In row rows -> row_similarity other <= row_similarity row)
      /\ ((List.length rows < with_default (opt_topK options) defaultTopK)%nat ->
          Permutation rows (eligible env p)).
Proof.
  intros env query tenantId options st resp Hrun.
  apply search_results_rows in Hrun as (q & Hres & _).
  exists q, (run_select env (search_params q tenantId options)). cbv zeta.
  set (p := search_params q tenantId options) in *.
  split; [exact Hres |]. unfold run_select, eligible.
  set (sorted := order_by_distance (filter (above_threshold p) (candidates env p))).
  assert (Hperm : Permutation sorted (filter (above_threshold p) (candidates env p)))
    by apply order_by_distance_perm.
  split; [| split].
  - intros row Hrow. apply in_firstn in Hrow.
    exact (Permutation_in _ Hperm Hrow).
  - intros other Hother.
    apply (Permutation_in _ (Permutation_sym Hperm)) in Hother.
    rewrite <- (firstn_skipn (sel_limit p) sorted) in Hother.
    apply in_app_or in Hother as [Hin | Hout]; [now left | right].
    intros row Hrow.
    exact (sorted_firstn_skipn by_similarity sorted (order_by_distance_sorted _)
                               (sel_limit p) row other Hrow Hout).
  - intros Hfew.
    change (with_default (opt_topK options) defaultTopK) with (sel_limit p) in Hfew.
    rewrite (firstn_all_perm _ _ Hfew). exact Hperm.
Qed.

(** A run of X6: with [topK = 1] the row returned is the more similar one. *)
Lemma search_returns_best_witness :
  exists resp queryEmbedding rows,
    fst (search knowledge_base (Str "return policy") (Some "t1")
                (mkOptions (Some 1%nat) (Some (1 # 2)) None) EmbeddingServiceSpec.initial)
    = Return resp
    /\ results resp = map to_result rows
    /\ List.length (results resp) = 1%nat
    /\ forall other,
         In other (eligible knowledge_base
                            (search_params queryEmbedding (Some "t1")
                                           (mkOptions (Some 1%nat) (Some (1 # 2)) None))) ->
         In other rows
         \/ forall row, In row rows -> row_similarity other <= row_similarity row.
Proof.
  eexists.
  assert (Hrun : fst (search knowledge_base (Str "return policy") (Some "t1")
                             (mkOptions (Some 1%nat) (Some (1 # 2)) None)
                             EmbeddingServiceSpec.initial) = Return _)
    by (vm_compute; reflexivity).
  destruct (search_returns_best _ _ _ _ _ _ Hrun) as (q & rows & Hres & _ & Hbest & _).
  exists q, rows. split; [exact Hrun |]. split; [exact Hres |].
  split; [reflexivity | exact Hbest].
Defined.

End RankingProofs.

Module SearchProofs.
Import Js Runtime RuntimeNotations VectorSearch VectorSearchSpec.
Import EmbeddingServiceSpec RuntimeFacts VectorSearchProofs.

Lemma candidates_row (env : Env) (p : SelectParams) (r : Row) :
  In r (candidates env p) ->
  In (row_chunk r) (chunks env)
  /\ In (row_document r) (documents env)
  /\ doc_id (row_document r) = document_id (row_chunk r)
  /\ (exists v, chunk_embedding (row_chunk r) = Some v
                /\ row_distance r = cosine_distance env v (sel_embedding p))
  /\ sql_any (sel_documents p) (document_id (row_chunk r)) = true.
Proof.
  unfold candidates. intros Hin. apply in_flat_map in Hin as (c & Hc & Hin).
  destruct (chunk_embedding c) as [v|] eqn:Hv; [| contradiction].
  destruct (sql_eq_tenant (tenant_id c) (sel_tenant p)); cbn [andb] in Hin;
    [| contradiction].
  destruct (sql_any (sel_documents p) (document_id c)) eqn:Hany; [| contradiction].
  apply in_map_iff in Hin as (d & <- & Hd). apply filter_In in Hd as [Hd Hjoin].
  apply Nat.eqb_eq in Hjoin. cbn [row_chunk row_document row_distance].
  repeat split; auto. now exists v.
Qed.

(** X7.  An empty [documentIds] array is no filter: the search runs as if the
    option were left out.  With a non-empty array every result is a chunk of
    one of the documents named. *)
Theorem search_document_filter :
  forall (env : Env) (query : Value) (tenantId : option string)
         (topK : option nat) (threshold : option Q) (st : State),
    search env query tenantId (mkOptions topK threshold (Some [])) st
    = search env query tenantId (mkOptions topK threshold None) st
    /\ forall ids resp r,
         ids <> [] ->
         fst (search env query tenantId (mkOptions topK threshold (Some ids)) st)
         = Return resp ->
         In r (results resp) -> In (documentId r) ids.
Proof.
  intros env query tenantId topK threshold st. split; [reflexivity |].
  intros ids resp r Hne Hrun Hin.
  apply search_results_rows in Hrun as (q & Hres & _).
  rewrite Hres in Hin. apply in_map_iff in Hin as (row & <- & Hrow).
  apply run_select_in in Hrow as [Hrow _].
  apply candidates_row in Hrow as (_ & _ & _ & _ & Hany).
  destruct ids as [|d ids]; [now elim Hne |].
  cbn in Hany. cbn [to_result documentId].
  apply orb_true_iff in Hany as [Hany | Hany].
  - left. apply Nat.eqb_eq in Hany. now symmetry.
  - right. apply existsb_exists in Hany as (x & Hx & Heq).
    apply Nat.eqb_eq in Heq. now subst.
Qed.

(** A run of X7: restricted to document 1, the results are chunks of it. *)
Lemma search_document_filter_witness :
  exists resp,
    fst (search shared_store (Str "return policy") (Some "t1")
                (mkOptions None None (Some [1%nat])) initial) = Return resp
    /\ List.length (results resp) = 2%nat
    /\ forall r, In r (results resp) -> In (documentId r) [1%nat].
Proof.
  eexists.
  assert (Hrun : fst (search shared_store (Str "return policy") (Some "t1")
                             (mkOptions None None (Some [1%nat])) initial) = Return _)
    by (vm_compute; reflexivity).
  split; [exact Hrun |]. split; [reflexivity |].
  intros r Hr.
  destruct (search_document_filter shared_store (Str "return policy") (Some "t1")
              None None initial) as (_ & Hfilter).
  exact (Hfilter [1%nat] _ r ltac:(discriminate) Hrun Hr).
Defined.

(** X8.  Every result belongs to a stored chunk that has an embedding and to
    the stored document that chunk points to: its ids, index and text are the
    chunk's, its source is the document's filename, type, date and tags. *)
Theorem search_results_stored :
  forall (env : Env) (query : Value) (tenantId : option string)
         (options : Options) (st : State) (resp : SearchResponse) (r : SearchResult),
    fst (search env query tenantId options st) = Return resp ->
    In r (results resp) ->
    exists c d,
      In c (chunks env) /\ In d (documents env)
      /\ doc_id d = document_id c
      /\ chunk_embedding c <> None
      /\ chunkId r = id c /\ documentId r = document_id c
      /\ chunkIndex r = chunk_index c /\ text r = chunk_text c
      /\ source r = Some (mkSource (Runtime.filename d) (file_type d) (upload_date d)
                                   (Runtime.tags d)).
Proof.
  intros env query tenantId options st resp r Hrun Hin.
  apply search_results_rows in Hrun as (q & Hres & _).
  rewrite Hres in Hin. apply in_map_iff in Hin as (row & <- & Hrow).
  apply run_select_in in Hrow as [Hrow _].
  apply candidates_row in Hrow as (Hc & Hd & Hjoin & (v & Hv & _) & _).
  exists (row_chunk row), (row_document row).
  repeat split; auto. congruence.
Qed.

(** A run of X8: the chunk without an embedding is not among the results. *)
Lemma search_results_stored_witness :
  exists resp,
    fst (search shared_store (Str "return policy") (Some "t1")
                (mkOptions None None None) initial) = Return resp
    /\ map chunkId (results resp) = [11; 10]%nat
    /\ forall r, In r (results resp) ->
                 exists c, In c (chunks shared_store) /\ chunk_embedding c <> None
                           /\ chunkId r = id c.
Proof.
  eexists.
  assert (Hrun : fst (search shared_store (Str "return policy") (Some "t1")
                             (mkOptions None None None) initial) = Return _)
    by (vm_compute; reflexivity).
  split; [exact Hrun |]. split; [reflexivity |].
  intros r Hr.
  destruct (search_results_stored _ _ _ _ _ _ r Hrun Hr)
    as (c & d & Hc & _ & _ & Hv & Hid & _).
  exists c. auto.
Defined.

(** ** What a search leaves behind *)

Lemma inserts_app (e1 e2 : list Event) :
  inserts (e1 ++ e2) = (inserts e1 ++ inserts e2)%list.
Proof. apply flat_map_app. Qed.

Lemma selects_app (e1 e2 : list Event) :
  selects (e1 ++ e2) = (selects e1 ++ selects e2)%list.
Proof. apply flat_map_app. Qed.

Lemma backoff_no_store (p : CreateParams) (i : nat) (evs : list Event) :
  backoff p i evs -> inserts evs = [] /\ selects evs = [].
Proof. induction 1 as [i o | i e rest _ _ IH]; cbn; [split; reflexivity | exact IH]. Qed.

(** [generateEmbedding], step by step. *)
Lemma generateEmbedding_run (env : Env) (text : Value) (st : State) :
  EmbeddingService.generateEmbedding env text st =
    match text with
    | Str s =>
        if String.eqb s ""
        then (Throw (new_Error "Invalid text input for embedding generation"), st)
        else
          match EmbeddingService.retryWithBackoff
                  (create env (EmbeddingService.params_for (InputText s)))
                  EmbeddingService.maxRetries st with
          | (Return (Some r), st1) =>
              match data r with
              | [] =>
                  (Throw (embedding_failed
                            "Cannot read properties of undefined (reading 'embedding')"),
                   emit (EvConsoleError embedding_error_site) st1)
              | item :: _ =>
                  if (List.length (embedding item) =? EmbeddingService.dimensions)%nat
                  then (Return (embedding item), st1)
                  else (Throw (embedding_failed
                                 (EmbeddingService.dimension_message
                                    (List.length (embedding item)))),
                        emit (EvConsoleError embedding_error_site) st1)
              end
          | (Return None, st1) =>
              (Throw (embedding_failed
                        "Cannot read properties of undefined (reading 'data')"),
               emit (EvConsoleError embedding_error_site) st1)
          | (Throw cause, st1) =>
              (Throw (embedding_failed (message cause)),
               emit (EvConsoleError embedding_error_site) st1)
          end
    | _ => (Throw (new_Error "Invalid text input for embedding generation"), st)
    end.
Proof.
  destruct text as [ | | b | q | s | ]; try reflexivity.
  unfold EmbeddingService.generateEmbedding. cbn [truthy is_string negb orb].
  destruct (String.eqb s ""); cbn [negb orb]; [reflexivity |].
  unfold try_catch, bind at 1.
  destruct (EmbeddingService.retryWithBackoff
              (create env (EmbeddingService.params_for (InputText s)))
              EmbeddingService.maxRetries st) as [[[r|]|cause] st1]; try reflexivity.
  unfold EmbeddingService.first_embedding, EmbeddingService.response_data,
    bind, ret, throw, console_error.
  destruct (data r) as [|item rest]; [reflexivity |].
  destruct (List.length (embedding item) =? EmbeddingService.dimensions)%nat; reflexivity.
Qed.

(** [generateEmbedding] touches neither the store, the log nor the clock. *)
Lemma generateEmbedding_no_store (env : Env) (text : Value) (st : State) :
  exists evs,
    emitted st (snd (EmbeddingService.generateEmbedding env text st)) evs
    /\ inserts evs = [] /\ selects evs = []
    /\ query_log (snd (EmbeddingService.generateEmbedding env text st)) = query_log st
    /\ clock_reads (snd (EmbeddingService.generateEmbedding env text st)) = clock_reads st.
Proof.
  rewrite generateEmbedding_run.
  assert (Hnone : exists evs : list Event,
             emitted st st evs /\ inserts evs = [] /\ selects evs = []
             /\ query_log st = query_log st /\ clock_reads st = clock_reads st)
    by (exists []; repeat split; apply emitted_refl).
  destruct text as [ | | b | q | s | ]; try exact Hnone.
  destruct (String.eqb s ""); [exact Hnone |].
  destruct (RetryProofs.retry_from_last env (EmbeddingService.params_for (InputText s))
              3 2 0 st eq_refl) as (evs & Hev & Hb & _ & _).
  pose proof (EmbeddingServiceProofs.retry_from_log env
                (EmbeddingService.params_for (InputText s)) 3 3 0 st) as Hlog.
  pose proof (RetryProofs.retry_from_clock env
                (EmbeddingService.params_for (InputText s)) 3 3 0 st) as Hclock.
  apply backoff_no_store in Hb as [Hins Hsel].
  change (EmbeddingService.retry_from
            (create env (EmbeddingService.params_for (InputText s))) 3 0 3)
    with (EmbeddingService.retryWithBackoff
            (create env (EmbeddingService.params_for (InputText s)))
            EmbeddingService.maxRetries) in Hev, Hlog, Hclock.
  assert (Herr : forall st1 e,
             emitted st st1 evs -> query_log st1 = query_log st ->
             clock_reads st1 = clock_reads st ->
             exists evs',
               emitted st (snd (@Throw Vector e, emit (EvConsoleError embedding_error_site) st1))
                       evs'
               /\ inserts evs' = [] /\ selects evs' = []
               /\ query_log (snd (@Throw Vector e,
                                  emit (EvConsoleError embedding_error_site) st1))
                  = query_log st
               /\ clock_reads (snd (@Throw Vector e,
                                    emit (EvConsoleError embedding_error_site) st1))
                  = clock_reads st).
  { intros st1 e H Hl Hc. exists (evs ++ [EvConsoleError embedding_error_site])%list.
    split; [eapply emitted_trans; [exact H | apply emitted_emit] |].
    rewrite inserts_app, selects_app, Hins, Hsel. repeat split; assumption. }
  destruct (EmbeddingService.retryWithBackoff
              (create env (EmbeddingService.params_for (InputText s)))
              EmbeddingService.maxRetries st) as [[[r|]|cause] st1];
    cbn [snd] in Hev, Hlog, Hclock; try (now apply Herr).
  destruct (data r) as [|item rest]; [now apply Herr |].
  destruct (List.length (embedding item) =? EmbeddingService.dimensions)%nat;
    [| now apply Herr].
  exists evs. repeat split; assumption.
Qed.

(** X9.  A query that is empty or no string makes [search] throw the wrapped
    input error at once: the clock is read, the diagnostic is written, and
    neither the embeddings endpoint nor the store is called. *)
Theorem search_invalid_query :
  forall (env : Env) (query : Value) (tenantId : option string)
         (options : Options) (st : State),
    ~ valid_text query ->
    search env query tenantId options st
    = (Throw (new_Error
                "Semantic search failed: Invalid text input for embedding generation"),
       emit (EvConsoleError search_error_site) (tick st)).
Proof.
  intros env query tenantId options st Hinvalid.
  rewrite search_run, generateEmbedding_run. cbv zeta.
  destruct query as [ | | b | q | s | ]; try reflexivity.
  destruct (String.eqb_spec s "") as [-> | Hne]; [reflexivity |].
  elim Hinvalid. now exists s.
Qed.

(** A run of X9: the empty query. *)
Lemma search_invalid_query_witness :
  trace (snd (search knowledge_base (Str "") (Some "t1") (mkOptions None None None)
                     initial))
  = [EvConsoleError search_error_site].
Proof.
  rewrite (search_invalid_query knowledge_base (Str "") (Some "t1")
             (mkOptions None None None) initial).
  - reflexivity.
  - intros (s & Hs & Hne). inversion Hs; subst. now apply Hne.
Defined.

Lemma tick_emitted (st : State) : emitted st (tick st) [].
Proof. unfold emitted, tick. cbn [trace]. now rewrite app_nil_r. Qed.

(** X10.  A search that throws has not written to the query log and has not
    tried to: no INSERT is among its effects.  It has sent at most one SELECT,
    and one only when it is the SELECT that failed. *)
Theorem search_failure_not_logged :
  forall (env : Env) (query : Value) (tenantId : option string)
         (options : Options) (st : State) (e : Error) (evs : list Event),
    fst (search env query tenantId options st) = Throw e ->
    emitted st (snd (search env query tenantId options st)) evs ->
    inserts evs = []
    /\ query_log (snd (search env query tenantId options st)) = query_log st
    /\ (selects evs = []
        \/ exists p cause, selects evs = [p] /\ select_error env = Some cause
                           /\ e = search_failed cause).
Proof.
  intros env query tenantId options st e evs. rewrite search_run. cbv zeta.
  destruct (generateEmbedding_no_store env query (tick st))
    as (ev1 & Hev1 & Hins1 & Hsel1 & Hlog1 & _).
  pose proof (emitted_trans _ _ _ _ _ (tick_emitted st) Hev1) as Hev. cbn [app] in Hev.
  destruct (EmbeddingService.generateEmbedding env query (tick st))
    as [[queryEmbedding | cause] st1]; cbn [snd] in Hev, Hlog1.
  - destruct (select_error env) as [cause|]; [| discriminate].
    cbn [fst snd]. intros [= <-] Hevs.
    set (p := search_params queryEmbedding tenantId options) in *.
    assert (Hfull : emitted st (emit (EvConsoleError search_error_site)
                                     (emit (EvSelect p) st1))
                            (ev1 ++ [EvSelect p; EvConsoleError search_error_site])).
    { eapply emitted_trans; [exact Hev |].
      unfold emitted, emit. cbn [trace]. now rewrite <- app_assoc. }
    rewrite (emitted_inj _ _ _ _ Hevs Hfull), inserts_app, selects_app, Hins1, Hsel1.
    split; [reflexivity |]. split; [exact Hlog1 |].
    right. now exists p, cause.
  - cbn [fst snd]. intros _ Hevs.
    assert (Hfull : emitted st (emit (EvConsoleError search_error_site) st1)
                            (ev1 ++ [EvConsoleError search_error_site]))
      by (eapply emitted_trans; [exact Hev | apply emitted_emit]).
    rewrite (emitted_inj _ _ _ _ Hevs Hfull), inserts_app, selects_app, Hins1, Hsel1.
    split; [reflexivity |]. split; [exact Hlog1 | now left].
Qed.

(** A run of X10: the endpoint is unavailable at each of the three attempts. *)
Lemma search_failure_not_logged_witness :
  let env := with_insert_error answers_once None in
  let run := search env (Str "q") (Some "t1") (mkOptions None None None)
                    (mkState 1 0 [] []) in
  (exists e, fst run = Throw e)
  /\ inserts (trace (snd run)) = [] /\ query_log (snd run) = [].
Proof.
  cbv zeta.
  assert (Hrun : fst (search (with_insert_error answers_once None) (Str "q") (Some "t1")
                             (mkOptions None None None) (mkState 1 0 [] [])) = Throw _)
    by (vm_compute; reflexivity).
  destruct (search_failure_not_logged _ _ _ _ _ _ _ Hrun eq_refl) as (Hins & Hlog & _).
  split; [eexists; exact Hrun |]. split; [exact Hins | exact Hlog].
Defined.

(** X11.  A search that returns has sent one SELECT, with the tenant it was
    given, and has tried one INSERT into the query log: the row holds the
    tenant, the query, the number of results and the response time it
    returns, and neither agent type nor conversation.  The response time is
    the difference of the two readings of the clock; the row is in the log
    unless the INSERT failed. *)
Theorem search_logs_its_result :
  forall (env : Env) (query : Value) (tenantId : option string)
         (options : Options) (st : State) (resp : SearchResponse) (evs : list Event),
    fst (search env query tenantId options st) = Return resp ->
    emitted st (snd (search env query tenantId options st)) evs ->
    let row := mkLogRow tenantId query (count resp) (responseTimeMs resp) None None in
    inserts evs = [row]
    /\ (exists queryEmbedding,
          selects evs = [search_params queryEmbedding tenantId options])
    /\ count resp = List.length (results resp)
    /\ responseTimeMs resp
       = (clock env (S (clock_reads st)) - clock env (clock_reads st))%Z
    /\ query_log (snd (search env query tenantId options st))
       = match insert_error env with
         | None => (query_log st ++ [row])%list
         | Some _ => query_log st
         end.
Proof.
  intros env query tenantId options st resp evs. rewrite search_run. cbv zeta.
  destruct (generateEmbedding_no_store env query (tick st))
    as (ev1 & Hev1 & Hins1 & Hsel1 & Hlog1 & Hclock1).
  pose proof (emitted_trans _ _ _ _ _ (tick_emitted st) Hev1) as Hev. cbn [app] in Hev.
  destruct (EmbeddingService.generateEmbedding env query (tick st))
    as [[queryEmbedding | cause] st1]; cbn [snd] in Hev, Hlog1, Hclock1;
    [| discriminate].
  destruct (select_error env) as [cause|]; [discriminate |].
  cbn [fst snd]. intros [= <-] Hevs.
  cbn [count responseTimeMs results emit clock_reads tick].
  set (p := search_params queryEmbedding tenantId options) in *.
  set (row := mkLogRow _ _ _ _ _ _) in *.
  assert (Hfull : exists tail,
             emitted st
               match insert_error env with
               | Some _ => emit (EvConsoleError log_error_site)
                                (emit (EvInsert row) (tick (emit (EvSelect p) st1)))
               | None =>
                   mkState
                     (upstream_calls (emit (EvInsert row) (tick (emit (EvSelect p) st1))))
                     (clock_reads (emit (EvInsert row) (tick (emit (EvSelect p) st1))))
                     (query_log (emit (EvInsert row) (tick (emit (EvSelect p) st1)))
                        ++ [row])
                     (trace (emit (EvInsert row) (tick (emit (EvSelect p) st1))))
               end
               (ev1 ++ [EvSelect p; EvInsert row] ++ tail)
             /\ inserts tail = [] /\ selects tail = []).
  { destruct (insert_error env).
    - exists [EvConsoleError log_error_site]. split; [| split; reflexivity].
      eapply emitted_trans; [exact Hev |].
      unfold emitted, emit, tick. cbn [trace]. now rewrite <- !app_assoc.
    - exists []. split; [| split; reflexivity].
      eapply emitted_trans; [exact Hev |].
      unfold emitted, emit, tick. cbn [trace]. now rewrite <- !app_assoc. }
  destruct Hfull as (tail & Hfull & Hti & Hts).
  rewrite (emitted_inj _ _ _ _ Hevs Hfull).
  rewrite !inserts_app, !selects_app, Hins1, Hsel1, Hti, Hts. cbn [app inserts selects flat_map].
  split; [reflexivity |]. split; [now exists queryEmbedding |].
  split; [reflexivity |]. split.
  - rewrite Hclock1. reflexivity.
  - destruct (insert_error env); unfold emit, tick; cbn [query_log]; now rewrite Hlog1.
Qed.

(** A run of X11 on the knowledge base: two results, 25 ms. *)
Lemma search_logs_its_result_witness :
  query_log (snd (search knowledge_base (Str "return policy") (Some "t1")
                         (mkOptions None None None) initial))
  = [mkLogRow (Some "t1") (Str "return policy") 2 25 None None].
Proof.
  assert (Hrun : fst (search knowledge_base (Str "return policy") (Some "t1")
                             (mkOptions None None None) initial) = Return _)
    by (vm_compute; reflexivity).
  destruct (search_logs_its_result _ _ _ _ _ _ _ Hrun eq_refl) as (_ & _ & _ & _ & Hlog).
  rewrite Hlog. reflexivity.
Defined.

End SearchProofs.

Module SimilarChunksProofs.
Import Js Runtime VectorSearch VectorSearchSpec OrderFacts VectorSearchProofs.

Lemma closer_total (a b : ChunkRow * Q) : closer a b = false -> closer b a = true.
Proof.
  unfold closer. intros H. apply Qle_bool_iff.
  destruct (Qlt_le_dec (snd b) (snd a)) as [Hlt | Hge]; [now apply Qlt_le_weak |].
  apply Qle_bool_iff in Hge. congruence.
Qed.

Lemma closer_trans (a b c : ChunkRow * Q) :
  closer a b = true -> closer b c = true -> closer a c = true.
Proof.
  unfold closer. rewrite !Qle_bool_iff. intros H1 H2. now apply Qle_trans with (snd b).
Qed.

Lemma filter_head_find {A} (f : A -> bool) (l : list A) :
  find f l = match filter f l with [] => None | x :: _ => Some x end.
Proof.
  induction l as [|x l IH]; [reflexivity |]. cbn. now destruct (f x).
Qed.

Lemma other_chunks_in (env : Env) (embedding : Vector) (tenant : option string)
      (chunkId : nat) (row : ChunkRow * Q) :
  In row (other_chunks env embedding tenant chunkId) ->
  In (fst row) (chunks env)
  /\ chunk_embedding (fst row) <> None
  /\ id (fst row) <> chunkId
  /\ exists t, tenant = Some t /\ tenant_id (fst row) = Some t.
Proof.
  unfold other_chunks. intros Hin. apply in_flat_map in Hin as (c & Hc & Hin).
  destruct (chunk_embedding c) as [v|] eqn:Hv; [| contradiction].
  destruct (sql_eq_tenant (tenant_id c) tenant) eqn:Ht; cbn [andb] in Hin;
    [| contradiction].
  destruct (Nat.eqb_spec (id c) chunkId) as [Heq | Hne]; cbn [negb] in Hin;
    [contradiction |].
  destruct Hin as [<- | []]. cbn [fst].
  split; [exact Hc |]. split; [congruence |]. split; [exact Hne |].
  unfold sql_eq_tenant in Ht.
  destruct (tenant_id c) as [a|], tenant as [b|]; try discriminate.
  apply String.eqb_eq in Ht; subst. now exists b.
Qed.

(** X12.  [findSimilarChunks] throws "Chunk not found" when no stored chunk
    has the id, and "Chunk has no embedding" when the chunk found has none; in
    both cases the similarity query is not sent. *)
Theorem findSimilarChunks_not_found :
  forall (env : Env) (faults : Faults) (chunkId : nat) (topK : option nat),
    first_query_error faults = None ->
    match find (fun c => (id c =? chunkId)%nat) (chunks env) with
    | None =>
        findSimilarChunks env faults chunkId topK
        = (Throw (new_Error ("Chunk not found: " ++ show_nat chunkId)),
           [QueryChunk chunkId])
    | Some c =>
        chunk_embedding c = None ->
        findSimilarChunks env faults chunkId topK
        = (Throw (new_Error "Chunk has no embedding"), [QueryChunk chunkId])
    end.
Proof.
  intros env faults chunkId topK Hfault. unfold findSimilarChunks.
  rewrite Hfault, filter_head_find. cbv zeta.
  destruct (filter (fun c => (id c =? chunkId)%nat) (chunks env)) as [|c rest];
    [reflexivity |].
  intros ->. reflexivity.
Qed.

(** A run of X12: chunk 99 is not stored, chunk 12 has no embedding. *)
Lemma findSimilarChunks_not_found_witness :
  findSimilarChunks shared_store no_faults 99 None
  = (Throw (new_Error "Chunk not found: 99"), [QueryChunk 99])
  /\ findSimilarChunks shared_store no_faults 12 None
     = (Throw (new_Error "Chunk has no embedding"), [QueryChunk 12]).
Proof.
  split.
  - exact (findSimilarChunks_not_found shared_store no_faults 99 None eq_refl).
  - exact (findSimilarChunks_not_found shared_store no_faults 12 None eq_refl eq_refl).
Defined.

Lemma to_similar_sorted (rows : list (ChunkRow * Q)) :
  StronglySorted (fun a b => closer a b = true) rows ->
  StronglySorted (fun a b => similar_similarity b <= similar_similarity a)
                 (map to_similar rows).
Proof.
  induction 1 as [|r rows Hrows IH Hall]; cbn [map]; constructor; [exact IH |].
  apply Forall_map. eapply Forall_impl; [| exact Hall].
  intros r' Hr'. unfold to_similar. cbn [similar_similarity].
  apply RoundingFacts.parseFloat_toFixed_mono.
  unfold closer in Hr'. apply Qle_bool_iff in Hr'.
  apply Qplus_le_r. now apply Qopp_le_compat.
Qed.

(** X13.  What [findSimilarChunks] returns: at most [topK] chunks (5 when not
    given), in descending order of reported similarity, never the chunk asked
    about, each a stored chunk with an embedding and of the same tenant as the
    chunk asked about. *)
Theorem findSimilarChunks_results :
  forall (env : Env) (faults : Faults) (chunkId : nat) (topK : option nat)
         (found : list SimilarChunk),
    fst (findSimilarChunks env faults chunkId topK) = Return found ->
    exists origin,
      find (fun c => (id c =? chunkId)%nat) (chunks env) = Some origin
      /\ (List.length found <= with_default topK 5)%nat
      /\ StronglySorted (fun a b => similar_similarity b <= similar_similarity a) found
      /\ forall r,
           In r found ->
           similar_chunkId r <> chunkId
           /\ exists c,
                In c (chunks env) /\ id c = similar_chunkId r
                /\ chunk_embedding c <> None
                /\ tenant_id c = tenant_id origin /\ tenant_id c <> None.
Proof.
  intros env faults chunkId topK found. unfold findSimilarChunks.
  rewrite filter_head_find. cbv zeta.
  destruct (first_query_error faults); [discriminate |].
  destruct (filter (fun c => (id c =? chunkId)%nat) (chunks env)) as [|origin rest];
    [discriminate |].
  destruct (chunk_embedding origin) as [embedding|]; [| discriminate].
  destruct (second_query_error faults); [discriminate |].
  cbn [fst]. intros [= <-]. exists origin. split; [reflexivity |].
  unfold select_similar. split; [| split].
  - rewrite length_map, length_firstn. lia.
  - apply to_similar_sorted, firstn_sorted.
    apply (order_by_sorted closer closer_total closer_trans).
  - intros r Hr. apply in_map_iff in Hr as (row & <- & Hrow).
    apply in_firstn in Hrow.
    apply (Permutation_in _ (order_by_perm closer _)) in Hrow.
    apply other_chunks_in in Hrow as (Hc & Hv & Hid & t & Ht & Hct).
    cbn [to_similar similar_chunkId]. split; [exact Hid |].
    exists (fst row). repeat split; auto; congruence.
Qed.

(** A run of X13: the one other embedded chunk of tenant t1. *)
Lemma findSimilarChunks_results_witness :
  exists found,
    fst (findSimilarChunks shared_store no_faults 11 None) = Return found
    /\ map similar_chunkId found = [10%nat]
    /\ forall r, In r found -> similar_chunkId r <> 11%nat.
Proof.
  eexists.
  assert (Hrun : fst (findSimilarChunks shared_store no_faults 11 None) = Return _)
    by (vm_compute; reflexivity).
  split; [exact Hrun |]. split; [reflexivity |].
  destruct (findSimilarChunks_results _ _ _ _ _ Hrun) as (origin & _ & _ & _ & Hall).
  intros r Hr. exact (proj1 (Hall r Hr)).
Defined.

End SimilarChunksProofs.

Module AnalyticsProofs.
Import Js Runtime VectorSearch VectorSearchSpec OrderFacts VectorSearchProofs.

Lemma newer_total (a b : StoredLog) : newer a b = false -> newer b a = true.
Proof. unfold newer. rewrite Z.leb_gt, Z.leb_le. lia. Qed.

Lemma newer_trans (a b c : StoredLog) :
  newer a b = true -> newer b c = true -> newer a c = true.
Proof. unfold newer. rewrite !Z.leb_le. lia. Qed.

Lemma log_where_true (tenantId : option string) (startDate endDate : option Z)
      (agentType : option string) (r : StoredLog) :
  log_where tenantId startDate endDate agentType r = true ->
  (exists t, tenantId = Some t /\ log_tenant_id (stored_row r) = Some t)
  /\ (forall d, startDate = Some d -> (d <= created_at r)%Z)
  /\ (forall d, endDate = Some d -> (created_at r <= d)%Z)
  /\ (forall a, agentType = Some a -> agent_type (stored_row r) = Some a).
Proof.
  unfold log_where. rewrite !andb_true_iff. intros [[[Ht Hs] He] Ha].
  split; [| split; [| split]].
  - unfold sql_eq_tenant in Ht.
    destruct (log_tenant_id (stored_row r)) as [a|], tenantId as [b|]; try discriminate.
    apply String.eqb_eq in Ht; subst. now exists b.
  - intros d ->. now apply Z.leb_le.
  - intros d ->. now apply Z.leb_le.
  - intros a ->. destruct (agent_type (stored_row r)) as [b|]; [| discriminate].
    apply String.eqb_eq in Ha. now subst.
Qed.

(** X14.  [getQueryAnalytics] returns at most [limit] rows (100 when not
    given), newest first, each a stored row of the tenant asked for, created
    within the dates given and, when a non-empty agent type is given, of that
    agent type; a matching row left out is no newer than any row returned. *)
Theorem getQueryAnalytics_rows :
  forall (log : list StoredLog) (tenantId : option string)
         (options : AnalyticsOptions) (rows : list AnalyticsRow),
    getQueryAnalytics None log tenantId options = Return rows ->
    (List.length rows <= with_default (opt_limit options) 100)%nat
    /\ StronglySorted (fun a b => (out_created_at b <= out_created_at a)%Z) rows
    /\ (forall row,
          In row rows ->
          exists r,
            In r log /\ row = to_analytics r
            /\ (exists t, tenantId = Some t /\ log_tenant_id (stored_row r) = Some t)
            /\ (forall d, opt_startDate options = Some d -> (d <= created_at r)%Z)
            /\ (forall d, opt_endDate options = Some d -> (created_at r <= d)%Z)
            /\ (forall a, opt_agentType options = Some a -> a <> "" ->
                          agent_type (stored_row r) = Some a))
    /\ (forall r,
          In r log ->
          log_where tenantId (opt_startDate options) (opt_endDate options)
                    (agent_filter (opt_agentType options)) r = true ->
          In (to_analytics r) rows
          \/ forall row, In row rows -> (created_at r <= out_created_at row)%Z).
Proof.
  intros log tenantId options rows. unfold getQueryAnalytics. cbv zeta.
  intros [= <-].
  set (limit := with_default (opt_limit options) 100%nat).
  set (matching := filter _ log).
  assert (Hsorted : StronglySorted (fun a b => newer a b = true) (order_by newer matching))
    by apply (order_by_sorted newer newer_total newer_trans).
  split; [| split; [| split]].
  - rewrite length_map, length_firstn. lia.
  - apply (firstn_sorted _ limit) in Hsorted.
    induction Hsorted as [|r rs Hrs IH Hall]; cbn [map]; constructor; [exact IH |].
    apply Forall_map. eapply Forall_impl; [| exact Hall].
    intros r' Hr'. unfold newer in Hr'. now apply Z.leb_le in Hr'.
  - intros row Hrow. apply in_map_iff in Hrow as (r & <- & Hr).
    apply in_firstn in Hr. apply (Permutation_in _ (order_by_perm newer _)) in Hr.
    apply filter_In in Hr as [Hr Hwhere].
    apply log_where_true in Hwhere as (Ht & Hs & He & Ha).
    exists r. repeat split; auto.
    intros a Hopt Hne. apply Ha. unfold agent_filter. rewrite Hopt.
    destruct (String.eqb_spec a ""); [contradiction | reflexivity].
  - intros r Hr Hwhere.
    assert (Hin : In r (order_by newer matching)).
    { apply (Permutation_in _ (Permutation_sym (order_by_perm newer _))).
      apply filter_In. now split. }
    rewrite <- (firstn_skipn limit (order_by newer matching)) in Hin.
    apply in_app_or in Hin as [Hin | Hout].
    + left. now apply in_map.
    + right. intros row Hrow. apply in_map_iff in Hrow as (r' & <- & Hr').
      pose proof (sorted_firstn_skipn _ _ Hsorted limit r' r Hr' Hout) as Hnewer.
      unfold newer in Hnewer. now apply Z.leb_le in Hnewer.
Qed.

(** A run of X14: the two newest queries of t1. *)
Lemma getQueryAnalytics_rows_witness :
  exists rows,
    getQueryAnalytics None stored_log (Some "t1")
                      (mkAnalyticsOptions (Some 2%nat) None None (Some "")) = Return rows
    /\ map out_created_at rows = [3000; 2500]%Z
    /\ (List.length rows <= 2)%nat.
Proof.
  eexists.
  assert (Hrun : getQueryAnalytics None stored_log (Some "t1")
                   (mkAnalyticsOptions (Some 2%nat) None None (Some "")) = Return _)
    by reflexivity.
  split; [exact Hrun |]. split; [reflexivity |].
  exact (proj1 (getQueryAnalytics_rows _ _ _ _ Hrun)).
Defined.

(** ** The aggregates *)

Lemma fold_min_bounds (v : Z) (rest : list Z) :
  Forall (fun x => (fold_right Z.min v rest <= x)%Z) (v :: rest).
Proof.
  induction rest as [|y rest IH]; cbn [fold_right].
  - constructor; [lia | constructor].
  - inversion IH as [|? ? Hv Hrest]; subst.
    constructor; [lia |]. constructor; [lia |].
    eapply Forall_impl; [| exact Hrest]. intros x Hx. cbv beta in *. lia.
Qed.

Lemma fold_max_bounds (v : Z) (rest : list Z) :
  Forall (fun x => (x <= fold_right Z.max v rest)%Z) (v :: rest).
Proof.
  induction rest as [|y rest IH]; cbn [fold_right].
  - constructor; [lia | constructor].
  - inversion IH as [|? ? Hv Hrest]; subst.
    constructor; [lia |]. constructor; [lia |].
    eapply Forall_impl; [| exact Hrest]. intros x Hx. cbv beta in *. lia.
Qed.

Lemma sum_bounds (lo hi : Z) (values : list Z) :
  Forall (fun x => (lo <= x <= hi)%Z) values ->
  (Z.of_nat (List.length values) * lo <= fold_right Z.add 0 values
   <= Z.of_nat (List.length values) * hi)%Z.
Proof.
  induction 1 as [|x values Hx _ IH]; cbn [fold_right List.length]; [lia |].
  rewrite Nat2Z.inj_succ. lia.
Qed.

Lemma sql_avg_between (values : list Z) (lo hi : Z) (avg : Q) :
  sql_min values = Some lo -> sql_max values = Some hi -> sql_avg values = Some avg ->
  inject_Z lo <= avg /\ avg <= inject_Z hi.
Proof.
  destruct values as [|v rest]; [discriminate |].
  cbn [sql_min sql_max sql_avg]. intros [= <-] [= <-] [= <-].
  set (values := v :: rest).
  pose proof (fold_min_bounds v rest) as Hmin.
  pose proof (fold_max_bounds v rest) as Hmax.
  assert (Hall : Forall (fun x => (fold_right Z.min v rest <= x
                                   <= fold_right Z.max v rest)%Z) values).
  { rewrite Forall_forall in *. intros x Hx. split; [now apply Hmin | now apply Hmax]. }
  apply sum_bounds in Hall.
  assert (Hn : 0 < inject_Z (Z.of_nat (List.length values))).
  { change 0 with (inject_Z 0). rewrite <- Zlt_Qlt. subst values. cbn [List.length]. lia. }
  subst values. cbn [List.length fold_right Z.of_nat] in Hall. split.
  - apply Qle_shift_div_l; [exact Hn |].
    rewrite <- inject_Z_mult, <- Zle_Qle. cbn [List.length fold_right Z.of_nat]. lia.
  - apply Qle_shift_div_r; [exact Hn |].
    rewrite <- inject_Z_mult, <- Zle_Qle. cbn [List.length fold_right Z.of_nat]. lia.
Qed.

(** X15.  [getQueryStatistics] counts the stored rows of the tenant within
    the dates given.  Over no row the averages and extrema are NULL and no
    day is active; otherwise the least response time is at most the average,
    which is at most the greatest, and the active days are between one and
    the number of queries.  Without a tenant nothing is counted. *)
Theorem getQueryStatistics_consistent :
  forall (sql_date : Z -> Z) (log : list StoredLog) (tenantId : option string)
         (startDate endDate : option Z) (stats : Statistics),
    getQueryStatistics sql_date None log tenantId startDate endDate = Return stats ->
    total_queries stats
    = List.length (filter (log_where tenantId startDate endDate None) log)
    /\ (tenantId = None -> total_queries stats = 0%nat)
    /\ (total_queries stats = 0%nat ->
        avg_results stats = None /\ avg_response_time_ms stats = None
        /\ max_response_time_ms stats = None /\ min_response_time_ms stats = None
        /\ days_active stats = 0%nat)
    /\ ((0 < total_queries stats)%nat ->
        (1 <= days_active stats <= total_queries stats)%nat
        /\ exists lo avg hi,
             min_response_time_ms stats = Some lo
             /\ avg_response_time_ms stats = Some avg
             /\ max_response_time_ms stats = Some hi
             /\ inject_Z lo <= avg /\ avg <= inject_Z hi).
Proof.
  intros sql_date log tenantId startDate endDate stats.
  unfold getQueryStatistics. cbv zeta. intros [= <-].
  cbn [total_queries avg_results avg_response_time_ms max_response_time_ms
       min_response_time_ms days_active].
  set (rows := filter (log_where tenantId startDate endDate None) log).
  split; [reflexivity |]. split; [| split].
  - intros ->. subst rows.
    induction log as [|r log IH]; [reflexivity |]. cbn [filter].
    replace (log_where None startDate endDate None r) with false; [exact IH |].
    unfold log_where, sql_eq_tenant. now destruct (log_tenant_id (stored_row r)).
  - intros Hzero. destruct rows; [repeat split | discriminate].
  - intros Hpos. destruct rows as [|r rows']; [cbn in Hpos; lia |].
    split.
    + split.
      * cbn [map nodup]. destruct (in_dec Z.eq_dec _ _) as [Hin | Hout].
        -- assert (Hne : nodup Z.eq_dec (map (fun r0 => sql_date (created_at r0)) rows')
                         <> []).
           { intros Hnil. apply (nodup_In Z.eq_dec) in Hin. rewrite Hnil in Hin.
             contradiction. }
           destruct (nodup Z.eq_dec (map (fun r0 => sql_date (created_at r0)) rows'));
             [now elim Hne | cbn; lia].
        -- cbn [List.length]. lia.
      * set (days := map (fun r0 => sql_date (created_at r0)) (r :: rows')).
        replace (List.length (r :: rows')) with (List.length days)
          by apply length_map.
        apply NoDup_incl_length; [apply NoDup_nodup |].
        intros x Hx. exact (proj1 (nodup_In Z.eq_dec days x) Hx).
    + set (times := map (fun r0 => response_time_ms (stored_row r0)) (r :: rows')).
      destruct (sql_min times) as [lo|] eqn:Hlo; [| discriminate].
      destruct (sql_max times) as [hi|] eqn:Hhi; [| discriminate].
      destruct (sql_avg times) as [avg|] eqn:Havg; [| discriminate].
      exists lo, avg, hi. repeat split; try reflexivity;
        now apply (sql_avg_between times lo hi avg).
Qed.

(** A run of X15: the three queries of t1 took 30, 50 and 40 ms. *)
Lemma getQueryStatistics_consistent_witness :
  exists stats,
    getQueryStatistics (fun t => (t / 1000)%Z) None stored_log (Some "t1") None None
    = Return stats
    /\ total_queries stats = 3%nat
    /\ min_response_time_ms stats = Some 30%Z
    /\ max_response_time_ms stats = Some 50%Z
    /\ (1 <= days_active stats <= total_queries stats)%nat.
Proof.
  eexists.
  assert (Hrun : getQueryStatistics (fun t => (t / 1000)%Z) None stored_log (Some "t1")
                                    None None = Return _) by reflexivity.
  split; [exact Hrun |]. split; [reflexivity |]. split; [reflexivity |].
  split; [reflexivity |].
  destruct (getQueryStatistics_consistent _ _ _ _ _ _ Hrun) as (_ & _ & _ & Hpos).
  exact (proj1 (Hpos ltac:(cbn; lia))).
Defined.

End AnalyticsProofs.

(* ===================================================================== *)
(** * Further properties of LLMPromptBuilder                              *)
(* ===================================================================== *)

Module PromptProofs.
Import Js VectorSearch LLMPromptBuilder LLMPromptBuilderSpec JsFacts.
Import LLMPromptBuilderProofs.

(** ** The cached system prompt *)

Lemma system_prompt_not_empty : LLM_SYSTEM_PROMPT <> "".
Proof.
  intros H. apply (f_equal String.length) in H.
  vm_compute in H. discriminate.
Qed.

(** X18.  [getSystemPrompt] fills the cache once: what it returns is never
    empty and is what the cache holds afterwards, a filled cache is returned
    as it is, and an empty one is filled with the built-in text; asking again
    with the cache it left gives the same answer. *)
Theorem getSystemPrompt_cached :
  forall (cache : option string),
    let '(text, cache') := getSystemPrompt cache in
    text <> "" /\ cache' = Some text
    /\ getSystemPrompt cache' = (text, cache')
    /\ (forall cached, cache = Some cached -> cached <> "" -> text = cached)
    /\ (cache = None \/ cache = Some "" -> text = LLM_SYSTEM_PROMPT).
Proof.
  intros cache. unfold getSystemPrompt.
  destruct cache as [cached|].
  - destruct (String.eqb_spec cached "") as [-> | Hne]; cbn [negb].
    + split; [exact system_prompt_not_empty |]. split; [reflexivity |].
      split; [| split; [intros c [= <-] Hc; now elim Hc | reflexivity]].
      destruct (String.eqb_spec LLM_SYSTEM_PROMPT "") as [He | _]; [| reflexivity].
      now elim system_prompt_not_empty.
    + split; [exact Hne |]. split; [reflexivity |].
      split; [| split; [now intros c [= <-] | intros [H | H]; congruence]].
      destruct (String.eqb_spec cached ""); [contradiction | reflexivity].
  - split; [exact system_prompt_not_empty |]. split; [reflexivity |].
    split; [| split; [discriminate | reflexivity]].
    destruct (String.eqb_spec LLM_SYSTEM_PROMPT "") as [He | _]; [| reflexivity].
    now elim system_prompt_not_empty.
Qed.

(** ** The persona *)

(** X20.  The persona block opens with the role heading and the agent's name
    whatever the agent type; an agent type other than voice, chat and crm gets
    the generic sentence; non-empty custom instructions are added word for
    word, under their heading, after the block built without them, and empty
    ones change nothing. *)
Theorem buildAgentInstructions_shape :
  forall (agentType agentName : string) (customInstructions : option string),
    (exists rest,
       buildAgentInstructions agentType agentName customInstructions
       = nl ++ "# AGENT ROLE" ++ nl ++ nl ++ "You are " ++ agentName ++ ", an AI " ++ rest)
    /\ (agentType <> "voice" -> agentType <> "chat" -> agentType <> "crm" ->
        buildAgentInstructions agentType agentName None
        = nl ++ "# AGENT ROLE" ++ nl ++ nl ++ "You are " ++ agentName
             ++ ", an AI assistant." ++ nl ++ nl)
    /\ (forall custom,
          customInstructions = Some custom -> custom <> "" ->
          buildAgentInstructions agentType agentName customInstructions
          = buildAgentInstructions agentType agentName None
              ++ "## Additional Instructions" ++ nl ++ nl ++ custom ++ nl ++ nl)
    /\ buildAgentInstructions agentType agentName (Some "")
       = buildAgentInstructions agentType agentName None.
Proof.
  intros agentType agentName customInstructions. split; [| split; [| split]].
  - unfold buildAgentInstructions. cbv zeta.
    destruct (agentType =? "voice"); [| destruct (agentType =? "chat");
                                        [| destruct (agentType =? "crm")]];
      (destruct customInstructions as [custom|];
       [destruct (negb (custom =? "")) |]);
      eexists; rewrite ?append_assoc; cbn [append]; rewrite ?append_assoc;
      repeat f_equal; reflexivity.
  - intros Hv Hc Hm. unfold buildAgentInstructions. cbv zeta.
    destruct (String.eqb_spec agentType "voice"); [contradiction |].
    destruct (String.eqb_spec agentType "chat"); [contradiction |].
    destruct (String.eqb_spec agentType "crm"); [contradiction |].
    rewrite ?append_assoc. reflexivity.
  - intros custom -> Hne. unfold buildAgentInstructions. cbv zeta.
    destruct (String.eqb_spec custom ""); [contradiction |]. cbn [negb].
    reflexivity.
  - unfold buildAgentInstructions. cbv zeta. reflexivity.
Qed.

(** A run of X20: an agent type that is not known, with custom instructions. *)
Lemma buildAgentInstructions_shape_witness :
  buildAgentInstructions "email" "Ava" (Some "Be brief.")
  = (nl ++ "# AGENT ROLE" ++ nl ++ nl ++ "You are " ++ "Ava" ++ ", an AI assistant."
        ++ nl ++ nl)
      ++ "## Additional Instructions" ++ nl ++ nl ++ "Be brief." ++ nl ++ nl.
Proof.
  destruct (buildAgentInstructions_shape "email" "Ava" (Some "Be brief."))
    as (_ & Hgeneric & Hcustom & _).
  rewrite (Hcustom "Be brief." eq_refl ltac:(discriminate)).
  rewrite Hgeneric by discriminate. reflexivity.
Defined.

(** ** The assembled prompt *)

Lemma forEach_message_render (history : list Message) :
  forall section, forEach_message history section = section ++ render_messages history.
Proof.
  induction history as [|msg rest IH]; intros section;
    cbn [forEach_message render_messages].
  - now rewrite append_nil_r.
  - rewrite IH. unfold render_message. now rewrite !append_assoc.
Qed.

(** The text [buildPrompt] returns begins with the system prompt, the context
    and the persona. *)
Lemma buildPrompt_text (iso_date : Z -> string) (cache : option string)
      (options : PromptOptions) :
  exists history query,
    prompt (fst (buildPrompt iso_date cache options))
    = fst (getSystemPrompt cache) ++ nl ++ nl
        ++ buildOhmnicContext iso_date (Some (with_default (opt_searchResults options) []))
        ++ nl ++ nl
        ++ buildAgentInstructions (with_default (opt_agentType options) "chat")
                                  (with_default (opt_agentName options) "AI Assistant")
                                  (opt_customInstructions options)
        ++ history ++ query.
Proof.
  unfold buildPrompt. cbv zeta.
  destruct (getSystemPrompt cache) as [systemPrompt cache'].
  cbn [fst prompt]. eexists. eexists. reflexivity.
Qed.

(** X19.  The prompt is the system prompt, a blank line, the context of the
    results, a blank line, the persona, then the conversation and the query.
    The conversation is its heading and the turns in order, each as
    [**role:** content], and is left out, heading included, when there is no
    turn; the query block is left out when the query is missing or empty. *)
Theorem buildPrompt_layout :
  forall (iso_date : Z -> string) (cache : option string) (options : PromptOptions),
    let doc := fst (buildPrompt iso_date cache options) in
    let history := with_default (opt_conversationHistory options) [] in
    let historySection :=
      match history with
      | [] => ""
      | _ => nl ++ "# CONVERSATION HISTORY" ++ nl ++ nl ++ render_messages history
      end in
    let querySection :=
      match opt_userQuery options with
      | Some q => if String.eqb q "" then "" else nl ++ "# USER QUERY" ++ nl ++ nl ++ q ++ nl
      | None => ""
      end in
    prompt doc
    = fst (getSystemPrompt cache) ++ nl ++ nl
        ++ buildOhmnicContext iso_date (Some (with_default (opt_searchResults options) []))
        ++ nl ++ nl
        ++ buildAgentInstructions (with_default (opt_agentType options) "chat")
                                  (with_default (opt_agentName options) "AI Assistant")
                                  (opt_customInstructions options)
        ++ historySection ++ querySection
    /\ sec_conversationHistory (sections doc) = String.length historySection
    /\ sec_userQuery (sections doc) = String.length querySection
    /\ (sec_conversationHistory (sections doc) = 0%nat <-> history = []).
Proof.
  intros iso_date cache options. cbv zeta. unfold buildPrompt. cbv zeta.
  destruct (getSystemPrompt cache) as [systemPrompt cache'].
  cbn [fst prompt sections sec_conversationHistory sec_userQuery].
  assert (Hhist :
            (if (0 <? List.length (with_default (opt_conversationHistory options) []))%nat
             then forEach_message (with_default (opt_conversationHistory options) [])
                                  (nl ++ "# CONVERSATION HISTORY" ++ nl ++ nl)
             else "")
            = match with_default (opt_conversationHistory options) [] with
              | [] => ""
              | _ => nl ++ "# CONVERSATION HISTORY" ++ nl ++ nl
                        ++ render_messages (with_default (opt_conversationHistory options) [])
              end).
  { destruct (with_default (opt_conversationHistory options) []) as [|m ms];
      [reflexivity |].
    cbn [List.length Nat.ltb Nat.leb]. rewrite forEach_message_render.
    now rewrite !append_assoc. }
  assert (Hquery :
            match opt_userQuery options with
            | Some q => if negb (q =? "") then nl ++ "# USER QUERY" ++ nl ++ nl ++ q ++ nl
                        else ""
            | None => ""
            end
            = match opt_userQuery options with
              | Some q => if q =? "" then "" else nl ++ "# USER QUERY" ++ nl ++ nl ++ q ++ nl
              | None => ""
              end).
  { destruct (opt_userQuery options) as [q|]; [| reflexivity]. now destruct (q =? ""). }
  rewrite Hhist, Hquery. repeat split.
  - intros Hzero.
    destruct (with_default (opt_conversationHistory options) []) as [|m ms];
      [reflexivity |].
    rewrite !length_append in Hzero. cbn in Hzero. discriminate.
  - intros ->. reflexivity.
Qed.

(** ** Attribution *)

Lemma map_sources_length (rs : list SearchResult) :
  forall index, List.length (map_sources rs index) = List.length rs.
Proof.
  induction rs as [|r rs IH]; intros index; cbn [map_sources List.length];
    [reflexivity | now rewrite IH].
Qed.

Lemma map_sources_nth (rs : list SearchResult) :
  forall index k r,
    nth_error rs k = Some r ->
    exists e,
      nth_error (map_sources rs index) k = Some e
      /\ entry_index e = (index + k + 1)%nat
      /\ entry_filename e = display_filename r
      /\ entry_similarity e = similarity r
      /\ entry_chunkId e = chunkId r.
Proof.
  induction rs as [|r0 rs IH]; intros index k r; [destruct k; discriminate |].
  destruct k as [|k]; cbn [nth_error map_sources].
  - intros [= ->]. eexists. split; [reflexivity |].
    cbn [entry_index entry_filename entry_similarity entry_chunkId].
    repeat split. lia.
  - intros Hk. destruct (IH (S index) k r Hk) as (e & He & Hi & Hrest).
    exists e. split; [exact He |]. split; [lia | exact Hrest].
Qed.

(** X16.  [buildPromptWithAttribution] returns the prompt [buildPrompt]
    builds, and one source entry per result, in order and numbered from 1: the
    entry carries the result's chunk id and similarity, and its number and
    filename are those of the result's heading in the prompt text. *)
Theorem buildPromptWithAttribution_sources :
  forall (iso_date : Z -> string) (cache : option string) (options : PromptOptions),
    let attributed := fst (buildPromptWithAttribution iso_date cache options) in
    let rs := with_default (opt_searchResults options) [] in
    promptData attributed = fst (buildPrompt iso_date cache options)
    /\ List.length (sources attributed) = List.length rs
    /\ totalSources (attribution attributed) = List.length rs
    /\ forall k r,
         nth_error rs k = Some r ->
         exists e,
           nth_error (sources attributed) k = Some e
           /\ entry_index e = (k + 1)%nat
           /\ entry_filename e = display_filename r
           /\ entry_similarity e = similarity r
           /\ entry_chunkId e = chunkId r
           /\ occurs_in ("## Source " ++ show_nat (entry_index e) ++ ": "
                           ++ entry_filename e)
                        (prompt (promptData attributed)).
Proof.
  intros iso_date cache options. cbv zeta.
  pose proof (buildPrompt_text iso_date cache options) as (history & query & Hprompt).
  unfold buildPromptWithAttribution.
  destruct (buildPrompt iso_date cache options) as [doc cache'].
  cbn [fst promptData sources attribution totalSources].
  cbn [fst] in Hprompt.
  split; [reflexivity |]. rewrite map_sources_length.
  split; [reflexivity |]. split; [reflexivity |].
  intros k r Hk.
  destruct (map_sources_nth _ 0 k r Hk) as (e & He & Hi & Hf & Hs & Hc).
  exists e. cbn [Nat.add] in Hi.
  split; [exact He |]. split; [exact Hi |]. split; [exact Hf |].
  split; [exact Hs |]. split; [exact Hc |].
  rewrite Hi, Hf. fold (source_label k r). rewrite Hprompt. clear Hprompt.
  assert (Hne : with_default (opt_searchResults options) [] <> [])
    by (intros Hnil; rewrite Hnil in Hk; destruct k; discriminate).
  assert (Hshape : buildOhmnicContext iso_date
                     (Some (with_default (opt_searchResults options) []))
                   = context_header
                       ++ source_blocks iso_date 0 (with_default (opt_searchResults options) [])
                       ++ context_rules).
  { destruct (with_default (opt_searchResults options) []) as [|r0 rs0];
      [now elim Hne |].
    unfold buildOhmnicContext. cbn [List.length Nat.eqb].
    now rewrite forEach_source_blocks, append_assoc. }
  rewrite Hshape. clear Hshape.
  destruct (source_blocks_nth iso_date _ 0 k r Hk) as (before & rest & after & -> & _).
  cbn [Nat.add].
  generalize (source_label k r) (fst (getSystemPrompt cache)) context_header context_rules
             (buildAgentInstructions (with_default (opt_agentType options) "chat")
                                     (with_default (opt_agentName options) "AI Assistant")
                                     (opt_customInstructions options)).
  intros label sys header rules persona.
  exists (sys ++ nl ++ nl ++ header ++ before),
         (rest ++ after ++ rules ++ nl ++ nl ++ persona ++ history ++ query).
  now rewrite !append_assoc.
Qed.

(** A run of X16: the second of two results. *)
Lemma buildPromptWithAttribution_sources_witness :
  let rs := [result_of "policies.pdf" 3 (62 # 100); result_of "faq.pdf" 0 (55 # 100)] in
  let attributed :=
    fst (buildPromptWithAttribution fixed_date None
           (mkPromptOptions (Some rs) None None None (Some "Can I return it?") None)) in
  exists e,
    nth_error (sources attributed) 1 = Some e
    /\ entry_index e = 2%nat
    /\ entry_filename e = "faq.pdf"
    /\ entry_similarity e = 55 # 100
    /\ entry_chunkId e = 1%nat
    /\ occurs_in ("## Source " ++ show_nat (entry_index e) ++ ": " ++ entry_filename e)
                 (prompt (promptData attributed)).
Proof.
  cbv zeta.
  destruct (buildPromptWithAttribution_sources fixed_date None
              (mkPromptOptions
                 (Some [result_of "policies.pdf" 3 (62 # 100);
                        result_of "faq.pdf" 0 (55 # 100)])
                 None None None (Some "Can I return it?") None))
    as (_ & _ & _ & Hall).
  exact (Hall 1%nat (result_of "faq.pdf" 0 (55 # 100)) eq_refl).
Defined.


(** ** The token budget *)

Lemma estimateTokenCount_le (text : string) (max : Z) :
  (estimateTokenCount text <= max)%Z <-> (Z.of_nat (String.length text) <= 4 * max)%Z.
Proof.
  pose proof (LLMPromptBuilderProofs.estimateTokenCount_ceiling text). lia.
Qed.

(** X21.  [checkTokenLimit] reports [withinLimit = true], with no excess,
    exactly when the text has at most four characters per token of the
    ceiling; an estimate equal to the ceiling is within it.  With the default
    ceiling of 128000 tokens that is a text of at most 512000 characters. *)
Theorem checkTokenLimit_within :
  forall (text : string) (maxTokens : option Z),
    let report := checkTokenLimit text maxTokens in
    let max := with_default maxTokens 128000%Z in
    (withinLimit report = true
     <-> (Z.of_nat (String.length text) <= 4 * max)%Z)
    /\ (withinLimit report = true ->
        report = mkReport true (estimateTokenCount text) max None)
    /\ (maxTokens = None ->
        (withinLimit report = true
         <-> (Z.of_nat (String.length text) <= 512000)%Z)).
Proof.
  intros text maxTokens. cbv zeta. unfold checkTokenLimit. cbv zeta.
  fold defaultMaxTokens.
  pose proof (estimateTokenCount_le text (with_default maxTokens defaultMaxTokens)) as Hle.
  destruct (Z.ltb_spec (with_default maxTokens defaultMaxTokens) (estimateTokenCount text))
    as [Hover | Hin]; cbn [withinLimit].
  - split; [| split].
    + split; [discriminate | lia].
    + discriminate.
    + intros ->. cbn [with_default] in *. unfold defaultMaxTokens in *.
      split; [discriminate | lia].
  - split; [| split].
    + split; [lia | reflexivity].
    + reflexivity.
    + intros ->. cbn [with_default] in *. unfold defaultMaxTokens in *.
      split; [lia | reflexivity].
Qed.

(** X22.  The estimate never shrinks when text is added and is subadditive:
    the estimate of two texts put together is at least that of the first and
    at most the two estimates added up, one token less than that at the
    least. *)
Theorem estimateTokenCount_append :
  forall (a b : string),
    (estimateTokenCount a <= estimateTokenCount (a ++ b))%Z
    /\ (estimateTokenCount (a ++ b) <= estimateTokenCount a + estimateTokenCount b)%Z
    /\ (estimateTokenCount a + estimateTokenCount b - 1 <= estimateTokenCount (a ++ b))%Z.
Proof.
  intros a b.
  pose proof (LLMPromptBuilderProofs.estimateTokenCount_ceiling a).
  pose proof (LLMPromptBuilderProofs.estimateTokenCount_ceiling b).
  pose proof (LLMPromptBuilderProofs.estimateTokenCount_ceiling (a ++ b)) as Hab.
  rewrite length_append, Nat2Z.inj_add in Hab. lia.
Qed.

End PromptProofs.

(* ===================================================================== *)
(** * Rounding to doubles, and the average similarity                     *)
(* ===================================================================== *)

Module DoubleFacts.
Import Double.

Lemma two_not_0 : ~ 2 == 0.
Proof. discriminate. Qed.

Lemma pow2_pos (e : Z) : 0 < pow2 e.
Proof. apply Qpower_0_lt. reflexivity. Qed.

Lemma pow2_add (a b : Z) : pow2 (a + b) == pow2 a * pow2 b.
Proof. apply Qpower_plus, two_not_0. Qed.

Lemma pow2_sub (a b : Z) : pow2 (a - b) == pow2 a / pow2 b.
Proof. apply Qpower_minus, two_not_0. Qed.

Lemma pow2_le (a b : Z) : (a <= b)%Z -> pow2 a <= pow2 b.
Proof. intros H. apply Qpower_le_compat_l; [exact H | discriminate]. Qed.

Lemma pow2_lt (a b : Z) : (a < b)%Z -> pow2 a < pow2 b.
Proof. intros H. apply Qpower_lt_compat_l; [exact H | reflexivity]. Qed.

Lemma pow2_Z (e : Z) : (0 <= e)%Z -> pow2 e == inject_Z (2 ^ e).
Proof. intros H. unfold pow2. now rewrite (Zpower_Qpower 2 e H). Qed.

Lemma fraction_lt (n a d b : Z) :
  (0 < d)%Z -> (0 < b)%Z -> (0 <= n)%Z -> (n < a)%Z -> (b <= d)%Z ->
  inject_Z n / inject_Z d < inject_Z a / inject_Z b.
Proof.
  intros Hd Hb Hn Hna Hbd.
  assert (Hd' : 0 < inject_Z d) by (change 0 with (inject_Z 0); now rewrite <- Zlt_Qlt).
  assert (Hb' : 0 < inject_Z b) by (change 0 with (inject_Z 0); now rewrite <- Zlt_Qlt).
  apply Qlt_shift_div_l; [exact Hb' |].
  assert (He : inject_Z n / inject_Z d * inject_Z b == inject_Z (n * b) / inject_Z d)
    by (rewrite inject_Z_mult; field; lra).
  rewrite He. apply Qlt_shift_div_r; [exact Hd' |].
  rewrite <- inject_Z_mult, <- Zlt_Qlt. nia.
Qed.

Lemma fraction_le (n a d b : Z) :
  (0 < d)%Z -> (0 < b)%Z -> (0 <= a)%Z -> (a <= n)%Z -> (d <= b)%Z ->
  inject_Z a / inject_Z b <= inject_Z n / inject_Z d.
Proof.
  intros Hd Hb Ha Han Hdb.
  assert (Hd' : 0 < inject_Z d) by (change 0 with (inject_Z 0); now rewrite <- Zlt_Qlt).
  assert (Hb' : 0 < inject_Z b) by (change 0 with (inject_Z 0); now rewrite <- Zlt_Qlt).
  apply Qle_shift_div_l; [exact Hd' |].
  assert (He : inject_Z a / inject_Z b * inject_Z d == inject_Z (a * d) / inject_Z b)
    by (rewrite inject_Z_mult; field; lra).
  rewrite He. apply Qle_shift_div_r; [exact Hb' |].
  rewrite <- inject_Z_mult, <- Zle_Qle. nia.
Qed.

(** [floor_log2 x] is the exponent of [x]. *)
Lemma floor_log2_spec (x : Q) :
  0 < x -> pow2 (floor_log2 x) <= x /\ x < pow2 (floor_log2 x + 1).
Proof.
  intros Hx. unfold floor_log2. cbv zeta.
  set (a := Z.log2 (Qnum x)). set (b := Z.log2 (Zpos (Qden x))).
  assert (Hn : (0 < Qnum x)%Z) by (destruct x as [n d]; unfold Qlt in Hx; cbn in *; lia).
  destruct (Z.log2_spec (Qnum x) Hn) as [Ha1 Ha2]. fold a in Ha1, Ha2.
  destruct (Z.log2_spec (Zpos (Qden x)) ltac:(lia)) as [Hb1 Hb2]. fold b in Hb1, Hb2.
  assert (Ha0 : (0 <= a)%Z) by apply Z.log2_nonneg.
  assert (Hb0 : (0 <= b)%Z) by apply Z.log2_nonneg.
  assert (Hx' : x == inject_Z (Qnum x) / inject_Z (Zpos (Qden x)))
    by (destruct x as [n d]; cbn [Qnum Qden]; apply Qmake_Qdiv).
  assert (Hup : x < pow2 (a - b + 1)).
  { replace (a - b + 1)%Z with (a + 1 - b)%Z by lia.
    rewrite pow2_sub, (pow2_Z (a + 1)), (pow2_Z b), Hx' by lia.
    apply fraction_lt; try lia; try (apply Z.pow_pos_nonneg; lia). }
  assert (Hlow : pow2 (a - b - 1) <= x).
  { replace (a - b - 1)%Z with (a - (b + 1))%Z by lia.
    rewrite pow2_sub, (pow2_Z a), (pow2_Z (b + 1)), Hx' by lia.
    apply fraction_le; try lia;
      try (apply Z.pow_pos_nonneg; lia); try (apply Z.pow_nonneg; lia). }
  destruct (Qle_bool (pow2 (a - b)) x) eqn:Hc.
  - apply Qle_bool_iff in Hc. split; [exact Hc | exact Hup].
  - split; [exact Hlow |].
    replace (a - b - 1 + 1)%Z with (a - b)%Z by lia.
    apply Qnot_le_lt. intros Hle. apply Qle_bool_iff in Hle. congruence.
Qed.

Lemma floor_log2_mono (x y : Q) : 0 < x -> x <= y -> (floor_log2 x <= floor_log2 y)%Z.
Proof.
  intros Hx Hxy.
  destruct (floor_log2_spec x Hx) as [Hx1 _].
  destruct (floor_log2_spec y ltac:(lra)) as [_ Hy2].
  destruct (Z.le_gt_cases (floor_log2 x) (floor_log2 y)) as [H | H]; [exact H |].
  pose proof (pow2_le (floor_log2 y + 1) (floor_log2 x) ltac:(lia)). lra.
Qed.

(** ** Rounding to an integer *)

Ltac compare_facts :=
  repeat match goal with
         | H : Qcompare _ _ = Eq |- _ => apply Qeq_alt in H
         | H : Qcompare _ _ = Lt |- _ => apply Qlt_alt in H
         | H : Qcompare _ _ = Gt |- _ => apply Qgt_alt in H
         end.

Lemma round_half_even_bounds (y : Q) :
  (Qfloor y <= round_half_even y <= Qfloor y + 1)%Z.
Proof.
  unfold round_half_even. cbv zeta.
  destruct (Qcompare (y - inject_Z (Qfloor y)) (1 # 2)); [destruct (Z.even _) | |]; lia.
Qed.

Lemma round_half_even_le (y : Q) (k : Z) : y <= inject_Z k -> (round_half_even y <= k)%Z.
Proof.
  intros Hy. pose proof (Qfloor_le y) as Hf.
  assert (Hfk : (Qfloor y <= k)%Z) by (rewrite Zle_Qle; lra).
  destruct (Z.eq_dec (Qfloor y) k) as [He | Hne].
  - unfold round_half_even. cbv zeta.
    destruct (Qcompare (y - inject_Z (Qfloor y)) (1 # 2)) eqn:Hc;
      [apply Qeq_alt in Hc | lia | apply Qgt_alt in Hc]; rewrite He in Hc; lra.
  - pose proof (round_half_even_bounds y). lia.
Qed.

Lemma round_half_even_ge (y : Q) (k : Z) : inject_Z k <= y -> (k <= round_half_even y)%Z.
Proof.
  intros Hy. apply Qfloor_resp_le in Hy. rewrite Qfloor_Z in Hy.
  pose proof (round_half_even_bounds y). lia.
Qed.

Lemma round_half_even_Z (y : Q) (k : Z) : y == inject_Z k -> round_half_even y = k.
Proof.
  intros Hy. apply Z.le_antisymm.
  - apply round_half_even_le. lra.
  - apply round_half_even_ge. lra.
Qed.

Lemma round_half_even_mono (x y : Q) :
  x <= y -> (round_half_even x <= round_half_even y)%Z.
Proof.
  intros Hxy. pose proof (Qfloor_resp_le _ _ Hxy) as Hf.
  pose proof (round_half_even_bounds x) as Hbx.
  pose proof (round_half_even_bounds y) as Hby.
  destruct (Z.eq_dec (Qfloor x) (Qfloor y)) as [He | Hne]; [| lia].
  unfold round_half_even. cbv zeta. rewrite He.
  destruct (Qcompare (x - inject_Z (Qfloor y)) (1 # 2)) eqn:Hcx;
    destruct (Qcompare (y - inject_Z (Qfloor y)) (1 # 2)) eqn:Hcy;
    try (destruct (Z.even (Qfloor y))); try lia; compare_facts; lra.
Qed.

(** ** Rounding to a double *)

Lemma quantum_pos (x : Q) : 0 < quantum x.
Proof. apply pow2_pos. Qed.

Lemma round_positive_nonneg (x : Q) : 0 <= x -> 0 <= round_positive x.
Proof.
  intros Hx. unfold round_positive. pose proof (quantum_pos x) as Hq.
  apply Qmult_le_0_compat; [| lra].
  change 0 with (inject_Z 0). rewrite <- Zle_Qle. apply round_half_even_ge.
  change (inject_Z 0) with 0. apply Qle_shift_div_l; [exact Hq | lra].
Qed.

Lemma round_positive_mono (x y : Q) :
  0 < x -> x <= y -> round_positive x <= round_positive y.
Proof.
  intros Hx Hxy. assert (Hy : 0 < y) by lra.
  unfold round_positive, quantum.
  pose proof (floor_log2_mono x y Hx Hxy) as Hmono.
  set (ex := Z.max (floor_log2 x) (-1022)). set (ey := Z.max (floor_log2 y) (-1022)).
  assert (Hexy : (ex <= ey)%Z) by (subst ex ey; lia).
  pose proof (pow2_pos (ex - 52)) as Hqx. pose proof (pow2_pos (ey - 52)) as Hqy.
  destruct (Z.eq_dec ex ey) as [He | Hne].
  - rewrite He. apply Qmult_le_compat_r; [| lra].
    rewrite <- Zle_Qle. apply round_half_even_mono.
    apply Qmult_le_compat_r; [exact Hxy |]. apply Qlt_le_weak, Qinv_lt_0_compat, Hqy.
  - assert (Hey : ey = floor_log2 y) by (subst ex ey; lia).
    destruct (floor_log2_spec x Hx) as [_ Hx2].
    destruct (floor_log2_spec y Hy) as [Hy1 _]. rewrite <- Hey in Hy1.
    assert (Hx3 : x <= pow2 (ex + 1)).
    { apply Qlt_le_weak, Qlt_le_trans with (pow2 (floor_log2 x + 1)); [exact Hx2 |].
      apply pow2_le. subst ex. lia. }
    apply Qle_trans with (pow2 (ex + 1)); [| apply Qle_trans with (pow2 ey)].
    + assert (Hk : (round_half_even (x / pow2 (ex - 52)) <= 2 ^ 53)%Z).
      { apply round_half_even_le. apply Qle_shift_div_r; [exact Hqx |].
        rewrite <- (pow2_Z 53), <- pow2_add by lia.
        now replace (53 + (ex - 52))%Z with (ex + 1)%Z by lia. }
      rewrite Zle_Qle in Hk. rewrite <- (pow2_Z 53) in Hk by lia.
      replace (ex + 1)%Z with (53 + (ex - 52))%Z by lia. rewrite pow2_add.
      apply Qmult_le_compat_r; [exact Hk | lra].
    + apply pow2_le. lia.
    + assert (Hk : (2 ^ 52 <= round_half_even (y / pow2 (ey - 52)))%Z).
      { apply round_half_even_ge. apply Qle_shift_div_l; [exact Hqy |].
        rewrite <- (pow2_Z 52), <- pow2_add by lia.
        now replace (52 + (ey - 52))%Z with ey by lia. }
      rewrite Zle_Qle in Hk. rewrite <- (pow2_Z 52) in Hk by lia.
      replace ey with (52 + (ey - 52))%Z at 1 by lia. rewrite pow2_add.
      apply Qmult_le_compat_r; [exact Hk | lra].
Qed.

Lemma round_cases (x : Q) :
  (x == 0 /\ round x = 0)
  \/ (0 < x /\ round x == round_positive x)
  \/ (x < 0 /\ round x == - round_positive (- x)).
Proof.
  unfold round. destruct (Qcompare x 0) eqn:Hc.
  - left. apply Qeq_alt in Hc. now split.
  - right; right. apply Qlt_alt in Hc. split; [exact Hc | apply Qred_correct].
  - right; left. apply Qgt_alt in Hc. split; [exact Hc | apply Qred_correct].
Qed.

(** Rounding keeps the order. *)
Lemma round_mono (x y : Q) : x <= y -> round x <= round y.
Proof.
  intros Hxy.
  destruct (round_cases x) as [[Hx ->] | [[Hx ->] | [Hx ->]]];
    destruct (round_cases y) as [[Hy ->] | [[Hy ->] | [Hy ->]]];
    try (assert (0 <= round_positive y) by (apply round_positive_nonneg; lra));
    try (assert (0 <= round_positive (- x)) by (apply round_positive_nonneg; lra));
    try (assert (round_positive x <= round_positive y)
          by (apply round_positive_mono; lra));
    try (assert (round_positive (- y) <= round_positive (- x))
          by (apply round_positive_mono; lra));
    lra.
Qed.

Lemma round_comp (x y : Q) : x == y -> round x == round y.
Proof. intros H. apply Qle_antisym; apply round_mono; lra. Qed.

(** A number [z * 2^e] with [|z| < 2^53] and [e >= -1074] is a double. *)
Lemma round_positive_exact (z e : Z) :
  (0 < z < 2 ^ 53)%Z -> (-1074 <= e)%Z ->
  round_positive (inject_Z z * pow2 e) == inject_Z z * pow2 e.
Proof.
  intros Hz He. set (x := inject_Z z * pow2 e).
  assert (Hz' : 0 < inject_Z z) by (change 0 with (inject_Z 0); rewrite <- Zlt_Qlt; lia).
  pose proof (pow2_pos e) as Hpe.
  assert (Hx : 0 < x) by (subst x; apply Qmult_lt_0_compat; assumption).
  destruct (floor_log2_spec x Hx) as [Hlow _].
  assert (Hlog : (floor_log2 x < 53 + e)%Z).
  { destruct (Z.lt_ge_cases (floor_log2 x) (53 + e)) as [H | H]; [exact H |].
    pose proof (pow2_le (53 + e) (floor_log2 x) H) as Hle.
    rewrite pow2_add, (pow2_Z 53) in Hle by lia.
    assert (Hlt : inject_Z z * pow2 e < inject_Z (2 ^ 53) * pow2 e).
    { apply Qmult_lt_compat_r; [exact Hpe |]. rewrite <- Zlt_Qlt. lia. }
    subst x. lra. }
  unfold round_positive, quantum.
  set (ex := Z.max (floor_log2 x) (-1022)).
  assert (Hex : (ex - 52 <= e)%Z) by (subst ex; lia).
  pose proof (pow2_pos (ex - 52)) as Hq.
  assert (Hk : pow2 (e - (ex - 52)) == pow2 e / pow2 (ex - 52)) by apply pow2_sub.
  assert (Hint : x / pow2 (ex - 52) == inject_Z (z * 2 ^ (e - (ex - 52)))).
  { rewrite inject_Z_mult, <- pow2_Z, Hk by lia. subst x. field. lra. }
  rewrite (round_half_even_Z _ _ Hint), inject_Z_mult, <- pow2_Z, Hk by lia.
  subst x. field. lra.
Qed.

Lemma round_positive_comp (x y : Q) :
  0 < x -> x == y -> round_positive x == round_positive y.
Proof.
  intros Hx Hxy. apply Qle_antisym; apply round_positive_mono; lra.
Qed.

(** A number [z * 2^e] with [|z| < 2^53] and [-1074 <= e] is a double:
    rounding leaves it as it is. *)
Lemma round_exact (z e : Z) :
  (Z.abs z < 2 ^ 53)%Z -> (-1074 <= e)%Z ->
  round (inject_Z z * pow2 e) == inject_Z z * pow2 e.
Proof.
  intros Hz He. pose proof (pow2_pos e) as Hp.
  assert (Hsign : forall w : Z, 0 < inject_Z w * pow2 e -> (0 < w)%Z).
  { intros w Hw. destruct (Z.lt_ge_cases 0 w) as [H | H]; [exact H |].
    rewrite Zle_Qle in H. change (inject_Z 0) with 0 in H.
    assert (inject_Z w * pow2 e <= 0 * pow2 e) by (apply Qmult_le_compat_r; lra).
    lra. }
  destruct (round_cases (inject_Z z * pow2 e)) as [[Hx ->] | [[Hx ->] | [Hx ->]]].
  - symmetry. exact Hx.
  - apply round_positive_exact; [| exact He]. pose proof (Hsign z Hx). lia.
  - assert (Hneg : - (inject_Z z * pow2 e) == inject_Z (- z) * pow2 e)
      by (rewrite inject_Z_opp; ring).
    assert (Hpos : 0 < inject_Z (- z) * pow2 e) by (rewrite <- Hneg; lra).
    assert (Hnx : 0 < - (inject_Z z * pow2 e)) by lra.
    rewrite (round_positive_comp _ _ Hnx Hneg).
    rewrite round_positive_exact; [| pose proof (Hsign _ Hpos); lia | exact He].
    rewrite inject_Z_opp. ring.
Qed.

(** A double between two doubles stays between them when it is rounded. *)
Lemma round_between (lo hi x : Q) :
  round lo == lo -> round hi == hi -> lo <= x <= hi -> lo <= round x <= hi.
Proof.
  intros Hlo Hhi [H1 H2]. apply round_mono in H1, H2. lra.
Qed.

End DoubleFacts.

Module AverageProofs.
Import Js VectorSearch LLMPromptBuilder LLMPromptBuilderSpec.
Import Double DoubleFacts PromptProofs.

Lemma sum_similarity_results (rs : list SearchResult) :
  forall index start,
    fold_left (fun sum s => Double.add sum (entry_similarity s)) (map_sources rs index) start
    = double_sum rs start.
Proof.
  induction rs as [|r rs IH]; intros index start; [reflexivity |].
  cbn [map_sources fold_left double_sum entry_similarity]. apply IH.
Qed.

(** The multiples of a double [z * 2^e], as long as they are doubles. *)
Lemma multiple_exact (k : nat) (z e : Z) :
  (Z.abs z * Z.of_nat k < 2 ^ 53)%Z -> (-1074 <= e)%Z ->
  round (inject_Z (Z.of_nat k) * (inject_Z z * pow2 e))
  == inject_Z (Z.of_nat k) * (inject_Z z * pow2 e).
Proof.
  intros Hk He.
  assert (Hm : inject_Z (Z.of_nat k) * (inject_Z z * pow2 e)
               == inject_Z (Z.of_nat k * z) * pow2 e)
    by (rewrite inject_Z_mult; ring).
  rewrite (round_comp _ _ Hm), Hm. apply round_exact; [| exact He].
  rewrite Z.abs_mul. lia.
Qed.

(** Sums of doubles between two bounds stay between the multiples of the
    bounds, as long as those multiples are doubles. *)
Lemma double_sum_between (a b e : Z) (rs : list SearchResult) :
  (-1074 <= e)%Z ->
  Forall (fun r => inject_Z a * pow2 e <= similarity r <= inject_Z b * pow2 e) rs ->
  forall (k : nat) (start : Q),
    (Z.abs a * Z.of_nat (k + List.length rs) < 2 ^ 53)%Z ->
    (Z.abs b * Z.of_nat (k + List.length rs) < 2 ^ 53)%Z ->
    inject_Z (Z.of_nat k) * (inject_Z a * pow2 e) <= start
    /\ start <= inject_Z (Z.of_nat k) * (inject_Z b * pow2 e) ->
    inject_Z (Z.of_nat (k + List.length rs)) * (inject_Z a * pow2 e) <= double_sum rs start
    /\ double_sum rs start
       <= inject_Z (Z.of_nat (k + List.length rs)) * (inject_Z b * pow2 e).
Proof.
  intros He. induction 1 as [|r rs Hr _ IH]; intros k start Ha Hb Hstart.
  - cbn [List.length double_sum fold_left]. now rewrite Nat.add_0_r.
  - cbn [List.length] in *. replace (k + S (List.length rs))%nat
      with (S k + List.length rs)%nat in * by lia.
    change (double_sum (r :: rs) start) with (double_sum rs (add start (similarity r))).
    apply IH; [exact Ha | exact Hb |].
    set (lo := inject_Z a * pow2 e) in *. set (hi := inject_Z b * pow2 e) in *.
    assert (Hlo1 : round lo == lo)
      by (apply round_exact; [nia | exact He]).
    assert (Hhi1 : round hi == hi)
      by (apply round_exact; [nia | exact He]).
    assert (Hlok : round (inject_Z (Z.of_nat k) * lo) == inject_Z (Z.of_nat k) * lo)
      by (apply multiple_exact; [nia | exact He]).
    assert (Hhik : round (inject_Z (Z.of_nat k) * hi) == inject_Z (Z.of_nat k) * hi)
      by (apply multiple_exact; [nia | exact He]).
    assert (HloS : round (inject_Z (Z.of_nat (S k)) * lo) == inject_Z (Z.of_nat (S k)) * lo)
      by (apply multiple_exact; [nia | exact He]).
    assert (HhiS : round (inject_Z (Z.of_nat (S k)) * hi) == inject_Z (Z.of_nat (S k)) * hi)
      by (apply multiple_exact; [nia | exact He]).
    pose proof (round_between _ _ _ Hlo1 Hhi1 Hr) as Hr'.
    pose proof (round_between _ _ start Hlok Hhik ltac:(tauto)) as Hs'.
    assert (HS : inject_Z (Z.of_nat (S k)) == inject_Z (Z.of_nat k) + 1)
      by (rewrite Nat2Z.inj_succ, <- Z.add_1_r, inject_Z_plus; reflexivity).
    unfold add.
    assert (Hsum : inject_Z (Z.of_nat (S k)) * lo <= round start + round (similarity r)
                   <= inject_Z (Z.of_nat (S k)) * hi)
      by (rewrite HS; split; lra).
    pose proof (round_between _ _ _ HloS HhiS Hsum) as Hres. tauto.
Qed.

(** X17.  The average similarity [buildPromptWithAttribution] reports is 0
    without results.  With results it is their sum over their number, the sum
    and the quotient rounded as doubles are: it can lie outside the range of
    the similarities (three results at 0.7 give 0.6999999999999998).  Bounds
    that are doubles, with multiples up to the number of results that are
    doubles too (such as 0, 0.5 and 1), are kept: similarities between two
    such bounds have their average between them. *)
Theorem buildPromptWithAttribution_average :
  forall (iso_date : Z -> string) (cache : option string) (options : PromptOptions),
    let attributed := fst (buildPromptWithAttribution iso_date cache options) in
    let rs := with_default (opt_searchResults options) [] in
    let avg := avgSimilarity (attribution attributed) in
    (rs = [] -> avg = 0)
    /\ (rs <> [] ->
        avg = Double.div (double_sum rs 0) (inject_Z (Z.of_nat (List.length rs))))
    /\ forall a b e : Z,
         rs <> [] ->
         (-1074 <= e <= 971)%Z ->
         (Z.of_nat (List.length rs) < 2 ^ 53)%Z ->
         (Z.abs a * Z.of_nat (List.length rs) < 2 ^ 53)%Z ->
         (Z.abs b * Z.of_nat (List.length rs) < 2 ^ 53)%Z ->
         Forall (fun r => inject_Z a * pow2 e <= similarity r <= inject_Z b * pow2 e) rs ->
         inject_Z a * pow2 e <= avg <= inject_Z b * pow2 e.
Proof.
  intros iso_date cache options. cbv zeta. unfold buildPromptWithAttribution.
  destruct (buildPrompt iso_date cache options) as [doc cache'].
  cbn [fst attribution avgSimilarity]. rewrite map_sources_length.
  unfold sum_similarity. rewrite sum_similarity_results.
  set (rs := with_default (opt_searchResults options) []).
  assert (Hpos : rs <> [] -> (0 <? List.length rs)%nat = true).
  { intros Hne. apply Nat.ltb_lt. destruct rs; [now elim Hne | cbn; lia]. }
  split; [intros ->; reflexivity |].
  split; [intros Hne; now rewrite (Hpos Hne) |].
  intros a b e Hne [He _] Hcount Ha Hb Hall. rewrite (Hpos Hne).
  assert (Hlen : (1 <= Z.of_nat (List.length rs))%Z)
    by (destruct rs; [now elim Hne | cbn [List.length]; lia]).
  set (n := inject_Z (Z.of_nat (List.length rs))).
  assert (Hn : 1 <= n) by (subst n; change 1 with (inject_Z 1); rewrite <- Zle_Qle; lia).
  destruct (double_sum_between a b e rs He Hall 0 0 Ha Hb) as [Hlo Hhi];
    [change (inject_Z (Z.of_nat 0)) with 0; split; lra |].
  cbn [Nat.add] in Hlo, Hhi. fold n in Hlo, Hhi.
  set (lo := inject_Z a * pow2 e) in *. set (hi := inject_Z b * pow2 e) in *.
  assert (Hlo1 : round lo == lo) by (apply round_exact; [nia | exact He]).
  assert (Hhi1 : round hi == hi) by (apply round_exact; [nia | exact He]).
  assert (Hlon : round (n * lo) == n * lo) by (apply multiple_exact; [nia | exact He]).
  assert (Hhin : round (n * hi) == n * hi) by (apply multiple_exact; [nia | exact He]).
  assert (Hnn : round n == n).
  { assert (Hone : n == inject_Z (Z.of_nat (List.length rs)) * pow2 0)
      by (subst n; change (pow2 0) with 1; ring).
    rewrite (round_comp _ _ Hone), Hone. apply round_exact; lia. }
  unfold div.
  pose proof (round_between _ _ (double_sum rs 0) Hlon Hhin ltac:(tauto)) as Hsum.
  apply round_between; [exact Hlo1 | exact Hhi1 |].
  rewrite Hnn.
  split; [apply Qle_shift_div_l | apply Qle_shift_div_r]; lra.
Qed.

(** Runs of X17: similarities 0.62 and 0.55 average to a number between 0.5
    and 1; three similarities of 0.7 average to 0.6999999999999998, the double
    6305039478318693 / 2^53, which is below the double 0.7. *)
Lemma buildPromptWithAttribution_average_witness :
  let average rs :=
    avgSimilarity
      (attribution
         (fst (buildPromptWithAttribution fixed_date None
                 (mkPromptOptions (Some rs) None None None None None)))) in
  (1 # 2 <= average [result_of "policies.pdf" 3 (62 # 100);
                     result_of "faq.pdf" 0 (55 # 100)] <= 1)
  /\ average [result_of "a.pdf" 0 (7 # 10); result_of "b.pdf" 0 (7 # 10);
              result_of "c.pdf" 0 (7 # 10)]
     == 6305039478318693 # 9007199254740992
  /\ average [result_of "a.pdf" 0 (7 # 10); result_of "b.pdf" 0 (7 # 10);
              result_of "c.pdf" 0 (7 # 10)]
     < Double.round (7 # 10).
Proof.
  cbv zeta. split; [| split; vm_compute; reflexivity].
  destruct (buildPromptWithAttribution_average fixed_date None
              (mkPromptOptions
                 (Some [result_of "policies.pdf" 3 (62 # 100);
                        result_of "faq.pdf" 0 (55 # 100)])
                 None None None None None)) as (_ & _ & Hbounds).
  apply (Hbounds 1%Z 2%Z (-1)%Z); try (cbn; lia); try discriminate.
  repeat constructor; discriminate.
Defined.

End AverageProofs.

(* ===================================================================== *)
(** * Properties of the phone number display and of the excerpt           *)
(* ===================================================================== *)

Module VonageServiceProofs.
Import Js VonageService VonageServiceSpec JsFacts.

Lemma remove_non_digits_all (s : string) : all_digits (remove_non_digits s) = true.
Proof.
  induction s as [|c s IH]; [reflexivity |]. cbn [remove_non_digits].
  destruct (is_digit c) eqn:Hc; [| exact IH]. cbn [all_digits]. now rewrite Hc.
Qed.

Lemma remove_non_digits_id (s : string) :
  all_digits s = true -> remove_non_digits s = s.
Proof.
  induction s as [|c s IH]; [reflexivity |]. cbn [all_digits remove_non_digits].
  intros H. apply andb_prop in H as [Hc Hs]. now rewrite Hc, IH.
Qed.

Lemma formatPhoneNumber_display (msisdn : string) :
  formatPhoneNumber msisdn
  = if String.eqb msisdn "" then "" else display (remove_non_digits msisdn).
Proof. reflexivity. Qed.

Ltac digits H :=
  repeat match type of H with
         | (_ && _) = true => let Hc := fresh "Hc" in apply andb_prop in H as [Hc H]
         end.

(** The display of a string of digits holds those digits and is not empty. *)
Lemma display_digits (cleaned : string) :
  all_digits cleaned = true ->
  remove_non_digits (display cleaned) = cleaned
  /\ (exists rest, display cleaned = "+" ++ rest)
  /\ (forall a b c,
        String.length a = 3%nat -> String.length b = 3%nat -> String.length c = 4%nat ->
        cleaned = "1" ++ a ++ b ++ c ->
        display cleaned = "+1 (" ++ a ++ ") " ++ b ++ "-" ++ c).
Proof.
  intros Hall. unfold display.
  destruct (String.prefix "1" cleaned && (String.length cleaned =? 11)%nat) eqn:Hus.
  - apply andb_prop in Hus as [Hone Hlen]. apply Nat.eqb_eq in Hlen.
    do 12 (destruct cleaned as [|? cleaned]; try discriminate).
    cbn [String.prefix] in Hone.
    destruct (ascii_dec "1" a) as [<- | Hne]; [| discriminate].
    cbn [all_digits] in Hall. digits Hall.
    unfold slice, slice_from. cbn [String.length Nat.sub substring append].
    split; [| split].
    + cbn [remove_non_digits].
      repeat match goal with H : is_digit _ = true |- _ => rewrite H; clear H end.
      reflexivity.
    + eexists. reflexivity.
    + intros x y z Hx Hy Hz Heq.
      do 4 (destruct x as [|? x]; try discriminate).
      do 4 (destruct y as [|? y]; try discriminate).
      do 5 (destruct z as [|? z]; try discriminate).
      cbn [append] in Heq. injection Heq as -> -> -> -> -> -> -> -> -> ->.
      reflexivity.
  - assert (Hplus : String.prefix "+" cleaned = false).
    { destruct cleaned as [|c cleaned]; [reflexivity |]. cbn [String.prefix].
      destruct (ascii_dec "+" c) as [<- | _]; [| reflexivity].
      cbn [all_digits] in Hall. apply andb_prop in Hall as [Hc _]. discriminate. }
    rewrite Hplus. split; [| split].
    + cbn [append remove_non_digits]. now apply remove_non_digits_id.
    + eexists. reflexivity.
    + intros x y z Hx Hy Hz ->. exfalso.
      do 4 (destruct x as [|? x]; try discriminate).
      do 4 (destruct y as [|? y]; try discriminate).
      do 5 (destruct z as [|? z]; try discriminate).
Qed.

(** X23.  [formatPhoneNumber] keeps the digits of the number and nothing
    else of it: the digits of what it returns are the digits it was given.
    Formatting once more changes nothing; a number that is not empty comes
    out with a leading plus sign, and eleven digits that start with 1 come out
    as [+1 (abc) def-ghij]. *)
Theorem formatPhoneNumber_digits :
  forall (msisdn : string),
    remove_non_digits (formatPhoneNumber msisdn) = remove_non_digits msisdn
    /\ formatPhoneNumber (formatPhoneNumber msisdn) = formatPhoneNumber msisdn
    /\ (msisdn <> "" -> exists rest, formatPhoneNumber msisdn = "+" ++ rest)
    /\ (forall a b c,
          String.length a = 3%nat -> String.length b = 3%nat -> String.length c = 4%nat ->
          remove_non_digits msisdn = "1" ++ a ++ b ++ c ->
          formatPhoneNumber msisdn = "+1 (" ++ a ++ ") " ++ b ++ "-" ++ c).
Proof.
  intros msisdn. rewrite !formatPhoneNumber_display.
  destruct (display_digits (remove_non_digits msisdn) (remove_non_digits_all msisdn))
    as (Hkeep & (rest & Hplus) & Hus).
  destruct (String.eqb_spec msisdn "") as [-> | Hne].
  - repeat split; try reflexivity; [intros H; now elim H |].
    intros a b c _ _ _ H. discriminate.
  - split; [exact Hkeep |]. split; [| split; [intros _; now exists rest | exact Hus]].
    destruct (String.eqb_spec (display (remove_non_digits msisdn)) "") as [He | _];
      [rewrite Hplus in He; discriminate |].
    now rewrite Hkeep.
Qed.

(** A run of X23: a number written with dots. *)
Lemma formatPhoneNumber_digits_witness :
  formatPhoneNumber "1.213.555.0142" = "+1 (213) 555-0142"
  /\ formatPhoneNumber "+1 (213) 555-0142" = "+1 (213) 555-0142".
Proof.
  destruct (formatPhoneNumber_digits "1.213.555.0142") as (_ & Hagain & _ & Hus).
  assert (H : formatPhoneNumber "1.213.555.0142" = "+1 (213) 555-0142")
    by (apply (Hus "213" "555" "0142"); reflexivity).
  split; [exact H |]. rewrite <- H at 1. rewrite Hagain. exact H.
Defined.

End VonageServiceProofs.

Module DocumentRoutesProofs.
Import Js DocumentRoutes JsFacts.

Lemma substring_0_prefix (n : nat) :
  forall s, exists rest,
    s = substring 0 n s ++ rest
    /\ String.length (substring 0 n s) = Nat.min n (String.length s).
Proof.
  induction n as [|n IH]; intros s.
  - exists s. destruct s; split; reflexivity.
  - destruct s as [|c s]; [exists ""; split; reflexivity |].
    destruct (IH s) as (rest & Hrest & Hlen). exists rest.
    cbn [substring append String.length Nat.min]. split; [now rewrite <- Hrest |].
    now rewrite Hlen.
Qed.

Lemma substring_0_app (a b : string) :
  substring 0 (String.length a) (a ++ b) = a.
Proof.
  induction a as [|c a IH]; cbn [String.length append substring].
  - now destruct b.
  - now rewrite IH.
Qed.

Lemma lastIndexOf_from_spec (c : ascii) (s : string) :
  forall i found,
    lastIndexOf_from c s i found = found
    \/ exists a b,
         s = a ++ String c b
         /\ lastIndexOf_from c s i found = (i + Z.of_nat (String.length a))%Z.
Proof.
  induction s as [|x s IH]; intros i found; cbn [lastIndexOf_from]; [now left |].
  destruct (IH (i + 1)%Z (if Ascii.eqb x c then i else found))
    as [Hsame | (a & b & -> & Hres)].
  - rewrite Hsame. destruct (Ascii.eqb_spec x c) as [-> | _]; [| now left].
    right. exists "", s. split; [reflexivity |]. cbn [String.length]. lia.
  - right. exists (String x a), b. split; [reflexivity |].
    rewrite Hres. cbn [String.length]. lia.
Qed.

Lemma truncateText_short (text : string) (maxLength : nat) :
  (String.length text <= maxLength)%nat -> truncateText text maxLength = text.
Proof.
  intros Hle. unfold truncateText. apply Nat.leb_le in Hle. rewrite Hle.
  now rewrite orb_true_r.
Qed.

Lemma truncateText_cut (text : string) (maxLength : nat) :
  (maxLength < String.length text)%nat ->
  exists kept rest,
    truncateText text maxLength = kept ++ "..."
    /\ text = kept ++ rest
    /\ (String.length kept <= maxLength)%nat
    /\ (String.length kept = maxLength
        \/ (exists rest', rest = String space rest')
           /\ (4 * maxLength < 5 * String.length kept)%nat).
Proof.
  intros Hgt. unfold truncateText.
  destruct (String.eqb_spec text "") as [-> | _]; [cbn in Hgt; lia |].
  destruct (Nat.leb_spec (String.length text) maxLength) as [Hle | _]; [lia |].
  cbn [orb]. cbv zeta.
  destruct (substring_0_prefix maxLength text) as (rest & Htext & Hlen).
  rewrite Nat.min_l in Hlen by lia.
  set (truncated := substring 0 maxLength text) in *.
  destruct (Z.ltb_spec (4 * Z.of_nat maxLength) (5 * lastIndexOf truncated space))
    as [Hword | _].
  - unfold lastIndexOf in *.
    destruct (lastIndexOf_from_spec space truncated 0 (-1)) as [Hnone | (a & b & Hab & Hk)].
    + rewrite Hnone in Hword. lia.
    + rewrite Hk in *. cbn [Z.add] in *. rewrite Nat2Z.id.
      rewrite Hab, substring_0_app.
      exists a, (String space b ++ rest). split; [reflexivity |].
      assert (Hla : (String.length a < maxLength)%nat).
      { rewrite <- Hlen, Hab, length_append. cbn [String.length]. lia. }
      split; [rewrite Htext, Hab, append_assoc; reflexivity |].
      split; [lia |]. right. split; [now exists (b ++ rest) | lia].
  - exists truncated, rest. split; [reflexivity |]. split; [exact Htext |].
    split; [lia | now left].
Qed.

Lemma truncateText_length (text : string) (maxLength : nat) :
  (String.length (truncateText text maxLength) <= maxLength + 3)%nat.
Proof.
  destruct (Nat.le_gt_cases (String.length text) maxLength) as [Hle | Hgt].
  - rewrite (truncateText_short _ _ Hle). lia.
  - destruct (truncateText_cut _ _ Hgt) as (kept & rest & -> & _ & Hkept & _).
    rewrite length_append. cbn [String.length]. lia.
Qed.

(** X24.  [truncateText] returns a text of at most [maxLength] characters as
    it is.  A longer one is cut: what is kept is a beginning of the text of at
    most [maxLength] characters, followed by three dots; it is the first
    [maxLength] characters, or it stops just before a space and is longer
    than four fifths of [maxLength].  The excerpt is never longer than
    [maxLength + 3]. *)
Theorem truncateText_shape :
  forall (text : string) (maxLength : nat),
    ((String.length text <= maxLength)%nat -> truncateText text maxLength = text)
    /\ ((maxLength < String.length text)%nat ->
        exists kept rest,
          truncateText text maxLength = kept ++ "..."
          /\ text = kept ++ rest
          /\ (String.length kept <= maxLength)%nat
          /\ (String.length kept = maxLength
              \/ (exists rest', rest = String space rest')
                 /\ (4 * maxLength < 5 * String.length kept)%nat))
    /\ (String.length (truncateText text maxLength) <= maxLength + 3)%nat.
Proof.
  intros text maxLength.
  split; [apply truncateText_short |].
  split; [apply truncateText_cut | apply truncateText_length].
Qed.

(** A run of X24: cut at the last space within the first 20 characters. *)
Lemma truncateText_shape_witness :
  truncateText "Returns are accepted within 30 days." 20 = "Returns are accepted..."
  /\ exists kept rest,
       truncateText "Returns are accepted within 30 days." 20 = kept ++ "..."
       /\ "Returns are accepted within 30 days." = kept ++ rest
       /\ (String.length kept <= 20)%nat.
Proof.
  split; [reflexivity |].
  destruct (truncateText_shape "Returns are accepted within 30 days." 20)
    as (_ & Hlong & _).
  destruct (Hlong ltac:(cbn; lia)) as (kept & rest & H1 & H2 & H3 & _).
  now exists kept, rest.
Defined.

End DocumentRoutesProofs.

(* ===================================================================== *)
(** * agentAuth and the search route                                      *)
(* ===================================================================== *)

Module AgentAuthProofs.
Import Js AgentAuth AgentAuthSpec.

(** The first row a filter keeps, and the rows before it. *)
Lemma filter_first {A} (f : A -> bool) (l : list A) (x : A) (rest : list A) :
  filter f l = x :: rest ->
  f x = true
  /\ exists before after,
       l = (before ++ x :: after)%list /\ forall y, In y before -> f y = false.
Proof.
  induction l as [|a l IH]; [discriminate |]. cbn [filter].
  destruct (f a) eqn:Ha.
  - intros [= -> _]. split; [exact Ha |]. exists [], l. split; [reflexivity |].
    intros y [].
  - intros H. destruct (IH H) as (Hx & before & after & -> & Hb).
    split; [exact Hx |]. exists (a :: before), after. split; [reflexivity |].
    intros y [<- | Hy]; [exact Ha | now apply Hb].
Qed.

Lemma registered_to_true (agentId : string) (t : TenantRow) :
  registered_to agentId t = true <-> elevenlabs_agent_id t = Some agentId.
Proof.
  unfold registered_to. destruct (elevenlabs_agent_id t) as [a|].
  - rewrite String.eqb_eq. split; [now intros -> | now intros [= ->]].
  - split; discriminate.
Qed.

Lemma first_truthy_some (a b : option string) (v : string) :
  first_truthy a b = Some v -> v <> "" ->
  a = Some v \/ (unset a /\ b = Some v).
Proof.
  unfold first_truthy, unset. destruct a as [x|].
  - destruct (String.eqb_spec x "") as [-> | Hx].
    + intros -> _. right. split; [now right | reflexivity].
    + intros [= ->] _. now left.
  - intros -> _. right. split; [now left | reflexivity].
Qed.

Lemma differs_false (a b : option string) : differs a b = false <-> a = b.
Proof.
  destruct a as [x|], b as [y|]; cbn; try (split; congruence).
  rewrite negb_false_iff, String.eqb_eq. split; congruence.
Qed.

(** What [agentAuth] found when it calls [next]. *)
Lemma agentAuth_next (env : AuthEnv) (headers : Headers) (context : TenantContext) :
  fst (agentAuth env headers) = Next context ->
  let agent := ctx_agent_id context in
  first_truthy (x_elevenlabs_agent_id headers) (x_agent_id headers) = Some agent
  /\ agent <> ""
  /\ x_tool_auth headers = TOOL_AUTH_SECRET env
  /\ snd (agentAuth env headers) = [TenantQuery agent]
  /\ exists tenant rest,
       filter (registered_to agent) (tenants env) = tenant :: rest
       /\ context = mkContext (tenant_id tenant) (unique_tenant_identifier tenant)
                              (business_name tenant) agent.
Proof.
  unfold agentAuth.
  destruct (first_truthy (x_elevenlabs_agent_id headers) (x_agent_id headers))
    as [agentId|] eqn:Hid; [| discriminate].
  destruct (String.eqb_spec agentId "") as [-> | Hne]; [discriminate |].
  destruct (differs (x_tool_auth headers) (TOOL_AUTH_SECRET env)) eqn:Hsecret;
    [discriminate |].
  destruct (tenants_query_error env) as [e|]; [discriminate |].
  destruct (filter (registered_to agentId) (tenants env)) as [|tenant rest] eqn:Hrows;
    [discriminate |].
  cbn [fst snd]. intros [= <-]. cbn [ctx_agent_id].
  split; [reflexivity |]. split; [exact Hne |].
  split; [now apply differs_false |]. split; [reflexivity |].
  exists tenant, rest. split; [exact Hrows | reflexivity].
Qed.

(** X25.  When [agentAuth] lets a request through, the agent id is a
    non-empty header of the request, [x-elevenlabs-agent-id] if that one is
    set; the request's [x-tool-auth] is the configured secret (both may be
    missing); the tenants table was asked once, for that agent; and the
    context is that of the first tenant registered to the agent. *)
Theorem agentAuth_context :
  forall (env : AuthEnv) (headers : Headers) (context : TenantContext),
    fst (agentAuth env headers) = Next context ->
    let agent := ctx_agent_id context in
    agent <> ""
    /\ (x_elevenlabs_agent_id headers = Some agent
        \/ (unset (x_elevenlabs_agent_id headers) /\ x_agent_id headers = Some agent))
    /\ x_tool_auth headers = TOOL_AUTH_SECRET env
    /\ snd (agentAuth env headers) = [TenantQuery agent]
    /\ exists before tenant after,
         tenants env = (before ++ tenant :: after)%list
         /\ (forall t, In t before -> elevenlabs_agent_id t <> Some agent)
         /\ elevenlabs_agent_id tenant = Some agent
         /\ context = mkContext (tenant_id tenant) (unique_tenant_identifier tenant)
                                (business_name tenant) agent.
Proof.
  intros env headers context Hnext.
  destruct (agentAuth_next env headers context Hnext)
    as (Hid & Hne & Hsecret & Heffects & tenant & rest & Hrows & Hctx).
  cbv zeta. split; [exact Hne |]. split; [exact (first_truthy_some _ _ _ Hid Hne) |].
  split; [exact Hsecret |]. split; [exact Heffects |].
  destruct (filter_first _ _ _ _ Hrows) as (Ht & before & after & Hl & Hb).
  exists before, tenant, after. split; [exact Hl |].
  split; [| split; [now apply registered_to_true | exact Hctx]].
  intros t Hin Hreg. apply registered_to_true in Hreg. rewrite (Hb t Hin) in Hreg.
  discriminate.
Qed.

(** A run of X25: the second agent of the registry. *)
Lemma agentAuth_context_witness :
  fst (agentAuth registry (signed "agent_2"))
  = Next (mkContext "t2" "bolt-002" "Bolt" "agent_2")
  /\ snd (agentAuth registry (signed "agent_2")) = [TenantQuery "agent_2"].
Proof.
  split; [reflexivity |].
  exact (proj1 (proj2 (proj2 (proj2
           (agentAuth_context registry (signed "agent_2")
                              (mkContext "t2" "bolt-002" "Bolt" "agent_2") eq_refl))))).
Defined.

(** X26.  A request [agentAuth] rejects gets one of three statuses.  401,
    before the table is asked: no agent id in the headers, or an
    [x-tool-auth] that is not the configured secret.  500: the lookup
    failed.  403, the only answer that names the agent: the lookup found no
    tenant registered to it. *)
Theorem agentAuth_rejections :
  forall (env : AuthEnv) (headers : Headers) (reply : AuthReply),
    fst (agentAuth env headers) = Replied reply ->
    let effects := snd (agentAuth env headers) in
    (auth_status reply = 401%nat /\ auth_code reply = "MISSING_AGENT_ID"
     /\ auth_agent_id reply = None /\ tenant_queries effects = []
     /\ unset (x_elevenlabs_agent_id headers) /\ unset (x_agent_id headers))
    \/ (auth_status reply = 401%nat /\ auth_code reply = "INVALID_AUTH_SECRET"
        /\ auth_agent_id reply = None /\ tenant_queries effects = []
        /\ x_tool_auth headers <> TOOL_AUTH_SECRET env)
    \/ (auth_status reply = 500%nat /\ auth_code reply = "AUTH_ERROR"
        /\ auth_agent_id reply = None /\ tenants_query_error env <> None
        /\ exists agent, tenant_queries effects = [agent])
    \/ (auth_status reply = 403%nat /\ auth_code reply = "AGENT_NOT_REGISTERED"
        /\ exists agent,
             auth_agent_id reply = Some agent /\ tenant_queries effects = [agent]
             /\ forall t, In t (tenants env) -> elevenlabs_agent_id t <> Some agent).
Proof.
  intros env headers reply. unfold agentAuth.
  assert (Hmissing : forall b, first_truthy (x_elevenlabs_agent_id headers) b = None
                               \/ first_truthy (x_elevenlabs_agent_id headers) b = Some ""
                               -> unset (x_elevenlabs_agent_id headers) /\ unset b).
  { intros b. unfold first_truthy, unset.
    destruct (x_elevenlabs_agent_id headers) as [x|].
    - destruct (String.eqb_spec x "") as [-> | Hx].
      + intros [-> | ->]; split; auto.
      + intros [H | [= H]]; [discriminate | contradiction].
    - intros [-> | ->]; split; auto. }
  destruct (first_truthy (x_elevenlabs_agent_id headers) (x_agent_id headers))
    as [agentId|] eqn:Hid.
  - destruct (String.eqb_spec agentId "") as [-> | Hne].
    + cbn [fst snd]. intros [= <-]. left.
      destruct (Hmissing _ (or_intror Hid)) as [H1 H2]. now repeat split.
    + destruct (differs (x_tool_auth headers) (TOOL_AUTH_SECRET env)) eqn:Hsecret.
      * cbn [fst snd]. intros [= <-]. right; left. repeat split.
        intros Heq. apply differs_false in Heq. congruence.
      * destruct (tenants_query_error env) as [e|].
        -- cbn [fst snd]. intros [= <-]. right; right; left.
           repeat split; [discriminate | now exists agentId].
        -- destruct (filter (registered_to agentId) (tenants env)) as [|tenant rest] eqn:Hrows;
             [| discriminate].
           cbn [fst snd]. intros [= <-]. right; right; right.
           split; [reflexivity |]. split; [reflexivity |].
           exists agentId. split; [reflexivity |]. split; [reflexivity |].
           intros t Hin Hreg. apply registered_to_true in Hreg.
           assert (Hf : In t (filter (registered_to agentId) (tenants env)))
             by (apply filter_In; now split).
           rewrite Hrows in Hf. exact Hf.
  - cbn [fst snd]. intros [= <-]. left.
    destruct (Hmissing _ (or_introl Hid)) as [H1 H2]. now repeat split.
Qed.

(** A run of X26: an agent no tenant has. *)
Lemma agentAuth_rejections_witness :
  fst (agentAuth registry (signed "agent_9"))
  = Replied (mkAuthReply 403 "Agent not registered to any tenant" "AGENT_NOT_REGISTERED"
                         (Some "agent_9"))
  /\ tenant_queries (snd (agentAuth registry (signed "agent_9"))) = ["agent_9"].
Proof.
  split; [reflexivity |].
  destruct (agentAuth_rejections registry (signed "agent_9") _ eq_refl)
    as [(H & _) | [(H & _) | [(H & _) | (_ & _ & agent & Ha & Hq & _)]]];
    try discriminate H.
  injection Ha as <-. exact Hq.
Defined.

End AgentAuthProofs.

Module SearchRouteProofs.
Import Js Runtime RuntimeNotations VectorSearch VectorSearchSpec.
Import AgentAuth DocumentRoutes DocumentRoutesSpec.
Import RuntimeFacts VectorSearchProofs DocumentRoutesProofs.
Import EmbeddingServiceSpec AgentAuthSpec AgentAuthProofs.

Lemma blank_not_empty (q : string) : blank q = false -> q <> "".
Proof. now intros H ->. Qed.

Lemma to_result_sourced (rows : list Row) : Forall sourced (map to_result rows).
Proof. apply Forall_map, Forall_forall. intros r _. discriminate. Qed.

Lemma filter_by_type_run (t : string) (rs : list SearchResult) (st : State) :
  Forall sourced rs ->
  filter_by_type t rs st = (Return (filter (of_type t) rs), st).
Proof.
  induction 1 as [|r rs Hr _ IH]; [reflexivity |].
  cbn [filter_by_type filter]. unfold bind at 1, source_of, of_type.
  unfold sourced in Hr. destruct (source r) as [s|]; [| now elim Hr].
  unfold ret at 1, bind at 1. rewrite IH. unfold ret.
  destruct (fileType s) as [t'|]; [destruct (String.eqb t' t) |]; reflexivity.
Qed.

Lemma format_results_run (rs : list SearchResult) (st : State) :
  Forall sourced rs ->
  exists fs, format_results rs st = (Return fs, st) /\ Forall2 formats rs fs.
Proof.
  induction 1 as [|r rs Hr _ (fs & Hrun & Hfs)]; [exists []; split; [reflexivity | constructor] |].
  cbn [format_results]. unfold bind at 1, format_result, bind at 1, source_of.
  unfold sourced in Hr. destruct (source r) as [s|] eqn:Hs; [| now elim Hr].
  unfold ret at 1, ret at 1, bind at 1. rewrite Hrun. unfold ret.
  eexists. split; [reflexivity |]. constructor; [| exact Hfs].
  unfold formats.
  cbn [document_id full_chunk excerpt relevance_score formatted_filename formatted_source
       formatted_metadata meta_file_type meta_upload_date meta_tags].
  repeat (split; [reflexivity |]). exists s. rewrite Hs. repeat split.
Qed.

Lemma filter_sourced (f : SearchResult -> bool) (rs : list SearchResult) :
  Forall sourced rs -> Forall sourced (filter f rs).
Proof.
  rewrite !Forall_forall. intros H r Hr. apply filter_In in Hr as [Hr _]. now apply H.
Qed.

(** The route, step by step, on a query it accepts. *)
Lemma search_route_run (env : Env) (development : bool) (context : TenantContext)
      (body : SearchBody) (q : string) (st : State) :
  body_query body = Str q -> blank q = false ->
  let run := search env (Str q) (Some (ctx_tenant_id context)) (route_options body) st in
  match fst run with
  | Throw cause =>
      search_route env development context body st
      = (Return (unavailable development cause),
         emit (EvConsoleError search_route_site) (snd run))
  | Return resp =>
      exists fs,
        search_route env development context body st
        = (Return (SearchOk q fs (List.length fs) (responseTimeMs resp)), snd run)
        /\ Forall2 formats (selected body (results resp)) fs
  end.
Proof.
  intros Hq Hblank. cbv zeta.
  assert (Hstep : search_route env development context body st
                  = try_catch
                      (searchResults <- search env (Str q) (Some (ctx_tenant_id context))
                                               (route_options body) ;;
                       filteredResults <-
                         match body_document_type body with
                         | Some t => if String.eqb t "" then ret (results searchResults)
                                     else filter_by_type t (results searchResults)
                         | None => ret (results searchResults)
                         end ;;
                       formattedResults <- format_results filteredResults ;;
                       ret (SearchOk q formattedResults (List.length formattedResults)
                                     (responseTimeMs searchResults)))
                      (fun error =>
                         console_error search_route_site ;;;
                         ret (unavailable development error)) st).
  { unfold search_route. cbv zeta. rewrite Hq. cbn [truthy is_string]. rewrite Hblank.
    destruct (String.eqb_spec q "") as [-> | _]; [discriminate | reflexivity]. }
  rewrite Hstep. clear Hstep.
  destruct (search env (Str q) (Some (ctx_tenant_id context)) (route_options body) st)
    as [[resp | cause] st1] eqn:Hrun; cbn [fst snd]; unfold bind at 1, try_catch;
    rewrite Hrun; [| reflexivity].
  assert (Hsrc : Forall sourced (results resp)).
  { destruct (search_results_rows env (Str q) (Some (ctx_tenant_id context))
                                  (route_options body) st resp) as (v & -> & _);
      [now rewrite Hrun |]. apply to_result_sourced. }
  assert (Hsel : (match body_document_type body with
                  | Some t => if String.eqb t "" then ret (results resp)
                              else filter_by_type t (results resp)
                  | None => ret (results resp)
                  end) st1 = (Return (selected body (results resp)), st1)).
  { unfold selected, wanted_type. destruct (body_document_type body) as [t|]; [| reflexivity].
    destruct (String.eqb t ""); [reflexivity |]. now apply filter_by_type_run. }
  unfold bind at 1. rewrite Hsel.
  assert (Hsel' : Forall sourced (selected body (results resp))).
  { unfold selected. destruct (wanted_type body); [now apply filter_sourced | exact Hsrc]. }
  destruct (format_results_run _ st1 Hsel') as (fs & Hfs & Hall).
  unfold bind at 1. rewrite Hfs. unfold ret. exists fs. split; [reflexivity | exact Hall].
Qed.

Lemma search_route_rejects (env : Env) (development : bool) (context : TenantContext)
      (body : SearchBody) (st : State) :
  (forall q, body_query body = Str q -> blank q = true) ->
  search_route env development context body st = (Return bad_request, st).
Proof.
  intros Hbad. unfold search_route, try_catch. cbv zeta.
  destruct (body_query body) as [| | b | n | q |] eqn:Hq; try reflexivity.
  rewrite (Hbad q eq_refl). now rewrite orb_true_r.
Qed.


Lemma search_throws (env : Env) (query : Value) (tenantId : option string)
      (options : Options) (st : State) (e : Error) :
  fst (search env query tenantId options st) = Throw e ->
  exists cause, e = search_failed cause.
Proof.
  rewrite search_run. cbv zeta.
  destruct (EmbeddingService.generateEmbedding env query (tick st))
    as [[queryEmbedding | cause] st1].
  - destruct (select_error env) as [cause|]; [| discriminate].
    intros [= <-]. now exists cause.
  - intros [= <-]. now exists cause.
Qed.

(** What the route answered 200 to. *)
Lemma search_route_ok (env : Env) (development : bool) (context : TenantContext)
      (body : SearchBody) (st : State) (q : string) (fs : list FormattedResult)
      (n : nat) (t : Z) :
  fst (search_route env development context body st) = Return (SearchOk q fs n t) ->
  body_query body = Str q /\ blank q = false /\ n = List.length fs
  /\ exists resp,
       fst (search env (Str q) (Some (ctx_tenant_id context)) (route_options body) st)
       = Return resp
       /\ t = responseTimeMs resp
       /\ Forall2 formats (selected body (results resp)) fs.
Proof.
  intros Hrun.
  destruct (body_query body) as [| | b | x | q' |] eqn:Hq;
    try (rewrite search_route_rejects in Hrun by (intros ? ?; congruence); discriminate).
  destruct (blank q') eqn:Hblank.
  - rewrite search_route_rejects in Hrun by (intros ? ?; congruence). discriminate.
  - pose proof (search_route_run env development context body q' st Hq Hblank) as Hstep.
    cbv zeta in Hstep.
    destruct (fst (search env (Str q') (Some (ctx_tenant_id context)) (route_options body) st))
      as [resp | cause] eqn:Hsearch.
    + destruct Hstep as (fs' & Hroute & Hall). rewrite Hroute in Hrun.
      cbn [fst] in Hrun. injection Hrun as <- <- <- <-.
      split; [reflexivity |]. split; [exact Hblank |]. split; [reflexivity |].
      exists resp. split; [exact Hsearch |]. split; [reflexivity | exact Hall].
    + rewrite Hstep in Hrun. discriminate.
Qed.

(** A result of the route's search: a stored chunk of the tenant, at a
    similarity of a half or more. *)
Lemma route_search_result (env : Env) (q : string) (tenant : string) (body : SearchBody)
      (st : State) (resp : SearchResponse) (r : SearchResult) :
  fst (search env (Str q) (Some tenant) (route_options body) st) = Return resp ->
  In r (results resp) ->
  1 # 2 <= similarity r
  /\ exists c,
       In c (chunks env) /\ Runtime.tenant_id c = Some tenant
       /\ chunk_text c = text r /\ Runtime.document_id c = documentId r.
Proof.
  intros Hrun Hin. apply search_results_rows in Hrun as (v & Hres & _).
  rewrite Hres in Hin. apply in_map_iff in Hin as (row & <- & Hrow).
  apply run_select_in in Hrow as [Hrow Hth]. cbn [search_params sel_threshold] in Hth.
  apply candidates_tenant in Hrow as (Hc & t & Ht & Hct).
  cbn [search_params sel_tenant] in Ht. injection Ht as <-.
  split.
  - unfold to_result. cbn [similarity].
    assert (Hhalf : parseFloat_toFixed (1 # 2) 4 == 1 # 2) by reflexivity.
    rewrite <- Hhalf. apply RoundingFacts.parseFloat_toFixed_mono.
    exact Hth.
  - exists (row_chunk row). repeat split; assumption.
Qed.

Lemma route_search_length (env : Env) (q : string) (tenant : string) (body : SearchBody)
      (st : State) (resp : SearchResponse) :
  fst (search env (Str q) (Some tenant) (route_options body) st) = Return resp ->
  (List.length (selected body (results resp))
   <= Nat.min (with_default (body_max_results body) 5) 10)%nat.
Proof.
  intros Hrun. apply search_results_rows in Hrun as (v & Hres & _).
  assert (Hsel : (List.length (selected body (results resp))
                  <= List.length (results resp))%nat).
  { unfold selected. destruct (wanted_type body); [apply filter_length_le | lia]. }
  rewrite Hres, length_map in Hsel.
  pose proof (run_select_length env (search_params v (Some tenant) (route_options body)))
    as Hlen.
  cbn [search_params sel_limit route_options opt_topK with_default] in Hlen.
  rewrite Hres. lia.
Qed.

Lemma route_search_sorted (env : Env) (q : string) (tenant : string) (body : SearchBody)
      (st : State) (resp : SearchResponse) :
  fst (search env (Str q) (Some tenant) (route_options body) st) = Return resp ->
  StronglySorted by_reported (selected body (results resp)).
Proof.
  intros Hrun. apply search_results_rows in Hrun as (v & Hres & _).
  assert (Hs : StronglySorted by_reported (results resp))
    by (rewrite Hres; apply to_result_sorted, run_select_sorted).
  unfold selected. destruct (wanted_type body) as [ty|]; [| exact Hs].
  clear Hres. induction Hs as [|r rs Hrs IH Hall]; cbn [filter]; [constructor |].
  destruct (of_type ty r); [| exact IH]. constructor; [exact IH |].
  apply Forall_forall. intros r' Hr'. apply filter_In in Hr' as [Hr' _].
  rewrite Forall_forall in Hall. now apply Hall.
Qed.

Lemma selected_in (body : SearchBody) (rs : list SearchResult) (r : SearchResult) :
  In r (selected body rs) ->
  In r rs /\ forall ty, wanted_type body = Some ty -> of_type ty r = true.
Proof.
  unfold selected. destruct (wanted_type body) as [ty|].
  - intros Hin. apply filter_In in Hin as [Hin Hty]. split; [exact Hin |].
    now intros ty' [= <-].
  - intros Hin. split; [exact Hin | discriminate].
Qed.

Lemma formats_sorted (rs : list SearchResult) (fs : list FormattedResult) :
  Forall2 formats rs fs -> StronglySorted by_reported rs -> StronglySorted by_relevance fs.
Proof.
  induction 1 as [|r f rs fs Hf Hall IH]; intros Hs; [constructor |].
  apply StronglySorted_inv in Hs as [Hs Hr]. constructor; [now apply IH |].
  clear IH Hs. induction Hall as [|r' f' rs fs Hf' Hall IH]; [constructor |].
  apply Forall_cons_iff in Hr as [Hr' Hr]. constructor; [| now apply IH].
  unfold by_relevance. destruct Hf as (_ & _ & _ & -> & _), Hf' as (_ & _ & _ & -> & _).
  exact Hr'.
Qed.

Lemma Forall2_Forall_in {A B} (R : A -> B -> Prop) (P : B -> Prop)
      (l : list A) (l' : list B) :
  Forall2 R l l' -> (forall a b, In a l -> R a b -> P b) -> Forall P l'.
Proof.
  induction 1 as [|a b l l' Hab _ IH]; intros H; [constructor |].
  constructor; [apply (H a b); [now left | exact Hab] |].
  apply IH. intros a' b' Ha'. apply H. now right.
Qed.

(** The entries of a 200 of the route, one by one. *)
Lemma search_route_entries (env : Env) (development : bool) (context : TenantContext)
      (body : SearchBody) (st : State) (q : string) (fs : list FormattedResult)
      (n : nat) (t : Z) :
  fst (search_route env development context body st) = Return (SearchOk q fs n t) ->
  Forall (fun f =>
            excerpt f = truncateText (full_chunk f) 200
            /\ (String.length (excerpt f) <= 203)%nat
            /\ 1 # 2 <= relevance_score f
            /\ (forall ty, wanted_type body = Some ty ->
                           meta_file_type (formatted_metadata f) = Some ty)
            /\ shows_chunk_of env (ctx_tenant_id context) f) fs.
Proof.
  intros Hrun. apply search_route_ok in Hrun as (_ & _ & _ & resp & Hsearch & _ & Hall).
  apply (Forall2_Forall_in _ _ _ _ Hall). intros r f Hsel Hf.
  destruct (selected_in body _ r Hsel) as [Hr Hty].
  destruct (route_search_result env q (ctx_tenant_id context) body st resp r Hsearch Hr)
    as (Hsim & c & Hc & Htenant & Htext & Hdoc).
  destruct Hf as (Hid & Hfull & Hex & Hrel & s & Hs & _ & Hft & _).
  split; [now rewrite Hex, Hfull |].
  split; [rewrite Hex; apply (truncateText_length (text r) 200) |].
  split; [now rewrite Hrel |]. split.
  - intros ty Hw. specialize (Hty ty Hw). unfold of_type in Hty. rewrite Hs in Hty.
    rewrite Hft. destruct (fileType s) as [t'|]; [| discriminate].
    apply String.eqb_eq in Hty. now subst.
  - exists c. rewrite Hfull, Hid. repeat split; assumption.
Qed.


(** X27.  [POST /search] answers 400, with its one error text, exactly when
    the query is not a string or holds nothing but white space; it has then
    done nothing: no embedding is asked for, nothing is read or logged. *)
Theorem search_route_bad_request :
  forall (env : Env) (development : bool) (context : TenantContext)
         (body : SearchBody) (st : State),
    ((forall q, body_query body = Str q -> blank q = true) ->
     search_route env development context body st = (Return bad_request, st))
    /\ (forall error message details,
          fst (search_route env development context body st)
          = Return (ReplyError 400 error message details) ->
          (forall q, body_query body = Str q -> blank q = true)
          /\ search_route env development context body st = (Return bad_request, st)).
Proof.
  intros env development context body st.
  split; [apply search_route_rejects |].
  intros error message details Hrun.
  assert (Hbad : forall q, body_query body = Str q -> blank q = true).
  { intros q Hq. destruct (blank q) eqn:Hblank; [reflexivity |].
    pose proof (search_route_run env development context body q st Hq Hblank) as Hstep.
    cbv zeta in Hstep.
    destruct (fst (search env (Str q) (Some (ctx_tenant_id context)) (route_options body) st))
      as [resp | cause].
    - destruct Hstep as (fs & Hroute & _). rewrite Hroute in Hrun. discriminate.
    - rewrite Hstep in Hrun. cbn [fst] in Hrun. unfold unavailable in Hrun.
      injection Hrun as Hstatus _ _ _. lia. }
  split; [exact Hbad | now apply search_route_rejects].
Qed.

(** Runs of X27: a query of a space, a tab and a line feed, and a query that
    is a number. *)
Lemma search_route_bad_request_witness :
  let white := String (ascii_of_nat 32) (String (ascii_of_nat 9) nl) in
  search_route knowledge_base false (mkContext "t1" "acme-001" "Acme" "agent_1")
               (asking white) initial
  = (Return bad_request, initial)
  /\ search_route knowledge_base false (mkContext "t1" "acme-001" "Acme" "agent_1")
                  (mkSearchBody (Number 42) (Some 3%nat) None) initial
     = (Return bad_request, initial).
Proof.
  cbv zeta. split.
  - apply (proj1 (search_route_bad_request knowledge_base false
                    (mkContext "t1" "acme-001" "Acme" "agent_1")
                    (asking (String (ascii_of_nat 32) (String (ascii_of_nat 9) nl)))
                    initial)).
    intros q [= <-]. reflexivity.
  - apply (proj1 (search_route_bad_request knowledge_base false
                    (mkContext "t1" "acme-001" "Acme" "agent_1")
                    (mkSearchBody (Number 42) (Some 3%nat) None) initial)).
    intros q Hq. discriminate Hq.
Defined.

(** X28.  On a query it accepts, [POST /search] searches once, for the
    tenant of the context, with at most [min(max_results, 10)] results (5
    when the body names no number) and the threshold 0.5.  It never throws:
    when the search throws it reports the error and answers 500 with its
    fixed texts, and with the search's message, which begins
    [Semantic search failed: ], only in development; when the search returns
    it answers 200 with the search's response time. *)
Theorem search_route_unavailable :
  forall (env : Env) (development : bool) (context : TenantContext)
         (body : SearchBody) (st : State) (q : string),
    body_query body = Str q -> blank q = false ->
    let run := search env (Str q) (Some (ctx_tenant_id context))
                      (mkOptions (Some (Nat.min (with_default (body_max_results body) 5%nat)
                                                10))
                                 (Some (1 # 2)) None) st in
    match fst run with
    | Throw cause =>
        search_route env development context body st
        = (Return (ReplyError 500 "Search temporarily unavailable" (Some apology)
                              (if development then Some (message cause) else None)),
           emit (EvConsoleError search_route_site) (snd run))
        /\ exists c, message cause = "Semantic search failed: " ++ message c
    | Return resp =>
        exists fs,
          search_route env development context body st
          = (Return (SearchOk q fs (List.length fs) (responseTimeMs resp)), snd run)
    end.
Proof.
  intros env development context body st q Hq Hblank. cbv zeta.
  pose proof (search_route_run env development context body q st Hq Hblank) as Hstep.
  cbv zeta in Hstep. unfold route_options in Hstep.
  destruct (fst (search env (Str q) (Some (ctx_tenant_id context))
                        (mkOptions (Some (Nat.min (with_default (body_max_results body) 5%nat)
                                                  10))
                                   (Some (1 # 2)) None) st))
    as [resp | cause] eqn:Hsearch.
  - destruct Hstep as (fs & Hroute & _). now exists fs.
  - split; [exact Hstep |].
    destruct (search_throws _ _ _ _ _ _ Hsearch) as (c & ->). now exists c.
Qed.

(** A run of X28: the endpoint returns a vector of two dimensions. *)
Lemma search_route_unavailable_witness :
  let context := mkContext "t1" "acme-001" "Acme" "agent_1" in
  fst (search_route answers_once true context (asking "return policy") initial)
  = Return (ReplyError 500 "Search temporarily unavailable" (Some apology)
              (Some "Semantic search failed: Failed to generate embedding: Invalid embedding dimensions: expected 3072, got 2"))
  /\ fst (search_route answers_once false context (asking "return policy") initial)
     = Return (ReplyError 500 "Search temporarily unavailable" (Some apology) None).
Proof.
  cbv zeta.
  pose proof (search_route_unavailable answers_once true
                (mkContext "t1" "acme-001" "Acme" "agent_1") (asking "return policy")
                initial "return policy" eq_refl eq_refl) as Hdev.
  pose proof (search_route_unavailable answers_once false
                (mkContext "t1" "acme-001" "Acme" "agent_1") (asking "return policy")
                initial "return policy" eq_refl eq_refl) as Hprod.
  cbv zeta in Hdev, Hprod.
  assert (Hrun : fst (search answers_once (Str "return policy") (Some "t1")
                        (mkOptions (Some (Nat.min (with_default
                                                     (body_max_results
                                                        (asking "return policy")) 5%nat) 10))
                                   (Some (1 # 2)) None) initial)
                 = Throw (search_failed
                            (new_Error "Failed to generate embedding: Invalid embedding dimensions: expected 3072, got 2")))
    by (vm_compute; reflexivity).
  cbn [ctx_tenant_id] in Hdev, Hprod. rewrite Hrun in Hdev, Hprod.
  destruct Hdev as [Hdev _], Hprod as [Hprod _]. rewrite Hdev, Hprod.
  split; reflexivity.
Defined.

(** X29.  A 200 of [POST /search] echoes the query, counts its results, and
    holds no more than [min(max_results, 10)] of them, in descending
    relevance.  Each shows a stored chunk of the tenant of the context: its
    text in full, and as an excerpt cut by [truncateText] to 200 characters
    (203 with the dots); its relevance is 0.5 or more; its file type is the
    document type the body asked for, when it asked for one. *)
Theorem search_route_results :
  forall (env : Env) (development : bool) (context : TenantContext)
         (body : SearchBody) (st : State) (q : string) (fs : list FormattedResult)
         (n : nat) (t : Z),
    fst (search_route env development context body st) = Return (SearchOk q fs n t) ->
    body_query body = Str q
    /\ n = List.length fs
    /\ (n <= Nat.min (with_default (body_max_results body) 5%nat) 10)%nat
    /\ StronglySorted by_relevance fs
    /\ Forall (fun f =>
                 excerpt f = truncateText (full_chunk f) 200
                 /\ (String.length (excerpt f) <= 203)%nat
                 /\ 1 # 2 <= relevance_score f
                 /\ (forall ty, wanted_type body = Some ty ->
                                meta_file_type (formatted_metadata f) = Some ty)
                 /\ shows_chunk_of env (ctx_tenant_id context) f) fs.
Proof.
  intros env development context body st q fs n t Hrun.
  pose proof (search_route_entries _ _ _ _ _ _ _ _ _ Hrun) as Hentries.
  apply search_route_ok in Hrun as (Hq & _ & -> & resp & Hsearch & _ & Hall).
  split; [exact Hq |]. split; [reflexivity |].
  split; [| split; [| exact Hentries]].
  - rewrite <- (Forall2_length Hall).
    exact (route_search_length env q (ctx_tenant_id context) body st resp Hsearch).
  - apply (formats_sorted _ _ Hall).
    exact (route_search_sorted env q (ctx_tenant_id context) body st resp Hsearch).
Qed.

(** A run of X29: two chunks of the tenant, the nearer first. *)
Lemma search_route_results_witness :
  exists fs t,
    fst (search_route knowledge_base false (mkContext "t1" "acme-001" "Acme" "agent_1")
                      (mkSearchBody (Str "return policy") (Some 20%nat) (Some "pdf"))
                      initial)
    = Return (SearchOk "return policy" fs 2 t)
    /\ map full_chunk fs = ["Returns are accepted within 30 days."; "Our return policy."]
    /\ map formatted_source fs = ["policies.pdf (chunk 1)"; "policies.pdf (chunk 0)"]
    /\ StronglySorted by_relevance fs.
Proof.
  eexists. eexists.
  assert (Hrun : fst (search_route knowledge_base false
                        (mkContext "t1" "acme-001" "Acme" "agent_1")
                        (mkSearchBody (Str "return policy") (Some 20%nat) (Some "pdf"))
                        initial)
                 = Return (SearchOk "return policy" _ 2 _)) by (vm_compute; reflexivity).
  split; [exact Hrun |]. split; [reflexivity |]. split; [reflexivity |].
  exact (proj1 (proj2 (proj2 (proj2 (search_route_results _ _ _ _ _ _ _ _ _ Hrun))))).
Defined.

Lemma search_route_returns (env : Env) (development : bool) (context : TenantContext)
      (body : SearchBody) (st : State) :
  exists reply, fst (search_route env development context body st) = Return reply.
Proof.
  destruct (body_query body) as [| | b | x | q |] eqn:Hq;
    try (rewrite search_route_rejects by (intros ? ?; congruence); now eexists).
  destruct (blank q) eqn:Hblank.
  - rewrite search_route_rejects by (intros ? ?; congruence). now eexists.
  - pose proof (search_route_run env development context body q st Hq Hblank) as Hstep.
    cbv zeta in Hstep.
    destruct (fst (search env (Str q) (Some (ctx_tenant_id context)) (route_options body) st)).
    + destruct Hstep as (fs & -> & _). now eexists.
    + rewrite Hstep. now eexists.
Qed.

(** X30.  [POST /search] behind [agentAuth]: a request the middleware
    rejects gets the middleware's answer and the handler does not run.
    Otherwise the handler answers, and does not throw; the tenant it
    searches for is the one the tenants table registers to the agent id of
    the headers, whatever the body says, and every result of a 200 shows a
    stored chunk of that tenant. *)
Theorem post_search_isolation :
  forall (auth : AuthEnv) (env : Env) (development : bool) (headers : Headers)
         (body : SearchBody) (st : State),
    let answer := snd (post_search auth env development headers body) st in
    match fst (agentAuth auth headers) with
    | Replied reply => answer = (Return (Rejected reply), st)
    | Next context =>
        exists tenant,
          In tenant (tenants auth)
          /\ elevenlabs_agent_id tenant = Some (ctx_agent_id context)
          /\ (x_elevenlabs_agent_id headers = Some (ctx_agent_id context)
              \/ x_agent_id headers = Some (ctx_agent_id context))
          /\ (exists reply, fst answer = Return (Handled reply))
          /\ forall q fs n t,
               fst answer = Return (Handled (SearchOk q fs n t)) ->
               Forall (shows_chunk_of env (AgentAuth.tenant_id tenant)) fs
    end.
Proof.
  intros auth env development headers body st. cbv zeta. unfold post_search.
  destruct (agentAuth auth headers) as [[context | reply] effects] eqn:Hauth;
    cbn [fst snd]; [| reflexivity].
  destruct (agentAuth_next auth headers context ltac:(now rewrite Hauth))
    as (Hid & Hne & _ & _ & tenant & rest & Hrows & Hctx).
  assert (Hin : In tenant (filter (registered_to (ctx_agent_id context)) (tenants auth)))
    by (rewrite Hrows; now left).
  apply filter_In in Hin as [Hin Hreg]. apply registered_to_true in Hreg.
  exists tenant. split; [exact Hin |]. split; [exact Hreg |].
  split; [destruct (first_truthy_some _ _ _ Hid Hne) as [H | [_ H]]; auto |].
  unfold bind.
  destruct (search_route_returns env development context body st) as (reply & Hreply).
  destruct (search_route env development context body st) as [[r | e] st1] eqn:Hroute;
    cbn [fst] in Hreply; [| discriminate].
  injection Hreply as ->. cbn [fst]. split; [now exists reply |].
  intros q fs n t [= ->].
  assert (Hrun : fst (search_route env development context body st)
                 = Return (SearchOk q fs n t)) by now rewrite Hroute.
  pose proof (search_route_entries _ _ _ _ _ _ _ _ _ Hrun) as Hentries.
  assert (Htenant : ctx_tenant_id context = AgentAuth.tenant_id tenant)
    by now rewrite Hctx.
  rewrite <- Htenant. eapply Forall_impl; [| exact Hentries].
  intros f (_ & _ & _ & _ & Hshows). exact Hshows.
Qed.

(** Runs of X30: the first agent of the registry gets chunks of its tenant;
    a call signed with another secret does not reach the search. *)
Lemma post_search_isolation_witness :
  (exists fs t,
     fst (snd (post_search registry knowledge_base false (signed "agent_1")
                           (asking "return policy")) initial)
     = Return (Handled (SearchOk "return policy" fs 2 t))
     /\ Forall (shows_chunk_of knowledge_base "t1") fs)
  /\ snd (post_search registry knowledge_base false
                      (mkHeaders (Some "agent_1") None (Some "guess"))
                      (asking "return policy")) initial
     = (Return (Rejected (mkAuthReply 401 "Invalid tool authentication"
                                      "INVALID_AUTH_SECRET" None)), initial).
Proof.
  split.
  - pose proof (post_search_isolation registry knowledge_base false (signed "agent_1")
                  (asking "return policy") initial) as H.
    cbv zeta in H.
    change (fst (agentAuth registry (signed "agent_1")))
      with (Next (mkContext "t1" "acme-001" "Acme" "agent_1")) in H.
    destruct H as (tenant & Hin & Hreg & _ & _ & Hall).
    assert (Ht : AgentAuth.tenant_id tenant = "t1").
    { destruct Hin as [<- | [<- | [<- | []]]]; [discriminate | reflexivity | discriminate]. }
    rewrite Ht in Hall. eexists. eexists.
    assert (Hrun : fst (snd (post_search registry knowledge_base false (signed "agent_1")
                                         (asking "return policy")) initial)
                   = Return (Handled (SearchOk "return policy" _ 2 _)))
      by (vm_compute; reflexivity).
    split; [exact Hrun | exact (Hall _ _ _ _ Hrun)].
  - exact (post_search_isolation registry knowledge_base false
             (mkHeaders (Some "agent_1") None (Some "guess")) (asking "return policy")
             initial).
Defined.

End SearchRouteProofs.
